(** * yolox/exp/yolox_base.py: the experiment object [Exp]

    A shallow embedding of the class [Exp] of [yolox/exp/yolox_base.py] and
    the properties of its operations.  The instance dictionary of the
    experiment is a finite map from attribute names to Python values, the
    objects built by the framework live in a store addressed by object
    identity, and every operation is a computation in a state-and-exception
    monad in which each call into the framework may raise. *)

From Stdlib Require Import ZArith Lia Bool List SpecFloat Permutation.
From stdpp Require Import base option list gmap strings.

Set Warnings "-register-all".

Local Open Scope string_scope.
Local Open Scope Z_scope.

(** ** Exceptions and outcomes *)

(** The exceptions an operation can end with.  [Fault] stands for whatever
    exception the framework raises from inside one of its calls; [Blocked]
    is a process that waits in a collective no peer completes. *)
Inductive exn :=
| AttributeError (name : string)
| TypeError
| ValueError
| IndexError
| ZeroDivisionError
| OverflowError
| RuntimeError
| Blocked
| Fault (code : nat).

Inductive outcome (A : Type) :=
| Ok (a : A)
| Raise (e : exn).
Arguments Ok {A} a.
Arguments Raise {A} e.

Definition obind {A B} (o : outcome A) (f : A → outcome B) : outcome B :=
  match o with
  | Ok a => f a
  | Raise e => Raise e
  end.

(** ** Python numbers: unbounded [int] and binary64 [float] *)

Module PyFloat.

Definition prec : Z := 53.
Definition emax : Z := 1024.

Definition fmul : spec_float → spec_float → spec_float := SFmul prec emax.
Definition fdiv : spec_float → spec_float → spec_float := SFdiv prec emax.

(** The exact value of an integer, before any rounding. *)
Definition exact (z : Z) : spec_float :=
  match z with
  | Z0 => S754_zero false
  | Zpos p => S754_finite false p 0
  | Zneg p => S754_finite true p 0
  end.

Definition finite (f : spec_float) : bool :=
  match f with
  | S754_zero _ | S754_finite _ _ _ => true
  | _ => false
  end.

Definition is_zero (f : spec_float) : bool :=
  match f with
  | S754_zero _ => true
  | _ => false
  end.

Definition one : spec_float := S754_finite false 4503599627370496 (-52).

(** [float(z)]: the nearest binary64 value, ties to even. *)
Definition of_int (z : Z) : outcome spec_float :=
  let f := binary_normalize prec emax z 0 false in
  if finite f then Ok f else Raise OverflowError.

(** [a / b] on two ints: the correctly rounded quotient. *)
Definition int_truediv (a b : Z) : outcome spec_float :=
  if b =? 0 then Raise ZeroDivisionError
  else
    let q := fdiv (exact a) (exact b) in
    if finite q then Ok q else Raise OverflowError.

(** [x / y] on two floats. *)
Definition truediv (x y : spec_float) : outcome spec_float :=
  if is_zero y then Raise ZeroDivisionError else Ok (fdiv x y).

(** [int(x)]: truncation towards zero. *)
Definition trunc (x : spec_float) : outcome Z :=
  match x with
  | S754_zero _ => Ok 0
  | S754_finite s m e =>
      let a := match e with
               | Zneg _ => Z.shiftr (Zpos m) (- e)
               | _ => Z.shiftl (Zpos m) e
               end in
      Ok (if s then - a else a)
  | S754_infinity _ => Raise OverflowError
  | S754_nan => Raise ValueError
  end.

(** A decimal literal [d * 10^e] of the source text. *)
Definition decimal (d e : Z) : spec_float :=
  match e with
  | Zneg _ => fdiv (exact d) (exact (10 ^ (- e)))
  | _ => binary_normalize prec emax (d * 10 ^ e) 0 false
  end.

End PyFloat.

(** ** Python values *)

Inductive value :=
| VNone
| VBool (b : bool)
| VInt (z : Z)
| VFloat (f : spec_float)
| VStr (s : string)
| VTuple (l : list value)
| VList (l : list value)
| VRef (r : nat).

Definition truthy (v : value) : bool :=
  match v with
  | VNone => false
  | VBool b => b
  | VInt z => negb (z =? 0)
  | VFloat f => negb (PyFloat.is_zero f)
  | VStr s => negb (String.eqb s "")
  | VTuple l | VList l => negb (Nat.eqb (length l) 0)
  | VRef _ => true
  end.

Definition is_None (v : value) : bool :=
  match v with
  | VNone => true
  | _ => false
  end.

(** The numeric reading of a value; [bool] is a subclass of [int]. *)
Inductive num :=
| NInt (z : Z)
| NFloat (f : spec_float).

Definition as_num (v : value) : outcome num :=
  match v with
  | VInt z => Ok (NInt z)
  | VBool b => Ok (NInt (if b then 1 else 0))
  | VFloat f => Ok (NFloat f)
  | _ => Raise TypeError
  end.

Definition num_float (n : num) : outcome spec_float :=
  match n with
  | NInt z => PyFloat.of_int z
  | NFloat f => Ok f
  end.

(** [float(v)] *)
Definition py_float (v : value) : outcome spec_float :=
  obind (as_num v) num_float.

(** [a * b] *)
Definition py_mul (a b : value) : outcome value :=
  obind (as_num a) (λ x, obind (as_num b) (λ y,
    match x, y with
    | NInt i, NInt j => Ok (VInt (i * j))
    | _, _ =>
        obind (num_float x) (λ f, obind (num_float y) (λ g,
          Ok (VFloat (PyFloat.fmul f g))))
    end)).

(** [a + b] and [a - b] *)
Definition py_add (a b : value) : outcome value :=
  obind (as_num a) (λ x, obind (as_num b) (λ y,
    match x, y with
    | NInt i, NInt j => Ok (VInt (i + j))
    | _, _ =>
        obind (num_float x) (λ f, obind (num_float y) (λ g,
          Ok (VFloat (SFadd PyFloat.prec PyFloat.emax f g))))
    end)).

Definition py_sub (a b : value) : outcome value :=
  obind (as_num a) (λ x, obind (as_num b) (λ y,
    match x, y with
    | NInt i, NInt j => Ok (VInt (i - j))
    | _, _ =>
        obind (num_float x) (λ f, obind (num_float y) (λ g,
          Ok (VFloat (SFsub PyFloat.prec PyFloat.emax f g))))
    end)).

(** [a / b] *)
Definition py_truediv (a b : value) : outcome value :=
  obind (as_num a) (λ x, obind (as_num b) (λ y,
    match x, y with
    | NInt i, NInt j => obind (PyFloat.int_truediv i j) (λ q, Ok (VFloat q))
    | _, _ =>
        obind (num_float x) (λ f, obind (num_float y) (λ g,
          obind (PyFloat.truediv f g) (λ q, Ok (VFloat q))))
    end)).

(** [a // b] on ints *)
Definition py_floordiv (a b : Z) : outcome Z :=
  if b =? 0 then Raise ZeroDivisionError else Ok (a `div` b).

(** [int(a)] *)
Definition py_int (a : value) : outcome Z :=
  match a with
  | VInt z => Ok z
  | VBool b => Ok (if b then 1 else 0)
  | VFloat f => PyFloat.trunc f
  | _ => Raise TypeError
  end.

(** [a != 1] *)
Definition py_ne_1 (a : value) : bool :=
  match a with
  | VInt z => negb (z =? 1)
  | VFloat f => negb (SFeqb f PyFloat.one)
  | VBool b => negb b
  | _ => true
  end.

(** [a > 0] *)
Definition py_gt_0 (a : value) : outcome bool :=
  match a with
  | VInt z => Ok (0 <? z)
  | VFloat f => Ok (SFltb (S754_zero false) f)
  | VBool b => Ok b
  | _ => Raise TypeError
  end.

(** [a[i]] on a tuple or a list *)
Definition py_index (a : value) (i : nat) : outcome value :=
  match a with
  | VTuple l | VList l =>
      match l !! i with
      | Some v => Ok v
      | None => Raise IndexError
      end
  | _ => Raise TypeError
  end.

(** ** Framework objects *)

(** What an attribute of a module holds: a [Parameter] (named by its
    identity), [None], or a tensor that is not a [Parameter]. *)
Inductive held :=
| Param (p : nat)
| HNone
| Buffer (t : nat).

(** One entry of [named_modules()].  [weight] and [bias] are [None] when the
    module has no such attribute; [extra_parameters] are the parameters the
    module registers under any other name. *)
Record nn_module := {
  is_BatchNorm2d : bool;
  weight : option held;
  bias : option held;
  extra_parameters : list nat;
  eps : value;
  momentum : value;
}.

Inductive obj :=
| Instance (cls : string) (args : list (string * value))
| Model (named_modules : list (string * nn_module))
| SGD (param_groups : list (list held * list (string * value))).

(** ** The process: environment and store *)

(** What the surroundings of one process decide: at which framework call an
    exception is raised and which one, the position of the process in the
    distributed job, the bits the random generator will deliver, the
    contents of freshly allocated tensor memory, the module tree that
    [YOLOX(backbone, head)] builds, and the length of the training set. *)
Record Env := {
  faults : nat → option exn;
  dist_rank : Z;
  world_size : Z;
  local_rank : Z;
  entropy : nat → Z;
  uninitialised : Z * Z;
  yolox_modules : list (string * nn_module);
  dataset_len : Z;
}.

(** [attrs] is [self.__dict__]; [heap] holds the framework objects, an
    object's identity being its index; [clock] counts the framework calls
    made so far and [draws] the random numbers drawn; [inbox] holds the
    tensors broadcast to this process and [outbox] those it broadcast. *)
Record Store := {
  attrs : gmap string value;
  heap : list obj;
  clock : nat;
  draws : nat;
  inbox : list (Z * Z);
  outbox : list (Z * Z);
}.

Definition set_attrs (f : gmap string value → gmap string value) (s : Store) : Store :=
  {| attrs := f (attrs s); heap := heap s; clock := clock s; draws := draws s;
     inbox := inbox s; outbox := outbox s |}.

Definition set_heap (f : list obj → list obj) (s : Store) : Store :=
  {| attrs := attrs s; heap := f (heap s); clock := clock s; draws := draws s;
     inbox := inbox s; outbox := outbox s |}.

Definition tick (s : Store) : Store :=
  {| attrs := attrs s; heap := heap s; clock := S (clock s); draws := draws s;
     inbox := inbox s; outbox := outbox s |}.

Definition drawn (s : Store) : Store :=
  {| attrs := attrs s; heap := heap s; clock := clock s; draws := S (draws s);
     inbox := inbox s; outbox := outbox s |}.

Definition set_inbox (l : list (Z * Z)) (s : Store) : Store :=
  {| attrs := attrs s; heap := heap s; clock := clock s; draws := draws s;
     inbox := l; outbox := outbox s |}.

Definition sent (t : Z * Z) (s : Store) : Store :=
  {| attrs := attrs s; heap := heap s; clock := clock s; draws := draws s;
     inbox := inbox s; outbox := (outbox s ++ [t])%list |}.

(** ** The monad of operations *)

Definition M (A : Type) : Type := Env → Store → outcome A * Store.

#[global] Instance M_ret : MRet M := λ A a _ s, (Ok a, s).

#[global] Instance M_bind : MBind M := λ A B f m env s,
  match m env s with
  | (Ok a, s') => f a env s'
  | (Raise e, s') => (Raise e, s')
  end.

Definition raise {A} (e : exn) : M A := λ _ s, (Raise e, s).

Definition lift {A} (o : outcome A) : M A := λ _ s, (o, s).

Definition ask {A} (f : Env → A) : M A := λ env s, (Ok (f env), s).

(** [self.k] *)
Definition getattr (k : string) : M value := λ _ s,
  match attrs s !! k with
  | Some v => (Ok v, s)
  | None => (Raise (AttributeError k), s)
  end.

(** [getattr(self, k, d)] *)
Definition getattr_default (k : string) (d : value) : M value := λ _ s,
  (Ok (default d (attrs s !! k)), s).

(** [hasattr(self, k)], which for an instance attribute is [k in self.__dict__] *)
Definition hasattr (k : string) : M bool := λ _ s,
  (Ok (bool_decide (is_Some (attrs s !! k))), s).

(** [self.k = v] *)
Definition setattr (k : string) (v : value) : M unit := λ _ s,
  (Ok (), set_attrs (insert k v) s).

(** A call into the framework, named for the reader: it is counted, and it
    raises what the environment schedules for it. *)
Definition call (name : string) : M unit := λ env s,
  match faults env (clock s) with
  | Some e => (Raise e, tick s)
  | None => (Ok (), tick s)
  end.

(** A new object, whose identity is the next free index of the heap. *)
Definition alloc (o : obj) : M value := λ _ s,
  (Ok (VRef (length (heap s))), set_heap (λ h, (h ++ [o])%list) s).

(** The constructor call of the framework class [cls] with keyword arguments [args]. *)
Definition new (cls : string) (args : list (string * value)) : M value :=
  call cls;; alloc (Instance cls args).

(** The object a value refers to. *)
Definition deref (v : value) : M (nat * obj) := λ _ s,
  match v with
  | VRef r =>
      match heap s !! r with
      | Some o => (Ok (r, o), s)
      | None => (Raise RuntimeError, s)
      end
  | VNone => (Raise (AttributeError "NoneType"), s)
  | _ => (Raise TypeError, s)
  end.

(** An in-place change of the object at [r]. *)
Definition mutate (r : nat) (o : obj) : M unit := λ _ s,
  (Ok (), set_heap (λ h, <[r := o]> h) s).

(** [random.randint] on the unpacked [bounds]: an integer of the inclusive range, chosen by
    the next number the generator delivers. *)
Definition randint (bounds : value) : M Z :=
  match bounds with
  | VTuple [VInt lo; VInt hi] | VList [VInt lo; VInt hi] =>
      if hi <? lo then raise ValueError
      else λ env s, (Ok (lo + entropy env (draws s) `mod` (hi - lo + 1)), drawn s)
  | _ => raise TypeError
  end.

(** ** [Exp.__init__] *)

(** The assignments of [__init__], in source order. *)
Definition init_attrs : list (string * value) :=
  let f := λ d e, VFloat (PyFloat.decimal d e) in
  [ ("num_classes", VInt 8);
    ("num_colors", VInt 3);
    ("depth", f 100 (-2));
    ("width", f 100 (-2));
    ("act", VStr "silu");
    ("data_num_workers", VInt 4);
    ("input_size", VTuple [VInt 512; VInt 640]);
    ("multiscale_range", VInt 5);
    ("data_dir", VNone);
    ("train_ann", VStr "instances_train2017.json");
    ("val_ann", VStr "instances_val2017.json");
    ("mosaic_prob", f 10 (-1));
    ("mosaic_scale", VTuple [f 1 (-1); VInt 2]);
    ("enable_mixup", VBool false);
    ("mixup_prob", f 0 (-1));
    ("mixup_scale", VTuple [f 5 (-1); f 15 (-1)]);
    ("hsv_prob", f 10 (-1));
    ("gaussian_prob", f 3 (-1));
    ("flip_prob", f 0 (-1));
    ("degrees", f 150 (-1));
    ("translate", f 10 (-1));
    ("shear", f 10 (-1));
    ("perspective", f 1 (-1));
    ("warmup_epochs", VInt 15);
    ("max_epoch", VInt 2000);
    ("warmup_lr", f 5 (-7));
    ("basic_lr_per_img", f 5 (-6));
    ("scheduler", VStr "yoloxwarmcos");
    ("no_aug_epochs", VInt 20);
    ("min_lr_ratio", f 6 (-2));
    ("ema", VBool true);
    ("weight_decay", f 2 (-4));
    ("momentum", f 9 (-1));
    ("print_interval", VInt 6);
    ("eval_interval", VInt 5);
    ("exp_name", VStr "yolox_base");
    ("test_size", VTuple [VInt 512; VInt 640]);
    ("test_conf", f 2 (-1));
    ("nmsthre", f 3 (-1)) ].

(** [base] is the dictionary [super().__init__()] leaves behind. *)
Definition Exp_init (base : gmap string value) : gmap string value :=
  foldl (λ d kv, <[kv.1 := kv.2]> d) base init_attrs.

(** A process that has just constructed its experiment. *)
Definition fresh (base : gmap string value) : Store :=
  {| attrs := Exp_init base; heap := []; clock := 0; draws := 0;
     inbox := []; outbox := [] |}.

(** ** [Exp.get_model] *)

Definition init_yolo (modules : list (string * nn_module)) : list (string * nn_module) :=
  (λ km, (km.1,
          if is_BatchNorm2d km.2 then
            {| is_BatchNorm2d := true;
               weight := weight km.2; bias := bias km.2;
               extra_parameters := extra_parameters km.2;
               eps := VFloat (PyFloat.decimal 1 (-3));
               momentum := VFloat (PyFloat.decimal 3 (-2)) |}
          else km.2)) <$> modules.

(** [self.model.apply(init_yolo)]: the visit reaches every module of the
    tree, so its net effect is [init_yolo] on the whole list. *)
Definition apply_init_yolo (model : value) : M unit :=
  ro ← deref model;
  match ro.2 with
  | Model modules => call "Module.apply";; mutate ro.1 (Model (init_yolo modules))
  | _ => raise (AttributeError "apply")
  end.

Definition get_model : M value :=
  call "from yolox.models import YOLOX, YOLOPAFPN, YOLOXHead";;
  model ← getattr_default "model" VNone;
  (if is_None model then
     let in_channels := VList [VInt 256; VInt 512; VInt 1024] in
     depth ← getattr "depth";
     width ← getattr "width";
     act ← getattr "act";
     backbone ← new "YOLOPAFPN"
       [("depth", depth); ("width", width); ("in_channels", in_channels); ("act", act)];
     num_classes ← getattr "num_classes";
     num_colors ← getattr "num_colors";
     width ← getattr "width";
     act ← getattr "act";
     head ← new "YOLOXHead"
       [("num_classes", num_classes); ("num_colors", num_colors); ("width", width);
        ("in_channels", in_channels); ("act", act)];
     call "YOLOX";;
     modules ← ask yolox_modules;
     model ← alloc (Model modules);
     setattr "model" model
   else mret ());;
  model ← getattr "model";
  apply_init_yolo model;;
  model ← getattr "model";
  call "head.initialize_biases";;
  getattr "model".

(** ** [Exp.get_data_loader] *)

(** [TrainTransform(max_labels=n, flip_prob=self.flip_prob, ...)] *)
Definition TrainTransform (max_labels : Z) : M value :=
  flip_prob ← getattr "flip_prob";
  hsv_prob ← getattr "hsv_prob";
  gaussian_prob ← getattr "gaussian_prob";
  new "TrainTransform"
    [("max_labels", VInt max_labels); ("flip_prob", flip_prob);
     ("hsv_prob", hsv_prob); ("gaussian_prob", gaussian_prob)].

(** [with cm: body]; the manager is a generator without [try], so its exit
    code runs only when the body returns. *)
Definition with_ {A} (cm : string) (body : M A) : M A :=
  call (cm +:+ ".__enter__");;
  r ← body;
  call (cm +:+ ".__exit__");;
  mret r.

Definition get_data_loader (batch_size : Z) (is_distributed no_aug cache_img : bool)
  : M value :=
  call "from yolox.data import ...";;
  call "from yolox.utils import ...";;
  call "get_local_rank";;
  local_rank ← ask local_rank;
  dataset ← with_ "wait_for_the_master" (
    data_dir ← getattr "data_dir";
    train_ann ← getattr "train_ann";
    input_size ← getattr "input_size";
    preproc ← TrainTransform 50;
    new "COCODataset"
      [("data_dir", data_dir); ("json_file", train_ann); ("img_size", input_size);
       ("preproc", preproc); ("cache", VBool cache_img); ("type", VStr "Train")]);
  input_size ← getattr "input_size";
  preproc ← TrainTransform 120;
  degrees ← getattr "degrees";
  translate ← getattr "translate";
  mosaic_scale ← getattr "mosaic_scale";
  mixup_scale ← getattr "mixup_scale";
  shear ← getattr "shear";
  perspective ← getattr "perspective";
  enable_mixup ← getattr "enable_mixup";
  mosaic_prob ← getattr "mosaic_prob";
  mixup_prob ← getattr "mixup_prob";
  dataset ← new "MosaicDetection"
    [("dataset", dataset); ("mosaic", VBool (negb no_aug)); ("img_size", input_size);
     ("preproc", preproc); ("degrees", degrees); ("translate", translate);
     ("mosaic_scale", mosaic_scale); ("mixup_scale", mixup_scale); ("shear", shear);
     ("perspective", perspective); ("enable_mixup", enable_mixup);
     ("mosaic_prob", mosaic_prob); ("mixup_prob", mixup_prob)];
  setattr "dataset" dataset;;
  batch_size ← (if is_distributed then
                  call "dist.get_world_size";;
                  w ← ask world_size;
                  lift (py_floordiv batch_size w)
                else mret batch_size);
  ds ← getattr "dataset";
  call "len";;
  n ← ask dataset_len;
  seed ← getattr "seed";
  seed ← (if truthy seed then getattr "seed" else mret (VInt 0));
  sampler ← new "InfiniteSampler" [("size", VInt n); ("seed", seed)];
  batch_sampler ← new "YoloBatchSampler"
    [("sampler", sampler); ("batch_size", VInt batch_size);
     ("drop_last", VBool false); ("mosaic", VBool (negb no_aug))];
  data_num_workers ← getattr "data_num_workers";
  let dataloader_kwargs :=
    [("num_workers", data_num_workers); ("pin_memory", VBool true);
     ("batch_sampler", batch_sampler)] in
  ds ← getattr "dataset";
  train_loader ← new "DataLoader" (("dataset", ds) :: dataloader_kwargs);
  mret train_loader.

(** ** [Exp.random_resize] *)

Definition int64 (z : Z) : bool := (- 2 ^ 63 <=? z) && (z <? 2 ^ 63).

(** [tensor[i] = z] on a [LongTensor]: the value must fit 64 bits. *)
Definition tensor_set (z : Z) : M Z :=
  call "Tensor.__setitem__";;
  if int64 z then mret z else raise RuntimeError.

(** [tensor[i].item()] *)
Definition tensor_item (z : Z) : M Z :=
  call "Tensor.item";;
  mret z.

(** [dist.broadcast(tensor, src)] as one process sees it: the source keeps
    its tensor and hands it to the others, every other process has its
    tensor overwritten by what the source handed out. *)
Definition exchange (tensor : Z * Z) (src : Z) : M (Z * Z) := λ env s,
  if dist_rank env =? src then (Ok tensor, sent tensor s)
  else match inbox s with
       | t :: rest => (Ok t, set_inbox rest s)
       | [] => (Raise Blocked, s)
       end.

Definition dist_broadcast (tensor : Z * Z) (src : Z) : M (Z * Z) :=
  call "dist.broadcast";;
  exchange tensor src.

(** Lines 185 to 188: the default multiscale range. *)
Definition default_random_size : M unit :=
  has ← hasattr "random_size";
  if negb has then
    input_size ← getattr "input_size";
    h ← lift (py_index input_size 0);
    q ← lift (obind (py_truediv h (VInt 32)) py_int);
    multiscale_range ← getattr "multiscale_range";
    min_size ← lift (py_sub (VInt q) multiscale_range);
    input_size ← getattr "input_size";
    h ← lift (py_index input_size 0);
    q ← lift (obind (py_truediv h (VInt 32)) py_int);
    multiscale_range ← getattr "multiscale_range";
    max_size ← lift (py_add (VInt q) multiscale_range);
    setattr "random_size" (VTuple [min_size; max_size])
  else mret ().

(** [self.input_size[1] * 1.0 / self.input_size[0]] *)
Definition get_size_factor : M value :=
  input_size ← getattr "input_size";
  w ← lift (py_index input_size 1);
  w ← lift (py_mul w (VFloat PyFloat.one));
  input_size ← getattr "input_size";
  h ← lift (py_index input_size 0);
  lift (py_truediv w h).

Definition random_resize (data_loader : value) (epoch rank : Z) (is_distributed : bool)
  : M value :=
  call "torch.LongTensor";;
  tensor ← ask uninitialised;
  call "Tensor.cuda";;
  tensor ← (if rank =? 0 then
              size_factor ← get_size_factor;
              default_random_size;;
              random_size ← getattr "random_size";
              size ← randint random_size;
              size0 ← lift (obind (py_mul (VInt 32) (VInt size)) py_int);
              k ← lift (obind (py_mul (VInt size) size_factor) py_int);
              let size := (size0, 32 * k) in
              t0 ← tensor_set size.1;
              t1 ← tensor_set size.2;
              mret (t0, t1)
            else mret tensor);
  tensor ← (if is_distributed then
              call "dist.barrier";;
              dist_broadcast tensor 0
            else mret tensor);
  h ← tensor_item tensor.1;
  w ← tensor_item tensor.2;
  mret (VTuple [VInt h; VInt w]).

(** ** [Exp.preprocess] *)

Section Slices.
Context {A : Type}.

(** Every second element of [l], starting with the head when [skip] is
    [false]. *)
Fixpoint alternate (skip : bool) (l : list A) : list A :=
  match l with
  | [] => []
  | x :: l' => if skip then alternate false l' else x :: alternate true l'
  end.

(** [l[start::2]] *)
Fixpoint get_slice (start : nat) (l : list A) : list A :=
  match start, l with
  | O, _ => alternate false l
  | S n, _ :: l' => get_slice n l'
  | S _, [] => []
  end.

Fixpoint put_alternate (skip : bool) (l vals : list A) : list A :=
  match l with
  | [] => []
  | x :: l' =>
      if skip then x :: put_alternate false l' vals
      else match vals with
           | v :: vals' => v :: put_alternate true l' vals'
           | [] => x :: l'
           end
  end.

(** [l[start::2] = vals] *)
Fixpoint set_slice (start : nat) (l vals : list A) : list A :=
  match start, l with
  | O, _ => put_alternate false l vals
  | S n, x :: l' => x :: set_slice n l' vals
  | S _, [] => []
  end.
End Slices.

Section Preprocess.
(** The image batch and the elements of the target tensor belong to the
    framework, with its resampling and its multiplication by a Python
    float. *)
Context {image elt : Type}.
Variable interpolate : image → value → image.
Variable times : elt → spec_float → elt.

(** [targets[..., start::2] = targets[..., start::2] * scale], on the rows
    of the last axis. *)
Definition scale_slice (start : nat) (scale : value) (targets : list (list elt))
  : M (list (list elt)) :=
  call "Tensor.__getitem__";;
  c ← lift (py_float scale);
  call "Tensor.__mul__";;
  call "Tensor.__setitem__";;
  mret ((λ row, set_slice start row ((λ x, times x c) <$> get_slice start row))
          <$> targets).

Definition preprocess (inputs : image) (targets : list (list elt)) (tsize : value)
  : M (image * list (list elt)) :=
  t0 ← lift (py_index tsize 0);
  input_size ← getattr "input_size";
  i0 ← lift (py_index input_size 0);
  scale_y ← lift (py_truediv t0 i0);
  t1 ← lift (py_index tsize 1);
  input_size ← getattr "input_size";
  i1 ← lift (py_index input_size 1);
  scale_x ← lift (py_truediv t1 i1);
  if py_ne_1 scale_x || py_ne_1 scale_y then
    call "nn.functional.interpolate";;
    let inputs := interpolate inputs tsize in
    targets ← scale_slice 2 scale_x targets;
    targets ← scale_slice 3 scale_y targets;
    mret (inputs, targets)
  else mret (inputs, targets).
End Preprocess.

(** ** [Exp.get_optimizer] *)

(** [sub in s] *)
Fixpoint contains (sub s : string) : bool :=
  String.prefix sub s ||
  match s with
  | EmptyString => false
  | String _ s' => contains sub s'
  end.

Definition groups : Type := list held * list held * list held.

(** The body of the loop over [named_modules()], for the module [v] named
    [k]. *)
Definition group_module (pg : groups) (kv : string * nn_module) : outcome groups :=
  let '(pg0, pg1, pg2) := pg in
  let '(k, v) := kv in
  let pg2 := match bias v with
             | Some (Param b) => (pg2 ++ [Param b])%list
             | _ => pg2
             end in
  if is_BatchNorm2d v || contains "bn" k then
    match weight v with
    | Some w => Ok ((pg0 ++ [w])%list, pg1, pg2)
    | None => Raise (AttributeError "weight")
    end
  else
    match weight v with
    | Some (Param w) => Ok (pg0, (pg1 ++ [Param w])%list, pg2)
    | _ => Ok (pg0, pg1, pg2)
    end.

Fixpoint group_modules (pg : groups) (modules : list (string * nn_module))
  : outcome groups :=
  match modules with
  | [] => Ok pg
  | kv :: rest => obind (group_module pg kv) (λ pg', group_modules pg' rest)
  end.

(** [self.model.named_modules()] *)
Definition named_modules_of (model : value) : M (list (string * nn_module)) :=
  ro ← deref model;
  match ro.2 with
  | Model modules => call "Module.named_modules";; mret modules
  | _ => raise (AttributeError "named_modules")
  end.

(** [k in options], on the options of a group *)
Definition has_key (k : string) (options : list (string * value)) : bool :=
  existsb (λ kv, String.eqb k kv.1) options.

(** What the optimizer makes of the options of a group it is given: every
    default the group lacks is added to it,
    [param_group.setdefault(name, default)]. *)
Definition fill_defaults (defaults options : list (string * value))
  : list (string * value) :=
  (options ++ List.filter (λ kv, negb (has_key kv.1 options)) defaults)%list.

(** The defaults of [torch.optim.SGD(params, lr=lr, momentum=momentum,
    nesterov=True)]: the arguments of the call and, for [dampening] and
    [weight_decay], the zeros of the signature.  Later versions of the
    framework have further defaults, which no operation of the experiment
    names; they are left out. *)
Definition sgd_defaults (lr momentum : value) : list (string * value) :=
  [("lr", lr); ("momentum", momentum); ("dampening", VInt 0);
   ("weight_decay", VInt 0); ("nesterov", VBool true)].

(** [self.defaults] of an optimizer that was built from a plain list of
    parameters, as the one of the experiment is: its first group holds the
    defaults and nothing else. *)
Definition defaults_of (gs : list (list held * list (string * value)))
  : list (string * value) :=
  match gs with
  | (_, options) :: _ => options
  | [] => []
  end.

(** [optimizer.add_param_group(group)].  Whether the framework takes the
    parameters, here and in the constructor, is the outcome of the call,
    which the environment decides like every failure of the framework: it
    refuses an empty list of parameters for the first group, an entry that
    is no tensor, and a parameter that another group has. *)
Definition add_param_group (optimizer : value) (group : list held * list (string * value))
  : M unit :=
  ro ← deref optimizer;
  match ro.2 with
  | SGD gs =>
      call "Optimizer.add_param_group";;
      mutate ro.1
        (SGD (gs ++ [(group.1, fill_defaults (defaults_of gs) group.2)])%list)
  | _ => raise (AttributeError "add_param_group")
  end.

Definition get_optimizer (batch_size : Z) : M value :=
  cached ← hasattr "optimizer";
  (if negb cached then
     warmup_epochs ← getattr "warmup_epochs";
     warm ← lift (py_gt_0 warmup_epochs);
     lr ← (if warm : bool then getattr "warmup_lr"
           else basic_lr_per_img ← getattr "basic_lr_per_img";
                lift (py_mul basic_lr_per_img (VInt batch_size)));
     model ← getattr "model";
     modules ← named_modules_of model;
     pg ← lift (group_modules ([], [], []) modules);
     let '(pg0, pg1, pg2) := pg in
     momentum ← getattr "momentum";
     call "torch.optim.SGD";;
     optimizer ← alloc (SGD [(pg0, sgd_defaults lr momentum)]);
     weight_decay ← getattr "weight_decay";
     add_param_group optimizer (pg1, [("weight_decay", weight_decay)]);;
     add_param_group optimizer (pg2, []);;
     setattr "optimizer" optimizer
   else mret ());;
  getattr "optimizer".

(** ** [Exp.get_lr_scheduler] *)

Definition get_lr_scheduler (lr iters_per_epoch : value) : M value :=
  call "from yolox.utils import LRScheduler";;
  scheduler ← getattr "scheduler";
  max_epoch ← getattr "max_epoch";
  warmup_epochs ← getattr "warmup_epochs";
  warmup_lr ← getattr "warmup_lr";
  no_aug_epochs ← getattr "no_aug_epochs";
  min_lr_ratio ← getattr "min_lr_ratio";
  scheduler ← new "LRScheduler"
    [("name", scheduler); ("lr", lr); ("iters_per_epoch", iters_per_epoch);
     ("total_epochs", max_epoch); ("warmup_epochs", warmup_epochs);
     ("warmup_lr_start", warmup_lr); ("no_aug_epochs", no_aug_epochs);
     ("min_lr_ratio", min_lr_ratio)];
  mret scheduler.

(** ** [Exp.get_eval_loader] *)

Definition get_eval_loader (batch_size : Z) (is_distributed testdev legacy : bool)
  : M value :=
  call "from yolox.data import COCODataset, ValTransform";;
  data_dir ← getattr "data_dir";
  json_file ← (if negb testdev then getattr "val_ann"
               else mret (VStr "image_info_test-dev2017.json"));
  let name := VStr (if negb testdev then "val2017" else "test2017") in
  test_size ← getattr "test_size";
  preproc ← new "ValTransform" [("legacy", VBool legacy)];
  valdataset ← new "COCODataset"
    [("data_dir", data_dir); ("json_file", json_file); ("name", name);
     ("img_size", test_size); ("preproc", preproc); ("type", VStr "eval")];
  bs ← (if is_distributed then
          call "dist.get_world_size";;
          w ← ask world_size;
          batch_size ← lift (py_floordiv batch_size w);
          sampler ← new "DistributedSampler"
            [("dataset", valdataset); ("shuffle", VBool false)];
          mret (batch_size, sampler)
        else
          sampler ← new "SequentialSampler" [("data_source", valdataset)];
          mret (batch_size, sampler));
  let '(batch_size, sampler) := bs in
  data_num_workers ← getattr "data_num_workers";
  let dataloader_kwargs :=
    [("num_workers", data_num_workers); ("pin_memory", VBool true);
     ("sampler", sampler); ("batch_size", VInt batch_size)] in
  val_loader ← new "DataLoader" (("dataset", valdataset) :: dataloader_kwargs);
  mret val_loader.

(** ** [Exp.get_evaluator] and [Exp.eval] *)

Definition get_evaluator (batch_size : Z) (is_distributed testdev legacy : bool)
  : M value :=
  call "from yolox.evaluators import COCOEvaluator";;
  val_loader ← get_eval_loader batch_size is_distributed testdev legacy;
  test_size ← getattr "test_size";
  test_conf ← getattr "test_conf";
  nmsthre ← getattr "nmsthre";
  num_classes ← getattr "num_classes";
  num_colors ← getattr "num_colors";
  evaluator ← new "COCOEvaluator"
    [("dataloader", val_loader); ("img_size", test_size); ("confthre", test_conf);
     ("nmsthre", nmsthre); ("num_classes", num_classes); ("num_colors", num_colors);
     ("testdev", VBool testdev)];
  mret evaluator.

(** [evaluator.evaluate(model, is_distributed, half)]: the outcome of the
    evaluation is an object of the framework. *)
Definition eval (model evaluator : value) (is_distributed half : bool) : M value :=
  new "evaluate"
    [("self", evaluator); ("model", model); ("distributed", VBool is_distributed);
     ("half", VBool half)].

(** * What is claimed of the operations *)

Definition err {A} (r : outcome A) : option exn :=
  match r with
  | Ok _ => None
  | Raise e => Some e
  end.

(** [Q env s x s'] relates the store [s] before a computation to the store
    [s'] after it and to the exception [x] it ended with, if any; the
    computation [m] preserves [Q] when every run of it is so related. *)
Definition preserves (Q : Env → Store → option exn → Store → Prop) {A} (m : M A)
  : Prop :=
  ∀ env s, Q env s (err (m env s).1) (m env s).2.

(** A framework exception propagates: when the framework raised [e] at
    its [k]-th call, made during the operation, the operation ends with [e]
    itself, and that call was the last one it made. *)
Definition propagates {A} (m : M A) : Prop :=
  ∀ env s k e,
    (clock s ≤ k < clock (m env s).2)%nat → faults env k = Some e →
    (m env s).1 = Raise e ∧ clock (m env s).2 = S k.

Definition propagating : Env → Store → option exn → Store → Prop :=
  λ env s x s',
    (clock s ≤ clock s')%nat ∧
    ∀ k e, (clock s ≤ k < clock s')%nat → faults env k = Some e →
           x = Some e ∧ clock s' = S k.

(** Every attribute is as it was, but for those [W] lets change, which it
    decides from the name and the value before. *)
Definition changes_only (W : string → option value → Prop)
  : Env → Store → option exn → Store → Prop :=
  λ _ s _ s', ∀ k, attrs s' !! k = attrs s !! k ∨ W k (attrs s !! k).

(** The computation returns, with a value and a store that satisfy [Φ]. *)
Definition returns {A} (m : M A) (env : Env) (s : Store) (Φ : A → Store → Prop)
  : Prop :=
  ∃ a s', m env s = (Ok a, s') ∧ Φ a s'.

(** No framework call of the process fails. *)
Definition fault_free (env : Env) : Prop := ∀ k, faults env k = None.

(** The attributes [get_data_loader] and [get_eval_loader] read. *)
Definition data_loader_attrs : list string :=
  [ "data_dir"; "train_ann"; "input_size"; "flip_prob"; "hsv_prob";
    "gaussian_prob"; "degrees"; "translate"; "mosaic_scale"; "mixup_scale";
    "shear"; "perspective"; "enable_mixup"; "mosaic_prob"; "mixup_prob";
    "seed"; "data_num_workers" ].

Definition eval_loader_attrs : list string :=
  [ "data_dir"; "val_ann"; "test_size"; "data_num_workers" ].

(** The three cached handles of the experiment. *)
Definition handles : list string := ["model"; "optimizer"; "dataset"].

(** The keyword argument [k] of a constructor call. *)
Fixpoint kwarg (k : string) (args : list (string * value)) : option value :=
  match args with
  | [] => None
  | (k', v) :: rest => if String.eqb k k' then Some v else kwarg k rest
  end.

Definition instance_args (h : list obj) (v : value) : option (list (string * value)) :=
  match v with
  | VRef r =>
      match h !! r with
      | Some (Instance _ args) => Some args
      | _ => None
      end
  | _ => None
  end.

(** The batch size a loader works with: its own [batch_size], or that of
    the [batch_sampler] it was given. *)
Definition loader_batch_size (h : list obj) (loader : value) : option value :=
  args ← instance_args h loader;
  match kwarg "batch_size" args with
  | Some b => Some b
  | None =>
      sampler ← kwarg "batch_sampler" args;
      args' ← instance_args h sampler;
      kwarg "batch_size" args'
  end.

(** ** The sizes of [random_resize] *)

(** Line 184, on the value of [input_size]. *)
Definition size_factor_of (input_size : value) : outcome value :=
  obind (py_index input_size 1) (λ w,
  obind (py_mul w (VFloat PyFloat.one)) (λ w,
  obind (py_index input_size 0) (λ h,
  py_truediv w h))).


(** Lines 186 to 188, on the values of [input_size] and [multiscale_range]. *)
Definition default_range (input_size multiscale_range : value) : outcome value :=
  obind (py_index input_size 0) (λ h,
  obind (obind (py_truediv h (VInt 32)) py_int) (λ q,
  obind (py_sub (VInt q) multiscale_range) (λ min_size,
  obind (py_add (VInt q) multiscale_range) (λ max_size,
  Ok (VTuple [min_size; max_size]))))).

(** The pair of integers a range is made of. *)
Definition is_range (bounds : value) (lo hi : Z) : Prop :=
  bounds = VTuple [VInt lo; VInt hi] ∨ bounds = VList [VInt lo; VInt hi].

(** [t] is the size rank 0 picks in the store [s], leaving [s']: thirty-two
    times a number [size] of the range kept in [random_size], which is the
    default range where the attribute was absent, and thirty-two times the
    integer part of [size * size_factor]. *)
Definition picked (env : Env) (s s' : Store) (t : Z * Z) : Prop :=
  ∃ input_size size_factor bounds lo hi size k,
    attrs s !! "input_size" = Some input_size ∧
    size_factor_of input_size = Ok size_factor ∧
    (attrs s !! "random_size" = Some bounds ∨
     (attrs s !! "random_size" = None ∧
      ∃ multiscale_range,
        attrs s !! "multiscale_range" = Some multiscale_range ∧
        default_range input_size multiscale_range = Ok bounds)) ∧
    attrs s' !! "random_size" = Some bounds ∧
    is_range bounds lo hi ∧ lo ≤ size ≤ hi ∧
    size = lo + entropy env (draws s) `mod` (hi - lo + 1) ∧
    obind (py_mul (VInt size) size_factor) py_int = Ok k ∧
    t = (32 * size, 32 * k).

(** ** The workers of a distributed job *)

(** The workers are listed by rank. *)
Definition ranked (procs : list (Env * Store)) : Prop :=
  ∀ i env s, procs !! i = Some (env, s) → dist_rank env = Z.of_nat i.

(** One round of [random_resize] on all workers, each passing its rank, as
    the trainer does, with [is_distributed] set: what rank 0 broadcasts
    during its call is delivered to every other worker. *)
Definition cluster_random_resize (data_loader : value) (epoch : Z)
    (procs : list (Env * Store)) : list (outcome value * Store) :=
  match procs with
  | [] => []
  | (env0, s0) :: others =>
      let r0 := random_resize data_loader epoch 0 true env0 s0 in
      let delivered := drop (length (outbox s0)) (outbox r0.2) in
      r0 :: imap (λ i es, random_resize data_loader epoch (Z.of_nat (S i)) true
                            es.1 (set_inbox delivered es.2)) others
  end.

(** ** The targets after [preprocess] *)

(** A size one can divide by: a nonzero integer or a finite nonzero float. *)
Definition divisor (v : value) : Prop :=
  match v with
  | VInt z => z ≠ 0
  | VBool b => b = true
  | VFloat (S754_finite _ _ _) => True
  | _ => False
  end.

(** The coordinate at index [i] of a row after the scaling: the indices 2,
    4, 6, ... are multiplied by [scale_x], the indices 3, 5, 7, ... by
    [scale_y], the indices 0 and 1 are kept. *)
Definition scaled_coordinate {elt} (times : elt → spec_float → elt)
    (scale_x scale_y : spec_float) (i : nat) (x : elt) : elt :=
  if (i <? 2)%nat then x
  else if Nat.even i then times x scale_x else times x scale_y.

Definition scaled_targets {elt} (times : elt → spec_float → elt)
    (scale_x scale_y : spec_float) (targets : list (list elt)) : list (list elt) :=
  imap (scaled_coordinate times scale_x scale_y) <$> targets.

(** ** The parameters of a model and of an optimizer *)

Definition param_of (h : option held) : list nat :=
  match h with
  | Some (Param p) => [p]
  | _ => []
  end.

(** The parameters of the modules, one entry for each attribute that holds
    one; [model.parameters()] lists each of them once. *)
Definition parameters (modules : list (string * nn_module)) : list nat :=
  flat_map (λ kv, param_of (weight kv.2) ++ param_of (bias kv.2) ++
                  extra_parameters kv.2)%list modules.

(** The parameters among the entries of a group. *)
Definition params_in (pg : list held) : list nat :=
  flat_map (λ h, param_of (Some h)) pg.

(** How often the parameter [p] occurs in a group. *)
Definition occurrences (p : nat) (pg : list held) : nat :=
  count_occ Nat.eq_dec (params_in pg) p.

(** The test of line 224. *)
Definition bn_like (kv : string * nn_module) : bool :=
  is_BatchNorm2d kv.2 || contains "bn" kv.1.

Definition no_decay_weights (modules : list (string * nn_module)) : list held :=
  flat_map (λ kv, if bn_like kv then option_list (weight kv.2) else []) modules.

Definition decay_weights (modules : list (string * nn_module)) : list held :=
  flat_map (λ kv, if bn_like kv then []
                  else Param <$> param_of (weight kv.2)) modules.

Definition biases (modules : list (string * nn_module)) : list held :=
  flat_map (λ kv, Param <$> param_of (bias kv.2)) modules.

(** The [params] of the groups of an optimizer, in order. *)
Definition optimizer_groups (h : list obj) (o : value) : option (list (list held)) :=
  match o with
  | VRef r =>
      match h !! r with
      | Some (SGD gs) => Some (gs.*1)
      | _ => None
      end
  | _ => None
  end.

(** ** A sample process

    One worker of a job of eight, on which no framework call fails, with a
    model of three modules. *)
Module Sample.

Definition layer (bn : bool) (w b : option held) : nn_module :=
  {| is_BatchNorm2d := bn; weight := w; bias := b; extra_parameters := [];
     eps := VFloat (PyFloat.decimal 1 (-5));
     momentum := VFloat (PyFloat.decimal 1 (-1)) |}.

Definition modules : list (string * nn_module) :=
  [ ("", layer false None None);
    ("backbone.stem.conv", layer false (Some (Param 0)) None);
    ("backbone.stem.bn", layer true (Some (Param 1)) (Some (Param 2)));
    ("head.cls_preds.0", layer false (Some (Param 3)) (Some (Param 4))) ].

Definition worker (rank : Z) : Env :=
  {| faults := λ _, None;
     dist_rank := rank;
     world_size := 8;
     local_rank := rank;
     entropy := λ n, 7 + Z.of_nat n;
     uninitialised := (1234 + rank, 5678);
     yolox_modules := modules;
     dataset_len := 1000 |}.

Definition quiet : Env := worker 0.

(** The same worker with a model of a convolution, a batch normalisation
    and a module that registers a parameter under a name other than
    [weight] and [bias]. *)
Definition modules_with_scale : list (string * nn_module) :=
  [ ("backbone.stem.conv", layer false (Some (Param 0)) None);
    ("backbone.stem.bn", layer true (Some (Param 1)) (Some (Param 2)));
    ("head.scale",
     {| is_BatchNorm2d := false; weight := None; bias := None;
        extra_parameters := [3%nat]; eps := VNone; momentum := VNone |}) ].

Definition with_scale : Env :=
  {| faults := λ _, None; dist_rank := 0; world_size := 8; local_rank := 0;
     entropy := λ n, 7 + Z.of_nat n; uninitialised := (1234, 5678);
     yolox_modules := modules_with_scale; dataset_len := 1000 |}.

(** What [BaseExp.__init__] sets. *)
Definition base : gmap string value :=
  {[ "seed" := VNone; "output_dir" := VStr "./YOLOX_outputs";
     "print_interval" := VInt 100; "eval_interval" := VInt 10 ]}.

Definition start : Store := fresh base.


(** Three workers of one job, listed by rank, each with its own garbage in
    fresh tensor memory. *)
Definition cluster : list (Env * Store) :=
  [(worker 0, start); (worker 1, start); (worker 2, start)].

End Sample.

(** * Further notions for the operations *)

(** The computation ends with the exception [e], in a store that satisfies
    [Φ]. *)
Definition raises {A} (m : M A) (env : Env) (s : Store) (e : exn)
    (Φ : Store → Prop) : Prop :=
  ∃ s', m env s = (Raise e, s') ∧ Φ s'.

(** The entry of a group is a [Parameter]. *)
Definition is_param (h : held) : Prop := ∃ p, h = Param p.

(** The options of the groups of an optimizer, in order. *)
Definition optimizer_options (h : list obj) (o : value)
  : option (list (list (string * value))) :=
  match o with
  | VRef r =>
      match h !! r with
      | Some (SGD gs) => Some (gs.*2)
      | _ => None
      end
  | _ => None
  end.

(** The names [__init__] assigns. *)
Definition init_names : list string := init_attrs.*1.

(** The class of the framework object a value refers to. *)
Definition class_of (h : list obj) (v : value) : option string :=
  match v with
  | VRef r =>
      match h !! r with
      | Some (Instance cls _) => Some cls
      | _ => None
      end
  | _ => None
  end.

(** The keyword argument [k] the object at [v] was constructed with. *)
Definition field (h : list obj) (v : value) (k : string) : option value :=
  args ← instance_args h v; kwarg k args.

(** * Properties *)

(** ** Python arithmetic on the sizes of the source *)

Example truediv_640_512 :
  py_truediv (VInt 640) (VInt 512) = Ok (VFloat (PyFloat.decimal 125 (-2))).
Proof. vm_compute. reflexivity. Qed.

Example int_of_quotient_512_32 :
  obind (py_truediv (VInt 512) (VInt 32)) py_int = Ok 16.
Proof. vm_compute. reflexivity. Qed.

Example int_of_quotient_500_32 :
  obind (py_truediv (VInt 500) (VInt 32)) py_int = Ok 15.
Proof. vm_compute. reflexivity. Qed.

(** ** Running a computation *)

Lemma bind_run {A B} (m : M A) (f : A → M B) env s :
  (m ≫= f) env s =
  match m env s with
  | (Ok a, s') => f a env s'
  | (Raise e, s') => (Raise e, s')
  end.
Proof. reflexivity. Qed.

Lemma bind_Ok {A B} (m : M A) (f : A → M B) env s b s2 :
  (m ≫= f) env s = (Ok b, s2) →
  ∃ a s1, m env s = (Ok a, s1) ∧ f a env s1 = (Ok b, s2).
Proof.
  rewrite bind_run. destruct (m env s) as [[a|e] s1]; [eauto | discriminate].
Qed.

Lemma bind_Ok_intro {A B} (m : M A) (f : A → M B) env s a s1 :
  m env s = (Ok a, s1) → (m ≫= f) env s = f a env s1.
Proof. intros H. rewrite bind_run, H. reflexivity. Qed.

(** The default range is stored only where the attribute is absent, and
    nothing else of the store changes. *)
Lemma default_random_size_run env s r s' :
  default_random_size env s = (r, s') →
  s' = s ∨
  (attrs s !! "random_size" = None ∧ r = Ok () ∧
   ∃ v, s' = set_attrs (insert "random_size" v) s).
Proof.
  unfold default_random_size. intros H.
  rewrite bind_run in H. unfold hasattr at 1 in H. cbv beta in H.
  destruct (bool_decide _) eqn:E; simpl in H.
  { left. by inversion H. }
  apply bool_decide_eq_false in E. rewrite <- eq_None_not_Some in E.
  repeat (rewrite bind_run in H;
          match type of H with
          | context [getattr ?k env s] =>
              unfold getattr at 1 in H; cbv beta in H;
              destruct (attrs s !! k); [ | left; by inversion H ]
          | context [lift ?o env s] =>
              unfold lift at 1 in H; cbv beta in H;
              destruct o; [ | left; by inversion H ]
          end).
  right. inversion H. eauto.
Qed.

(** ** Properties every step of an operation preserves

    [Q env s x s'] relates the store [s] before a computation to the store
    [s'] after it and to the exception [x] it ended with, if any.  A
    property that holds when nothing happens, composes along a normal
    return, and holds of the elementary changes of the store, holds of every
    operation. *)

Section Closure.
Variable Q : Env → Store → option exn → Store → Prop.
Variable writable : Store → string → Prop.

Hypothesis Q_stay : ∀ env s x, Q env s x s.
Hypothesis Q_trans : ∀ env s s1 s2 x,
  Q env s None s1 → Q env s1 x s2 → Q env s x s2.
Hypothesis Q_call : ∀ env s, Q env s (faults env (clock s)) (tick s).
Hypothesis Q_heap : ∀ env s f, Q env s None (set_heap f s).
Hypothesis Q_drawn : ∀ env s, Q env s None (drawn s).
Hypothesis Q_inbox : ∀ env s l, Q env s None (set_inbox l s).
Hypothesis Q_sent : ∀ env s t, Q env s None (sent t s).
Hypothesis Q_setattr : ∀ env s k v,
  writable s k → Q env s None (set_attrs (insert k v) s).

Local Abbreviation holds := (preserves Q).

Lemma holds_ret {A} (a : A) : holds (mret a).
Proof. intros env s. apply Q_stay. Qed.

Lemma holds_bind {A B} (m : M A) (f : A → M B) :
  holds m → (∀ a, holds (f a)) → holds (m ≫= f).
Proof.
  intros Hm Hf env s. rewrite bind_run.
  specialize (Hm env s). destruct (m env s) as [[a|e] s1]; simpl in *.
  - eapply Q_trans; [exact Hm | apply Hf].
  - exact Hm.
Qed.

Lemma holds_raise {A} e : holds (raise (A:=A) e).
Proof. intros env s. apply Q_stay. Qed.

Lemma holds_lift {A} (o : outcome A) : holds (lift o).
Proof. intros env s. apply Q_stay. Qed.

Lemma holds_ask {A} (f : Env → A) : holds (ask f).
Proof. intros env s. apply Q_stay. Qed.

Lemma holds_getattr k : holds (getattr k).
Proof. intros env s. unfold getattr. destruct (attrs s !! k); apply Q_stay. Qed.

Lemma holds_getattr_default k d : holds (getattr_default k d).
Proof. intros env s. apply Q_stay. Qed.

Lemma holds_hasattr k : holds (hasattr k).
Proof. intros env s. apply Q_stay. Qed.

Lemma holds_setattr k v : (∀ s, writable s k) → holds (setattr k v).
Proof. intros W env s. apply Q_setattr, W. Qed.

Lemma holds_call name : holds (call name).
Proof.
  intros env s. unfold call. generalize (Q_call env s).
  destruct (faults env (clock s)); auto.
Qed.

Lemma holds_alloc o : holds (alloc o).
Proof. intros env s. apply Q_heap. Qed.

Lemma holds_mutate r o : holds (mutate r o).
Proof. intros env s. apply Q_heap. Qed.

Lemma holds_deref v : holds (deref v).
Proof.
  intros env s. unfold deref.
  destruct v; try apply Q_stay. destruct (heap s !! r); apply Q_stay.
Qed.

Lemma holds_randint bounds : holds (randint bounds).
Proof.
  intros env s. unfold randint.
  repeat case_match; first [apply Q_stay | apply Q_drawn].
Qed.

Lemma holds_exchange t src : holds (exchange t src).
Proof.
  intros env s. unfold exchange.
  repeat case_match; first [apply Q_stay | apply Q_sent | apply Q_inbox].
Qed.

(** One step of the proof that an operation [holds]: the elementary
    computations by their lemmas, a sequence by [holds_bind], a branch by
    cases. *)
Ltac hstep :=
  first
    [ apply holds_ret | apply holds_raise | apply holds_lift | apply holds_ask
    | apply holds_getattr | apply holds_getattr_default | apply holds_hasattr
    | apply holds_call | apply holds_alloc | apply holds_mutate
    | apply holds_deref | apply holds_randint | apply holds_exchange
    | apply holds_setattr; solve [auto]
    | assumption
    | apply holds_bind; [ | intros ? ]
    | match goal with
      | |- holds (if ?b then _ else _) => destruct b
      | |- holds (match ?x with _ => _ end) => destruct x
      | |- holds (let '(_, _) := ?x in _) => destruct x
      end ].

Lemma holds_new cls args : holds (new cls args).
Proof. unfold new. repeat hstep. Qed.

Lemma holds_with_ {A} cm (body : M A) : holds body → holds (with_ cm body).
Proof. intros H. unfold with_. repeat hstep. Qed.

Lemma holds_apply_init_yolo model : holds (apply_init_yolo model).
Proof. unfold apply_init_yolo. repeat hstep. Qed.

Lemma holds_TrainTransform n : holds (TrainTransform n).
Proof. unfold TrainTransform. repeat hstep. Qed.

Lemma holds_tensor_set z : holds (tensor_set z).
Proof. unfold tensor_set. repeat hstep. Qed.

Lemma holds_tensor_item z : holds (tensor_item z).
Proof. unfold tensor_item. repeat hstep. Qed.

Lemma holds_dist_broadcast t src : holds (dist_broadcast t src).
Proof. unfold dist_broadcast. repeat hstep. Qed.

Lemma holds_get_size_factor : holds get_size_factor.
Proof. unfold get_size_factor. repeat hstep. Qed.

Lemma holds_named_modules_of model : holds (named_modules_of model).
Proof. unfold named_modules_of. repeat hstep. Qed.

Lemma holds_add_param_group optimizer group :
  holds (add_param_group optimizer group).
Proof. unfold add_param_group. repeat hstep. Qed.

Lemma holds_scale_slice {elt} (times : elt → spec_float → elt) start scale targets :
  holds (scale_slice times start scale targets).
Proof. unfold scale_slice. repeat hstep. Qed.

Ltac hsteps :=
  repeat first
    [ apply holds_new | apply holds_with_ | apply holds_apply_init_yolo
    | apply holds_TrainTransform | apply holds_tensor_set
    | apply holds_tensor_item | apply holds_dist_broadcast
    | apply holds_get_size_factor | apply holds_named_modules_of
    | apply holds_add_param_group | apply holds_scale_slice
    | hstep ].

Lemma holds_random_resize_other dl epoch rank d :
  rank ≠ 0 → holds (random_resize dl epoch rank d).
Proof.
  intros Hr. unfold random_resize.
  rewrite (proj2 (Z.eqb_neq rank 0) Hr). hsteps.
Qed.

(** The default range is written only where the attribute is absent. *)
Hypothesis W_random_size : ∀ s,
  attrs s !! "random_size" = None → writable s "random_size".

Lemma holds_default_random_size : holds default_random_size.
Proof.
  intros env s.
  destruct (default_random_size env s) as [r s'] eqn:H.
  apply default_random_size_run in H as [-> | (E & -> & v & ->)]; simpl.
  - apply Q_stay.
  - apply Q_setattr, W_random_size, E.
Qed.

Hypothesis W_model : ∀ s, writable s "model".
Hypothesis W_optimizer : ∀ s, writable s "optimizer".
Hypothesis W_dataset : ∀ s, writable s "dataset".

Lemma holds_get_model : holds get_model.
Proof. unfold get_model. hsteps. Qed.

Lemma holds_get_data_loader bs d n c : holds (get_data_loader bs d n c).
Proof. unfold get_data_loader. hsteps. Qed.

Lemma holds_random_resize dl epoch rank d : holds (random_resize dl epoch rank d).
Proof.
  unfold random_resize.
  repeat first
    [ apply holds_default_random_size | apply holds_get_size_factor
    | apply holds_tensor_set | apply holds_tensor_item
    | apply holds_dist_broadcast | hstep ].
Qed.

Lemma holds_preprocess {image elt} (interpolate : image → value → image)
    (times : elt → spec_float → elt) inputs targets tsize :
  holds (preprocess interpolate times inputs targets tsize).
Proof. unfold preprocess. hsteps. Qed.

Lemma holds_get_optimizer bs : holds (get_optimizer bs).
Proof. unfold get_optimizer. hsteps. Qed.

Lemma holds_get_lr_scheduler lr n : holds (get_lr_scheduler lr n).
Proof. unfold get_lr_scheduler. hsteps. Qed.

Lemma holds_get_eval_loader bs d t l : holds (get_eval_loader bs d t l).
Proof. unfold get_eval_loader. hsteps. Qed.

Lemma holds_get_evaluator bs d t l : holds (get_evaluator bs d t l).
Proof.
  unfold get_evaluator.
  repeat first [ apply holds_get_eval_loader | apply holds_new | hstep ].
Qed.

Lemma holds_eval model evaluator d h : holds (eval model evaluator d h).
Proof. unfold eval. hsteps. Qed.
End Closure.

(** ** What a normal return tells *)

Lemma ret_Ok {A} (a b : A) env s s' :
  mret (M:=M) a env s = (Ok b, s') → b = a ∧ s' = s.
Proof. intros H. inversion H; subst; auto. Qed.

Lemma raise_Ok {A} e (b : A) env s s' : raise e env s = (Ok b, s') → False.
Proof. discriminate. Qed.

Lemma lift_Ok {A} (o : outcome A) b env s s' :
  lift o env s = (Ok b, s') → o = Ok b ∧ s' = s.
Proof. intros H. inversion H; subst; auto. Qed.

Lemma ask_Ok {A} (f : Env → A) b env s s' :
  ask f env s = (Ok b, s') → b = f env ∧ s' = s.
Proof. intros H. inversion H; subst; auto. Qed.

Lemma getattr_Ok k v env s s' :
  getattr k env s = (Ok v, s') → attrs s !! k = Some v ∧ s' = s.
Proof.
  unfold getattr. destruct (attrs s !! k); intros H; by inversion H.
Qed.

Lemma getattr_default_Ok k d v env s s' :
  getattr_default k d env s = (Ok v, s') → v = default d (attrs s !! k) ∧ s' = s.
Proof. intros H. inversion H; subst; auto. Qed.

Lemma hasattr_Ok k b env s s' :
  hasattr k env s = (Ok b, s') → b = bool_decide (is_Some (attrs s !! k)) ∧ s' = s.
Proof. intros H. inversion H; subst; auto. Qed.

Lemma setattr_Ok k v u env s s' :
  setattr k v env s = (Ok u, s') → s' = set_attrs (insert k v) s.
Proof. intros H. inversion H; subst; auto. Qed.

Lemma call_Ok name u env s s' :
  call name env s = (Ok u, s') → faults env (clock s) = None ∧ s' = tick s.
Proof.
  unfold call. destruct (faults env (clock s)); intros H; by inversion H.
Qed.

Lemma alloc_Ok o v env s s' :
  alloc o env s = (Ok v, s') →
  v = VRef (length (heap s)) ∧ s' = set_heap (λ h, (h ++ [o])%list) s.
Proof. intros H. inversion H; subst; auto. Qed.

Lemma mutate_Ok r o u env s s' :
  mutate r o env s = (Ok u, s') → s' = set_heap (λ h, <[r := o]> h) s.
Proof. intros H. inversion H; subst; auto. Qed.

Lemma deref_Ok v ro env s s' :
  deref v env s = (Ok ro, s') → v = VRef ro.1 ∧ heap s !! ro.1 = Some ro.2 ∧ s' = s.
Proof.
  unfold deref. destruct v; try discriminate.
  destruct (heap s !! r) eqn:E; intros H; inversion H; subst; auto.
Qed.

Lemma new_Ok cls args v env s s' :
  new cls args env s = (Ok v, s') →
  faults env (clock s) = None ∧ v = VRef (length (heap s)) ∧
  s' = set_heap (λ h, (h ++ [Instance cls args])%list) (tick s).
Proof.
  unfold new. intros H.
  apply bind_Ok in H as (u & s1 & H1 & H2).
  apply call_Ok in H1 as [Hf ->]. apply alloc_Ok in H2 as [-> ->]. done.
Qed.

Lemma lookup_last {A} (l : list A) x : (l ++ [x])%list !! length l = Some x.
Proof. by apply list_lookup_middle. Qed.

Lemma insert_last {A} (l : list A) x y :
  <[length l := y]> (l ++ [x])%list = (l ++ [y])%list.
Proof.
  rewrite <- (Nat.add_0_r (length l)). by rewrite insert_app_r.
Qed.

Lemma apply_init_yolo_Ok model u env s s' :
  apply_init_yolo model env s = (Ok u, s') →
  ∃ r modules,
    model = VRef r ∧ heap s !! r = Some (Model modules) ∧
    faults env (clock s) = None ∧
    s' = set_heap (λ h, <[r := Model (init_yolo modules)]> h) (tick s).
Proof.
  unfold apply_init_yolo. intros H.
  apply bind_Ok in H as ([r o] & s1 & H1 & H).
  apply deref_Ok in H1 as (-> & Hr & ->). simpl in *.
  destruct o; try discriminate.
  apply bind_Ok in H as (? & s2 & H1 & H).
  apply call_Ok in H1 as [Hf ->]. apply mutate_Ok in H as ->. eauto 10.
Qed.

Lemma named_modules_of_Ok model modules env s s' :
  named_modules_of model env s = (Ok modules, s') →
  ∃ r,
    model = VRef r ∧ heap s !! r = Some (Model modules) ∧
    faults env (clock s) = None ∧ s' = tick s.
Proof.
  unfold named_modules_of. intros H.
  apply bind_Ok in H as ([r o] & s1 & H1 & H).
  apply deref_Ok in H1 as (-> & Hr & ->). simpl in *.
  destruct o; try discriminate.
  apply bind_Ok in H as (? & s2 & H1 & H).
  apply call_Ok in H1 as [Hf ->]. apply ret_Ok in H as [-> ->]. eauto 10.
Qed.

Lemma add_param_group_Ok optimizer group u env s s' :
  add_param_group optimizer group env s = (Ok u, s') →
  ∃ r gs,
    optimizer = VRef r ∧ heap s !! r = Some (SGD gs) ∧
    faults env (clock s) = None ∧
    s' = set_heap
           (λ h, <[r := SGD (gs ++ [(group.1,
                                     fill_defaults (defaults_of gs) group.2)])]> h)
           (tick s).
Proof.
  unfold add_param_group. intros H.
  apply bind_Ok in H as ([r o] & s1 & H1 & H).
  apply deref_Ok in H1 as (-> & Hr & ->). simpl in *.
  destruct o; try discriminate.
  apply bind_Ok in H as (? & s2 & H1 & H).
  apply call_Ok in H1 as [Hf ->]. apply mutate_Ok in H as ->. eauto 10.
Qed.

Lemma randint_Ok bounds x env s s' :
  randint bounds env s = (Ok x, s') →
  ∃ lo hi,
    is_range bounds lo hi ∧ lo ≤ hi ∧
    x = lo + entropy env (draws s) `mod` (hi - lo + 1) ∧ s' = drawn s.
Proof.
  unfold randint, is_range. intros H.
  repeat case_match; try discriminate; subst;
    injection H as <- <-; eexists _, _; (split; [eauto | ]); split; auto; lia.
Qed.

Lemma exchange_Ok t src t' env s s' :
  exchange t src env s = (Ok t', s') →
  (dist_rank env = src ∧ t' = t ∧ s' = sent t s) ∨
  (dist_rank env ≠ src ∧ ∃ rest, inbox s = t' :: rest ∧ s' = set_inbox rest s).
Proof.
  unfold exchange. intros H.
  destruct (dist_rank env =? src) eqn:E.
  - injection H as <- <-. left. split; [lia | done].
  - destruct (inbox s) as [ | t0 rest]; [discriminate | ].
    injection H as <- <-. right. split; [lia | eauto].
Qed.

(** Reading a normal return of a sequence, step by step.  [inv_run H] splits the
    hypothesis [H], that a computation returned, into what each of its
    steps says. *)
(** Reads the fields of a store that is given by its changes. *)
Ltac store_simpl :=
  cbn [attrs heap clock draws inbox outbox set_attrs set_heap tick drawn
       set_inbox sent fst snd] in *.

Ltac inv_prim H :=
  lazymatch type of H with
  | mret _ _ _ = _ => apply ret_Ok in H as [? ?]
  | raise _ _ _ = _ => apply raise_Ok in H; contradiction
  | lift _ _ _ = _ => apply lift_Ok in H as [? ?]
  | ask _ _ _ = _ => apply ask_Ok in H as [? ?]
  | getattr _ _ _ = _ => apply getattr_Ok in H as [? ?]
  | getattr_default _ _ _ _ = _ => apply getattr_default_Ok in H as [? ?]
  | hasattr _ _ _ = _ => apply hasattr_Ok in H as [? ?]
  | setattr _ _ _ _ = _ => apply setattr_Ok in H
  | new _ _ _ _ = _ => apply new_Ok in H as (? & ? & ?)
  | call _ _ _ = _ => apply call_Ok in H as [? ?]
  | alloc _ _ _ = _ => apply alloc_Ok in H as [? ?]
  | mutate _ _ _ _ = _ => apply mutate_Ok in H
  | deref _ _ _ = _ => apply deref_Ok in H as (? & ? & ?)
  | apply_init_yolo _ _ _ = _ => apply apply_init_yolo_Ok in H as (? & ? & ? & ? & ? & ?)
  | named_modules_of _ _ _ = _ => apply named_modules_of_Ok in H as (? & ? & ? & ? & ?)
  | add_param_group _ _ _ _ = _ => apply add_param_group_Ok in H as (? & ? & ? & ? & ? & ?)
  | randint _ _ _ = _ => apply randint_Ok in H as (? & ? & ? & ? & ? & ?)
  end.

Ltac inv_run H :=
  cbv beta in H;
  lazymatch type of H with
  | (_ ≫= _) _ _ = (Ok _, _) =>
      let H1 := fresh "H" in
      apply bind_Ok in H as (? & ? & H1 & H);
      inv_run H1; inv_run H
  | (if ?b then _ else _) _ _ = (Ok _, _) =>
      let E := fresh "E" in destruct b eqn:E; inv_run H
  | (match ?x with _ => _ end) _ _ = (Ok _, _) =>
      let E := fresh "E" in destruct x eqn:E; inv_run H
  | _ => first [ inv_prim H; simplify_eq; store_simpl | idtac ]
  end.

(** ** The cached handles *)

Lemma get_model_returns env s m s1 :
  get_model env s = (Ok m, s1) →
  attrs s1 !! "model" = Some m ∧
  ∃ r modules, m = VRef r ∧ heap s1 !! r = Some (Model modules).
Proof.
  unfold get_model. intros H. inv_run H.
  all: split; [done | ].
  all: match goal with
       | H1 : ?l = Some (VRef ?r), H : ?l = Some ?v |- ∃ _ _, ?v = _ ∧ _ =>
           rewrite H in H1; injection H1 as ->; exists r
       end.
  all: eexists; split; [done | ].
  all: apply list_lookup_insert_eq; eapply lookup_lt_Some; eassumption.
Qed.

Lemma get_model_cached env s m m' s' :
  attrs s !! "model" = Some m → is_None m = false →
  get_model env s = (Ok m', s') → m' = m.
Proof.
  unfold get_model. intros Hm Hn H. inv_run H.
  - rewrite Hm in E. simpl in E. congruence.
  - congruence.
Qed.

Lemma get_optimizer_builds env s bs o s1 :
  attrs s !! "optimizer" = None →
  get_optimizer bs env s = (Ok o, s1) →
  ∃ r modules pg0 pg1 pg2 opts0 opts1 opts2,
    attrs s !! "model" = Some (VRef r) ∧
    heap s !! r = Some (Model modules) ∧
    group_modules ([], [], []) modules = Ok (pg0, pg1, pg2) ∧
    o = VRef (length (heap s)) ∧
    heap s1 = (heap s ++ [SGD [(pg0, opts0); (pg1, opts1); (pg2, opts2)]])%list ∧
    attrs s1 = <["optimizer" := o]> (attrs s).
Proof.
  unfold get_optimizer. intros Hno H.
  apply bind_Ok in H as (cached & s0 & H0 & H).
  apply hasattr_Ok in H0 as [-> ->]. rewrite Hno in H.
  rewrite bool_decide_eq_false_2 in H by (by intros [? ?]). simpl negb in H.
  inv_run H.
  all: repeat match goal with
         | H : (_ ++ [_])%list !! length _ = Some _ |- _ =>
             rewrite lookup_last in H; simplify_eq
         | H : <[_:=_]> (_ ++ [_])%list !! _ = _ |- _ =>
             rewrite insert_last in H
         | H : <[_:=_]> _ !! _ = Some _ |- _ =>
             rewrite lookup_insert_eq in H; simplify_eq
         end.
  all: rewrite !insert_last; simpl; eauto 20.
Qed.

Lemma get_optimizer_returns env s bs o s1 :
  get_optimizer bs env s = (Ok o, s1) → attrs s1 !! "optimizer" = Some o.
Proof.
  unfold get_optimizer. intros H.
  apply bind_Ok in H as (cached & s0 & H0 & H).
  apply bind_Ok in H as (u & s2 & H1 & H).
  by apply getattr_Ok in H as [H ->].
Qed.

Lemma get_optimizer_cached env s bs o :
  attrs s !! "optimizer" = Some o → get_optimizer bs env s = (Ok o, s).
Proof.
  intros Ho. unfold get_optimizer.
  rewrite bind_run. unfold hasattr at 1. cbv beta. rewrite Ho.
  rewrite bool_decide_eq_true_2 by eauto. simpl negb. cbv iota.
  rewrite bind_run. unfold mret at 1, M_ret at 1. cbv beta iota.
  unfold getattr. by rewrite Ho.
Qed.

(** ** The loaders *)

Lemma lookup_app_plus {A} (l1 l2 : list A) i :
  (l1 ++ l2)%list !! (length l1 + i)%nat = l2 !! i.
Proof.
  rewrite lookup_app_r by lia. f_equal. lia.
Qed.

Lemma py_floordiv_Ok a b q : py_floordiv a b = Ok q → q = a `div` b.
Proof. unfold py_floordiv. destruct (b =? 0); congruence. Qed.

(** The heap after a run of constructor calls, as the old heap followed by
    the new objects, and the identities as offsets from its old length. *)
Ltac heap_norm :=
  repeat rewrite <- app_assoc; simpl app;
  repeat rewrite length_app; simpl length;
  repeat rewrite <- Nat.add_assoc; simpl Nat.add.

Lemma get_data_loader_Ok bs d n c env s l s' :
  get_data_loader bs d n c env s = (Ok l, s') →
  l = VRef (length (heap s) + 6) ∧
  attrs s' = <["dataset" := VRef (length (heap s) + 3)]> (attrs s) ∧
  (∃ new, heap s' = (heap s ++ new)%list ∧ length new = 7%nat) ∧
  loader_batch_size (heap s') l =
    Some (VInt (if d then bs `div` world_size env else bs)).
Proof.
  unfold get_data_loader, with_, TrainTransform. intros H. inv_run H.
  all: try match goal with
         | H : py_floordiv _ _ = Ok _ |- _ => apply py_floordiv_Ok in H as ->
         end.
  all: heap_norm.
  all: split; [done | ]; split; [done | ]; split; [eauto | ].
  all: unfold loader_batch_size, instance_args.
  all: rewrite lookup_app_plus; simpl.
  all: rewrite lookup_app_plus; reflexivity.
Qed.

Lemma get_eval_loader_Ok bs d t lg env s l s' :
  get_eval_loader bs d t lg env s = (Ok l, s') →
  loader_batch_size (heap s') l =
    Some (VInt (if d then bs `div` world_size env else bs)).
Proof.
  unfold get_eval_loader. intros H. inv_run H.
  all: try match goal with
         | H : py_floordiv _ _ = Ok _ |- _ => apply py_floordiv_Ok in H as ->
         end.
  all: heap_norm.
  all: unfold loader_batch_size, instance_args.
  all: rewrite lookup_app_plus; reflexivity.
Qed.

(** C4, as claimed: a second call of [get_data_loader] would return the
    loader of the first and leave the stored dataset as it is.  On the
    sample process the second call returns another loader and stores
    another dataset. *)
Lemma data_loader_not_memoized :
  ¬ (∀ l1 s1 l2 s2,
       get_data_loader 64 false false false Sample.quiet Sample.start = (Ok l1, s1) →
       get_data_loader 64 false false false Sample.quiet s1 = (Ok l2, s2) →
       l2 = l1 ∧ attrs s2 !! "dataset" = attrs s1 !! "dataset").
Proof.
  intros H.
  set (r1 := get_data_loader 64 false false false Sample.quiet Sample.start).
  set (r2 := get_data_loader 64 false false false Sample.quiet r1.2).
  destruct (H (VRef 6) r1.2 (VRef 13) r2.2) as [E _].
  - vm_compute. reflexivity.
  - vm_compute. reflexivity.
  - discriminate E.
Qed.

(** C4, amended.  Every call of [get_data_loader] builds a new dataset and
    a new loader: the loader it returns and the dataset it stores in the
    attribute [dataset] are objects that did not exist before the call, so
    a second call returns a loader other than the first and replaces the
    stored dataset by another. *)
Theorem data_loader_built_anew env s bs d n c l1 s1 bs' d' n' c' l2 s2 :
  get_data_loader bs d n c env s = (Ok l1, s1) →
  get_data_loader bs' d' n' c' env s1 = (Ok l2, s2) →
  (∃ r, l1 = VRef r ∧ (length (heap s) ≤ r < length (heap s1))%nat) ∧
  (∃ r, attrs s1 !! "dataset" = Some (VRef r) ∧
        (length (heap s) ≤ r < length (heap s1))%nat) ∧
  l2 ≠ l1 ∧
  attrs s2 !! "dataset" ≠ attrs s1 !! "dataset".
Proof.
  intros H1 H2.
  apply get_data_loader_Ok in H1 as (-> & Ha1 & (new1 & Hh1 & Hn1) & _).
  apply get_data_loader_Ok in H2 as (-> & Ha2 & _).
  rewrite Ha2, Ha1, !lookup_insert_eq, Hh1, length_app, Hn1.
  repeat split.
  - eexists. split; [done | lia].
  - eexists. split; [done | lia].
  - intros [= E]. lia.
  - intros [= E]. lia.
Qed.

Lemma data_loader_built_anew_witness :
  let r1 := get_data_loader 64 true false false Sample.quiet Sample.start in
  let r2 := get_data_loader 64 true false false Sample.quiet r1.2 in
  (∃ r, VRef 6 = VRef r ∧ (length (heap Sample.start) ≤ r < length (heap r1.2))%nat) ∧
  (∃ r, attrs r1.2 !! "dataset" = Some (VRef r) ∧
        (length (heap Sample.start) ≤ r < length (heap r1.2))%nat) ∧
  VRef 13 ≠ VRef 6 ∧
  attrs r2.2 !! "dataset" ≠ attrs r1.2 !! "dataset".
Proof.
  intros r1 r2.
  apply (data_loader_built_anew Sample.quiet Sample.start 64 true false false
           (VRef 6) r1.2 64 true false false (VRef 13) r2.2);
    vm_compute; reflexivity.
Defined.

(** ** Failures of the framework *)

Lemma propagating_stay env s x : propagating env s x s.
Proof. split; [done | intros; lia]. Qed.

Lemma propagating_trans env s s1 s2 x :
  propagating env s None s1 → propagating env s1 x s2 → propagating env s x s2.
Proof.
  intros [L1 P1] [L2 P2]. split; [lia | ].
  intros k e Hk He. destruct (decide (k < clock s1)%nat) as [Hlt | Hge].
  - destruct (P1 k e) as [? _]; [lia | done | discriminate].
  - apply P2; [lia | done].
Qed.

Lemma propagating_call env s : propagating env s (faults env (clock s)) (tick s).
Proof.
  split; simpl; [lia | ]. intros k e Hk He.
  assert (k = clock s) as -> by lia. done.
Qed.

Lemma propagating_same_clock env s s' :
  clock s' = clock s → propagating env s None s'.
Proof. intros E. split; rewrite E; [done | intros; lia]. Qed.

Lemma preserves_propagates {A} (m : M A) : preserves propagating m → propagates m.
Proof.
  intros H env s k e Hk He. destruct (H env s) as [_ P].
  destruct (P k e Hk He) as [Hx ?]. split; [ | done].
  destruct (m env s).1; simpl in Hx; congruence.
Qed.

(** Discharges what [Closure] asks of [propagating]. *)
Ltac propagating_facts :=
  first
    [ exact propagating_stay | exact propagating_trans | exact propagating_call
    | intros; apply propagating_same_clock; reflexivity
    | intros; exact I ].

(** C7.  No operation catches, replaces or retries after an exception of
    the framework: whenever the framework raises during an operation, the
    operation ends with that very exception, and it makes no further call
    into the framework. *)
Theorem failures_propagate {image elt : Type}
    (interpolate : image → value → image) (times : elt → spec_float → elt) :
  propagates get_model ∧
  (∀ bs d n c, propagates (get_data_loader bs d n c)) ∧
  (∀ dl epoch rank d, propagates (random_resize dl epoch rank d)) ∧
  (∀ inputs targets tsize,
     propagates (preprocess interpolate times inputs targets tsize)) ∧
  (∀ bs, propagates (get_optimizer bs)) ∧
  (∀ lr n, propagates (get_lr_scheduler lr n)) ∧
  (∀ bs d t lg, propagates (get_eval_loader bs d t lg)) ∧
  (∀ bs d t lg, propagates (get_evaluator bs d t lg)) ∧
  (∀ model evaluator d h, propagates (eval model evaluator d h)).
Proof.
  repeat match goal with |- _ ∧ _ => split end;
    intros; apply preserves_propagates.
  - apply holds_get_model with (writable := λ _ _, True); propagating_facts.
  - apply holds_get_data_loader with (writable := λ _ _, True); propagating_facts.
  - apply holds_random_resize with (writable := λ _ _, True); propagating_facts.
  - apply holds_preprocess; propagating_facts.
  - apply holds_get_optimizer with (writable := λ _ _, True); propagating_facts.
  - apply holds_get_lr_scheduler; propagating_facts.
  - apply holds_get_eval_loader; propagating_facts.
  - apply holds_get_evaluator; propagating_facts.
  - apply holds_eval; propagating_facts.
Qed.

(** A framework call that fails in the middle of [get_data_loader]: the
    operation ends with the exception of that call. *)
Example failure_in_get_data_loader :
  let env := {| faults := λ k, if Nat.eqb k 5 then Some (Fault 17) else None;
                dist_rank := 0; world_size := 8; local_rank := 0;
                entropy := λ _, 0; uninitialised := (0, 0);
                yolox_modules := []; dataset_len := 10 |} in
  let r := get_data_loader 64 true false false env Sample.start in
  r.1 = Raise (Fault 17) ∧ clock r.2 = 6%nat.
Proof. vm_compute. done. Qed.

(** ** Which attributes an operation writes *)

Section ChangesOnly.
Variable W : string → option value → Prop.

Lemma changes_only_stay env s x : changes_only W env s x s.
Proof. intros k. by left. Qed.

Lemma changes_only_trans env s s1 s2 x :
  changes_only W env s None s1 → changes_only W env s1 x s2 →
  changes_only W env s x s2.
Proof.
  intros H1 H2 k. destruct (H1 k) as [E1 | ?]; [ | by right].
  destruct (H2 k) as [E2 | ?].
  - left. congruence.
  - right. by rewrite <- E1.
Qed.

Lemma changes_only_same_attrs env s s' x :
  attrs s' = attrs s → changes_only W env s x s'.
Proof. intros E k. left. by rewrite E. Qed.

Lemma changes_only_setattr env s k v :
  W k (attrs s !! k) → changes_only W env s None (set_attrs (insert k v) s).
Proof.
  intros HW k'. simpl. destruct (decide (k = k')) as [<- | Hne].
  - by right.
  - left. by apply lookup_insert_ne.
Qed.
End ChangesOnly.

(** Discharges what [Closure] asks of [changes_only W]. *)
Ltac changes_only_facts :=
  first
    [ exact (changes_only_stay _) | exact (changes_only_trans _)
    | exact (changes_only_setattr _)
    | intros; apply changes_only_same_attrs; reflexivity ].

(** C6, as claimed: no operation of a run would write an attribute other
    than the three handles.  On the sample process the first
    [random_resize] at rank 0 creates the attribute [random_size]. *)
Lemma random_resize_writes_random_size :
  ¬ (∀ env s k,
       k ∉ handles →
       attrs (random_resize VNone 0 0 false env s).2 !! k = attrs s !! k).
Proof.
  intros H. specialize (H Sample.quiet Sample.start "random_size").
  assert (Hk : "random_size" ∉ handles).
  { unfold handles. rewrite !not_elem_of_cons. repeat split; try discriminate.
    apply not_elem_of_nil. }
  specialize (H Hk). vm_compute in H. discriminate H.
Qed.

(** C6, amended.  No operation of a run changes or removes an attribute that
    exists, the three handles apart: [random_resize] writes nothing but
    [random_size], and that only at rank 0 and only where the attribute is
    absent; [get_data_loader] writes nothing but [dataset], [get_optimizer]
    nothing but [optimizer], and [preprocess] nothing at all. *)
Theorem hyperparameters_kept {image elt : Type}
    (interpolate : image → value → image) (times : elt → spec_float → elt)
    env s k :
  (∀ dl epoch rank d,
     attrs (random_resize dl epoch rank d env s).2 !! k = attrs s !! k ∨
     (k = "random_size" ∧ rank = 0 ∧ attrs s !! k = None)) ∧
  (∀ bs d n c,
     attrs (get_data_loader bs d n c env s).2 !! k = attrs s !! k ∨
     k = "dataset") ∧
  (∀ bs,
     attrs (get_optimizer bs env s).2 !! k = attrs s !! k ∨ k = "optimizer") ∧
  (∀ inputs targets tsize,
     attrs (preprocess interpolate times inputs targets tsize env s).2 !! k =
     attrs s !! k).
Proof.
  repeat match goal with |- _ ∧ _ => split end; intros.
  - destruct (decide (rank = 0)) as [-> | Hr].
    + set (W := λ (k : string) (o : option value), k = "random_size" ∧ o = None).
      assert (H : preserves (changes_only W) (random_resize dl epoch 0 d)).
      { apply holds_random_resize with (writable := λ s k, W k (attrs s !! k));
          first [ changes_only_facts | done ]. }
      destruct (H env s k) as [E | [-> E]]; [by left | by right].
    + set (W := λ (k : string) (o : option value), False).
      assert (H : preserves (changes_only W) (random_resize dl epoch rank d)).
      { apply holds_random_resize_other; first [ changes_only_facts | done ]. }
      destruct (H env s k) as [E | []]. by left.
  - set (W := λ (k : string) (o : option value), k = "dataset").
    assert (H : preserves (changes_only W) (get_data_loader bs d n c)).
    { apply holds_get_data_loader with (writable := λ s k, W k (attrs s !! k));
        first [ changes_only_facts | done ]. }
    apply (H env s k).
  - set (W := λ (k : string) (o : option value), k = "optimizer").
    assert (H : preserves (changes_only W) (get_optimizer bs)).
    { apply holds_get_optimizer with (writable := λ s k, W k (attrs s !! k));
        first [ changes_only_facts | done ]. }
    apply (H env s k).
  - set (W := λ (k : string) (o : option value), False).
    assert (H : preserves (changes_only W)
                  (preprocess interpolate times inputs targets tsize)).
    { apply holds_preprocess; first [ changes_only_facts | done ]. }
    destruct (H env s k) as [E | []]. done.
Qed.


(** ** The parameter groups of the optimizer *)

Lemma group_modules_spec modules : ∀ a0 a1 a2 pg0 pg1 pg2,
  group_modules (a0, a1, a2) modules = Ok (pg0, pg1, pg2) →
  pg0 = (a0 ++ no_decay_weights modules)%list ∧
  pg1 = (a1 ++ decay_weights modules)%list ∧
  pg2 = (a2 ++ biases modules)%list.
Proof.
  induction modules as [ | [k v] rest IH]; intros a0 a1 a2 pg0 pg1 pg2 H.
  - injection H as <- <- <-. by rewrite !app_nil_r.
  - simpl in H. unfold no_decay_weights, decay_weights, biases, bn_like.
    simpl flat_map.
    destruct (is_BatchNorm2d v || contains "bn" k);
      destruct (weight v) as [[w | | t] | ]; destruct (bias v) as [[b | | t'] | ];
      simpl in H |- *; try discriminate;
      apply IH in H as (-> & -> & ->);
      by rewrite <- ?app_assoc.
Qed.

(** The loop fails only at a module that passes the test of line 224 and
    has no [weight]. *)
Lemma group_modules_total modules : ∀ pg,
  (∀ kv, kv ∈ modules → bn_like kv = true → weight kv.2 ≠ None) →
  ∃ pg', group_modules pg modules = Ok pg'.
Proof.
  induction modules as [ | [k v] rest IH]; intros [[a0 a1] a2] Hw; [by eexists | ].
  assert (Hkv := Hw (k, v) ltac:(left)). unfold bn_like in Hkv. simpl in *.
  destruct (is_BatchNorm2d v || contains "bn" k).
  - destruct (weight v) as [w | ]; [ | by destruct Hkv].
    simpl. apply IH. intros kv Hin. apply Hw. by right.
  - destruct (weight v) as [[w | | t] | ]; simpl; apply IH;
      intros kv Hin; apply Hw; by right.
Qed.

Lemma occurrences_app p l1 l2 :
  occurrences p (l1 ++ l2) = (occurrences p l1 + occurrences p l2)%nat.
Proof.
  unfold occurrences, params_in. by rewrite flat_map_app, count_occ_app.
Qed.

(** When the modules hold parameters only as [weight] and [bias], a
    parameter occurs in the three groups together as often as in the
    model. *)
Lemma occurrences_groups p modules :
  (∀ kv, kv ∈ modules → extra_parameters kv.2 = []) →
  (occurrences p (no_decay_weights modules) +
   occurrences p (decay_weights modules) +
   occurrences p (biases modules))%nat =
  count_occ Nat.eq_dec (parameters modules) p.
Proof.
  induction modules as [ | [k v] rest IH]; intros Hx; [done | ].
  assert (Hv := Hx (k, v) ltac:(left)). simpl in Hv.
  unfold no_decay_weights, decay_weights, biases, parameters. simpl flat_map.
  rewrite !occurrences_app, !count_occ_app, Hv.
  fold (no_decay_weights rest) (decay_weights rest) (biases rest) (parameters rest).
  rewrite <- IH by (intros kv Hin; apply Hx; by right).
  unfold bn_like. simpl fst. simpl snd.
  destruct (is_BatchNorm2d v || contains "bn" k);
    destruct (weight v) as [[w | | t] | ]; destruct (bias v) as [[b | | t'] | ];
    unfold occurrences; simpl; repeat case_match; lia.
Qed.

(** C1, as claimed: every parameter of every model would lie in exactly one
    of the three groups.  The model of [Sample.with_scale], a convolution,
    a batch normalisation and a module with a parameter of another name,
    has an optimizer whose first group is not empty, and a parameter that
    lies in none of the three groups. *)
Lemma parameter_outside_groups :
  ¬ (∀ env s bs o s' r modules,
       attrs s !! "optimizer" = None →
       attrs s !! "model" = Some (VRef r) →
       heap s !! r = Some (Model modules) →
       get_optimizer bs env s = (Ok o, s') →
       ∃ pg0 pg1 pg2,
         optimizer_groups (heap s') o = Some [pg0; pg1; pg2] ∧
         ∀ p, p ∈ parameters modules →
              (occurrences p pg0 + occurrences p pg1 + occurrences p pg2 = 1)%nat).
Proof.
  intros H.
  set (s := (get_model Sample.with_scale Sample.start).2).
  set (s' := (get_optimizer 64 Sample.with_scale s).2).
  destruct (H Sample.with_scale s 64 (VRef 3) s' 2%nat
              (init_yolo Sample.modules_with_scale))
    as (pg0 & pg1 & pg2 & Hg & Hp); try (vm_compute; reflexivity).
  vm_compute in Hg. injection Hg as <- <- <-.
  specialize (Hp 3%nat). vm_compute in Hp.
  assert (3%nat ∈ [0%nat; 1%nat; 2%nat; 3%nat]) as Hin by (do 3 right; left).
  specialize (Hp Hin). discriminate Hp.
Qed.

(** The groups of that optimizer: the weight of the batch normalisation,
    the weight of the convolution, the bias of the batch normalisation. *)
Example groups_with_scale :
  let s := (get_model Sample.with_scale Sample.start).2 in
  let s' := (get_optimizer 64 Sample.with_scale s).2 in
  optimizer_groups (heap s') (VRef 3) = Some [[Param 1]; [Param 0]; [Param 2]] ∧
  parameters (init_yolo Sample.modules_with_scale) = [0; 1; 2; 3]%nat.
Proof. vm_compute. done. Qed.

(** C1, amended.  For a model whose modules hold parameters only as
    [weight] and [bias], the three groups of the optimizer are the weights
    of the modules that are [BatchNorm2d] or have "bn" in their name, the
    weights of the other modules, and the biases; and every parameter
    occurs in the three groups together exactly as often as the modules
    hold it: once, and so in one group and no other, when a single
    attribute of a single module holds it. *)
Theorem parameter_groups_partition env s bs o s' r modules :
  attrs s !! "optimizer" = None →
  attrs s !! "model" = Some (VRef r) →
  heap s !! r = Some (Model modules) →
  (∀ kv, kv ∈ modules → extra_parameters kv.2 = []) →
  get_optimizer bs env s = (Ok o, s') →
  optimizer_groups (heap s') o =
    Some [no_decay_weights modules; decay_weights modules; biases modules] ∧
  (∀ p,
     (occurrences p (no_decay_weights modules) +
      occurrences p (decay_weights modules) +
      occurrences p (biases modules))%nat =
     count_occ Nat.eq_dec (parameters modules) p) ∧
  (∀ p,
     count_occ Nat.eq_dec (parameters modules) p = 1%nat →
     (occurrences p (no_decay_weights modules) +
      occurrences p (decay_weights modules) +
      occurrences p (biases modules) = 1)%nat).
Proof.
  intros Hno Hm Hr Hx H.
  apply get_optimizer_builds in H
    as (r' & ms & pg0 & pg1 & pg2 & o0 & o1 & o2 & Hm' & Hr' & Hg & -> & Hh & _);
    [ | done ].
  rewrite Hm in Hm'. injection Hm' as <-.
  rewrite Hr in Hr'. injection Hr' as <-.
  apply group_modules_spec in Hg as (-> & -> & ->). simpl.
  split; [ | split].
  - unfold optimizer_groups. by rewrite Hh, lookup_last.
  - intros p. by apply occurrences_groups.
  - intros p Hp. by rewrite occurrences_groups.
Qed.

Lemma parameter_groups_partition_witness :
  let s := (get_model Sample.quiet Sample.start).2 in
  let s' := (get_optimizer 64 Sample.quiet s).2 in
  let modules := init_yolo Sample.modules in
  optimizer_groups (heap s') (VRef 3) =
    Some [no_decay_weights modules; decay_weights modules; biases modules] ∧
  (∀ p,
     (occurrences p (no_decay_weights modules) +
      occurrences p (decay_weights modules) +
      occurrences p (biases modules))%nat =
     count_occ Nat.eq_dec (parameters modules) p) ∧
  (∀ p,
     count_occ Nat.eq_dec (parameters modules) p = 1%nat →
     (occurrences p (no_decay_weights modules) +
      occurrences p (decay_weights modules) +
      occurrences p (biases modules) = 1)%nat).
Proof.
  intros s s' modules.
  apply (parameter_groups_partition Sample.quiet s 64 (VRef 3) s' 2%nat modules).
  - vm_compute. reflexivity.
  - vm_compute. reflexivity.
  - vm_compute. reflexivity.
  - intros kv Hin.
    repeat (apply elem_of_cons in Hin as [-> | Hin]; [reflexivity | ]).
    by apply elem_of_nil in Hin.
  - vm_compute. reflexivity.
Defined.

(** A weight that two convolutions share is held twice, and is twice in
    the second group, which the optimizer takes with a warning. *)
Example shared_weight_twice :
  let modules :=
    [ ("a.conv", Sample.layer false (Some (Param 0)) None);
      ("b.conv", Sample.layer false (Some (Param 0)) None);
      ("a.bn", Sample.layer true (Some (Param 1)) (Some (Param 2))) ] in
  group_modules ([], [], []) modules =
    Ok ([Param 1], [Param 0; Param 0], [Param 2]) ∧
  count_occ Nat.eq_dec (parameters modules) 0%nat = 2%nat.
Proof. vm_compute. done. Qed.

(** ** The sizes drawn by [random_resize] *)

Lemma get_size_factor_Ok sf env s s' :
  get_size_factor env s = (Ok sf, s') →
  ∃ input_size,
    attrs s !! "input_size" = Some input_size ∧
    size_factor_of input_size = Ok sf ∧ s' = s.
Proof.
  unfold get_size_factor. intros H. inv_run H.
  eexists. split; [eassumption | ]. split; [ | done].
  unfold size_factor_of.
  repeat match goal with E : _ = Ok _ |- _ => rewrite E; clear E; simpl end.
  done.
Qed.

Lemma default_random_size_Ok u env s s' :
  default_random_size env s = (Ok u, s') →
  (is_Some (attrs s !! "random_size") ∧ s' = s) ∨
  (attrs s !! "random_size" = None ∧
   ∃ input_size multiscale_range bounds,
     attrs s !! "input_size" = Some input_size ∧
     attrs s !! "multiscale_range" = Some multiscale_range ∧
     default_range input_size multiscale_range = Ok bounds ∧
     s' = set_attrs (insert "random_size" bounds) s).
Proof.
  unfold default_random_size. intros H. inv_run H.
  - right. apply negb_true_iff, bool_decide_eq_false in E.
    rewrite <- eq_None_not_Some in E. split; [done | ].
    eexists _, _, _. split; [eassumption | ]. split; [eassumption | ].
    split; [ | reflexivity].
    unfold default_range.
    repeat match goal with
           | H1 : ?a = Ok ?x, H2 : ?a = Ok ?y |- _ =>
               rewrite H1 in H2; injection H2 as <-
           end.
    repeat match goal with E : _ = Ok _ |- _ => rewrite E; clear E; simpl end.
    done.
  - left. apply negb_false_iff, bool_decide_eq_true in E. done.
Qed.

Lemma mod_in_range lo hi e : lo ≤ hi → lo ≤ lo + e `mod` (hi - lo + 1) ≤ hi.
Proof. intros H. pose proof (Z.mod_pos_bound e (hi - lo + 1)). lia. Qed.

(** What a call of [random_resize] that returns has done: [local] is the
    tensor before the broadcast, [t] the tensor after it. *)
Lemma random_resize_Ok dl epoch rank d env s v s' :
  random_resize dl epoch rank d env s = (Ok v, s') →
  ∃ local t,
    v = VTuple [VInt t.1; VInt t.2] ∧
    (if rank =? 0 then picked env s s' local else local = uninitialised env) ∧
    (if d then
       (dist_rank env = 0 ∧ t = local ∧ outbox s' = (outbox s ++ [local])%list) ∨
       (dist_rank env ≠ 0 ∧ ∃ rest, inbox s = t :: rest)
     else t = local).
Proof.
  unfold random_resize, tensor_set, tensor_item, dist_broadcast.
  intros H. inv_run H.
  all: repeat match goal with
         | H : get_size_factor _ _ = _ |- _ =>
             apply get_size_factor_Ok in H as (? & ? & ? & ?); simplify_eq
         | H : default_random_size _ _ = _ |- _ =>
             apply default_random_size_Ok in H
               as [[? ?] | (? & ? & ? & ? & ? & ? & ? & ?)]; simplify_eq; simpl in *
         | H : exchange _ _ _ _ = _ |- _ =>
             apply exchange_Ok in H as [(? & ? & ?) | (? & ? & ? & ?)];
             simplify_eq; simpl in *
         | H : <[_:=_]> _ !! _ = Some _ |- _ =>
             rewrite lookup_insert_eq in H; simplify_eq
         | H : obind (py_mul (VInt 32) (VInt _)) py_int = Ok _ |- _ =>
             injection H as <-
         end.
  all: repeat match goal with
         | x : (Z * Z)%type |- _ => destruct x
         | |- context [uninitialised ?e] => destruct (uninitialised e)
         end.
  all: store_simpl.
  all: eexists _, (_, _); (split; [reflexivity | ]).
  all: apply and_comm; split;
    [ first [ reflexivity
            | left; split; [assumption | split; reflexivity]
            | right; split; [assumption | eexists; eassumption] ] | ].
  all: try reflexivity.
  all: unfold picked; eexists _, _, _, _, _, _, _.
  all: repeat match goal with
         | |- _ ≤ _ ≤ _ => eapply mod_in_range; eassumption
         | |- _ ∧ _ => split
         end; try eassumption; try reflexivity.
  all: try solve [ left; eassumption
                 | right; split; [ assumption | eexists; split; eassumption ]
                 | apply lookup_insert_eq ].
  all: simplify_eq; reflexivity.
Qed.

(** Every number of the range is drawn for some delivery of the generator. *)
Lemma randint_reaches lo hi x env s :
  lo ≤ x ≤ hi → entropy env (draws s) = x - lo →
  randint (VTuple [VInt lo; VInt hi]) env s = (Ok x, drawn s).
Proof.
  intros Hx He. unfold randint.
  rewrite (proj2 (Z.ltb_ge hi lo)) by lia.
  rewrite He, Z.mod_small by lia. do 2 f_equal. lia.
Qed.

(** On integers, the default range is the integer part of
    [input_size[0] / 32], less and plus [multiscale_range]. *)
Lemma default_range_int a b r q :
  obind (py_truediv (VInt a) (VInt 32)) py_int = Ok q →
  default_range (VTuple [VInt a; VInt b]) (VInt r) =
  Ok (VTuple [VInt (q - r); VInt (q + r)]).
Proof.
  intros H. unfold default_range.
  change (py_index (VTuple [VInt a; VInt b]) 0) with (Ok (VInt a)).
  cbn [obind]. rewrite H. reflexivity.
Qed.




(** The default sizes of the sample process: the range is 11 to 21, and the
    width belonging to the number 18 is 32 times 22. *)
Example sample_sizes :
  default_range (VTuple [VInt 512; VInt 640]) (VInt 5) =
    Ok (VTuple [VInt 11; VInt 21]) ∧
  obind (size_factor_of (VTuple [VInt 512; VInt 640]))
        (λ sf, obind (py_mul (VInt 18) sf) py_int) = Ok 22.
Proof. vm_compute. done. Qed.

(** ** All ranks resize alike *)

Lemma cluster_rank0 dl epoch env0 s0 others v s0' :
  dist_rank env0 = 0 →
  cluster_random_resize dl epoch ((env0, s0) :: others) !! 0%nat = Some (Ok v, s0') →
  ∃ t,
    drop (length (outbox s0)) (outbox (random_resize dl epoch 0 true env0 s0).2) = [t] ∧
    picked env0 s0 s0' t ∧
    v = VTuple [VInt t.1; VInt t.2].
Proof.
  intros Hr H. simpl in H. injection H as H.
  rewrite H. simpl.
  apply random_resize_Ok in H as (local & t & -> & Hp & Ht).
  change (0 =? 0) with true in Hp. cbv iota in Hp.
  destruct Ht as [(_ & -> & ->) | [? _]]; [ | done].
  exists local. by rewrite drop_app_length.
Qed.

Lemma cluster_other_rank dl epoch env0 s0 others i v si :
  ranked ((env0, s0) :: others) →
  cluster_random_resize dl epoch ((env0, s0) :: others) !! S i = Some (Ok v, si) →
  ∃ t rest,
    drop (length (outbox s0)) (outbox (random_resize dl epoch 0 true env0 s0).2) =
      t :: rest ∧
    v = VTuple [VInt t.1; VInt t.2].
Proof.
  intros Hranked H. simpl in H. rewrite list_lookup_imap in H.
  destruct (others !! i) as [[env s] | ] eqn:Hi; [ | discriminate].
  simpl in H. injection H as H.
  assert (Hrank : dist_rank env = Z.of_nat (S i)) by (by apply (Hranked (S i) env s)).
  apply random_resize_Ok in H as (local & t & -> & _ & Ht).
  destruct Ht as [[? _] | (_ & rest & Hin)]; [lia | ].
  simpl in Hin. eauto.
Qed.

(** ** The scale of [preprocess] *)

(** A finite nonzero number divided by itself is exactly [1.0]. *)
Lemma fdiv_self s m e :
  PyFloat.fdiv (S754_finite s m e) (S754_finite s m e) = PyFloat.one.
Proof.
  assert (Hcore :
    SFdiv_core_binary PyFloat.prec PyFloat.emax (Z.pos m) e (Z.pos m) e =
    (2 ^ 53, -53, loc_Exact)).
  { unfold SFdiv_core_binary.
    replace (Zdigits2 (Z.pos m) + e - (Zdigits2 (Z.pos m) + e)) with 0 by lia.
    replace (e - e) with 0 by lia.
    change (Z.min (fexp PyFloat.prec PyFloat.emax 0) 0) with (-53).
    change (0 - -53) with 53.
    cbv iota beta zeta.
    rewrite Z.shiftl_mul_pow2 by lia.
    rewrite (Z.mul_comm (Z.pos m)).
    pose proof (Z.div_mul (2 ^ 53) (Z.pos m) ltac:(lia)) as Hq.
    pose proof (Z.mod_mul (2 ^ 53) (Z.pos m) ltac:(lia)) as Hr.
    unfold Z.div in Hq. unfold Z.modulo in Hr.
    destruct (Z.div_eucl (2 ^ 53 * Z.pos m) (Z.pos m)) as [q r].
    subst q r.
    unfold new_location, new_location_even, new_location_odd.
    by destruct (Z.even (Z.pos m)). }
  unfold PyFloat.fdiv, SFdiv. rewrite Hcore.
  destruct s; vm_compute; reflexivity.
Qed.

Lemma truediv_self v : divisor v → py_truediv v v = Ok (VFloat PyFloat.one).
Proof.
  destruct v as [ | [ | ] | z | f | | | | ]; try done.
  - intros Hz. unfold py_truediv, as_num, obind, PyFloat.int_truediv.
    rewrite (proj2 (Z.eqb_neq z 0) Hz).
    destruct z as [ | p | p]; [done | | ]; simpl PyFloat.exact;
      by rewrite fdiv_self.
  - destruct f as [ | | | s m e]; try done. intros _.
    unfold py_truediv, as_num, num_float, obind, PyFloat.truediv. simpl PyFloat.is_zero.
    by rewrite fdiv_self.
Qed.

(** ** The slices of [preprocess] *)

Section SliceLemmas.
Context {A : Type} (f : A → A).

Lemma put_alternate_lookup (l : list A) : ∀ skip i,
  put_alternate skip l (f <$> alternate skip l) !! i =
  (if Bool.eqb (Nat.even i) (negb skip) then f else id) <$> l !! i.
Proof.
  induction l as [ | x l IH]; intros skip i; [done | ].
  destruct skip, i as [ | i]; try done.
  - rewrite Nat.even_succ, <- Nat.negb_even. simpl. rewrite IH.
    by destruct (Nat.even i).
  - rewrite Nat.even_succ, <- Nat.negb_even. simpl. rewrite IH.
    by destruct (Nat.even i).
Qed.

Lemma set_get_slice_lookup start : ∀ (l : list A) i,
  set_slice start l (f <$> get_slice start l) !! i =
  (if (start <=? i)%nat && Nat.even (i - start) then f else id) <$> l !! i.
Proof.
  induction start as [ | n IH]; intros l i.
  - simpl. rewrite put_alternate_lookup, Nat.sub_0_r.
    by destruct (Nat.even i).
  - destruct l as [ | x l]; [done | ].
    destruct i as [ | i]; [done | ]. simpl. by rewrite IH.
Qed.
End SliceLemmas.

(** The two slice assignments of lines 208 and 209 scale each coordinate by
    its rule. *)
Lemma scale_row {elt} (times : elt → spec_float → elt) sx sy (row : list elt) :
  let row1 := set_slice 2 row ((λ x, times x sx) <$> get_slice 2 row) in
  set_slice 3 row1 ((λ x, times x sy) <$> get_slice 3 row1) =
  imap (scaled_coordinate times sx sy) row.
Proof.
  intros row1. apply list_eq. intros i.
  rewrite list_lookup_imap. unfold row1.
  rewrite !set_get_slice_lookup. unfold scaled_coordinate.
  destruct (row !! i) as [x | ]; [ | done].
  cbn [fmap option_fmap option_map]. f_equal.
  destruct (decide (i < 2)%nat) as [Hlt | Hge].
  - rewrite (proj2 (Nat.ltb_lt i 2) Hlt).
    rewrite (proj2 (Nat.leb_gt 3 i)) by lia.
    rewrite (proj2 (Nat.leb_gt 2 i)) by lia. done.
  - rewrite (proj2 (Nat.ltb_ge i 2)) by lia.
    rewrite (proj2 (Nat.leb_le 2 i)) by lia.
    rewrite (Nat.even_sub i 2) by lia. change (Nat.even 2) with true.
    destruct (Nat.even i) eqn:Ei; cbn [Bool.eqb andb].
    + destruct (3 <=? i)%nat eqn:E3; [ | done]. apply Nat.leb_le in E3.
      rewrite (Nat.even_sub i 3), Ei by lia. done.
    + assert (i ≠ 2%nat) by (intros ->; discriminate).
      rewrite (proj2 (Nat.leb_le 3 i)) by lia.
      rewrite (Nat.even_sub i 3), Ei by lia. done.
Qed.

Lemma py_truediv_float a b v : py_truediv a b = Ok v → ∃ q, v = VFloat q.
Proof.
  unfold py_truediv, obind. intros H.
  repeat case_match; simplify_eq; eauto.
Qed.

Lemma bind_lift_Ok {A B} (a : A) (f : A → M B) env s :
  (lift (Ok a) ≫= f) env s = f a env s.
Proof. reflexivity. Qed.

Lemma bind_getattr {B} k v (f : value → M B) env s :
  attrs s !! k = Some v → (getattr k ≫= f) env s = f v env s.
Proof. intros H. rewrite bind_run. unfold getattr. by rewrite H. Qed.

Section PreprocessLemmas.
Context {image elt : Type}.
Variable interpolate : image → value → image.
Variable times : elt → spec_float → elt.

Lemma scale_slice_Ok start scale targets r env s s' :
  scale_slice times start scale targets env s = (Ok r, s') →
  ∃ c,
    py_float scale = Ok c ∧
    r = (λ row, set_slice start row ((λ x, times x c) <$> get_slice start row))
          <$> targets.
Proof.
  unfold scale_slice. intros H. inv_run H. eauto.
Qed.

(** C5.  [preprocess] takes for scales the quotients of the requested size
    by the configured input size, [scale_y] of the heights and [scale_x] of
    the widths, and, when one of them differs from 1, multiplies the
    coordinates 2, 4, 6, ... of every target row by [scale_x] and the
    coordinates 3, 5, 7, ... by [scale_y]. *)
Theorem preprocess_scales inputs targets tsize env s r s' :
  preprocess interpolate times inputs targets tsize env s = (Ok r, s') →
  ∃ input_size t0 t1 i0 i1 scale_y scale_x,
    attrs s !! "input_size" = Some input_size ∧
    py_index tsize 0 = Ok t0 ∧ py_index input_size 0 = Ok i0 ∧
    py_index tsize 1 = Ok t1 ∧ py_index input_size 1 = Ok i1 ∧
    py_truediv t0 i0 = Ok (VFloat scale_y) ∧
    py_truediv t1 i1 = Ok (VFloat scale_x) ∧
    r = if py_ne_1 (VFloat scale_x) || py_ne_1 (VFloat scale_y)
        then (interpolate inputs tsize,
              scaled_targets times scale_x scale_y targets)
        else (inputs, targets).
Proof.
  unfold preprocess. intros H. inv_run H.
  all: repeat match goal with
         | H : py_truediv _ _ = Ok ?v |- _ =>
             is_var v; destruct (py_truediv_float _ _ _ H) as [? ->]
         | H : scale_slice _ _ _ _ _ _ = _ |- _ =>
             apply scale_slice_Ok in H as (? & [= <-] & ->)
         end.
  all: eexists _, _, _, _, _, _, _.
  all: repeat (split; [eassumption | ]).
  all: match goal with E : _ || _ = _ |- _ => rewrite E end.
  - f_equal. unfold scaled_targets. rewrite <- list_fmap_compose.
    apply list_fmap_ext. intros i row _. apply scale_row.
  - done.
Qed.

(** C9.  [preprocess] is the identity when the requested size is the
    configured input size, height [a] and width [b] being numbers one can
    divide by: it returns [inputs] and [targets] as they are and leaves the
    store as it is. *)
Theorem preprocess_identity inputs targets tsize input_size a b env s :
  attrs s !! "input_size" = Some input_size →
  py_index tsize 0 = Ok a → py_index input_size 0 = Ok a →
  py_index tsize 1 = Ok b → py_index input_size 1 = Ok b →
  divisor a → divisor b →
  preprocess interpolate times inputs targets tsize env s = (Ok (inputs, targets), s).
Proof.
  intros Hi Ht0 Hi0 Ht1 Hi1 Ha Hb. unfold preprocess.
  rewrite Ht0, bind_lift_Ok, (bind_getattr _ _ _ _ _ Hi).
  rewrite Hi0, bind_lift_Ok, (truediv_self a Ha), bind_lift_Ok.
  rewrite Ht1, bind_lift_Ok, (bind_getattr _ _ _ _ _ Hi).
  rewrite Hi1, bind_lift_Ok, (truediv_self b Hb), bind_lift_Ok.
  reflexivity.
Qed.
End PreprocessLemmas.

Lemma preprocess_scales_witness :
  let times := λ (x : Z) (c : spec_float),
    match PyFloat.trunc (PyFloat.fmul c (PyFloat.decimal 100 0)) with
    | Ok z => x * z
    | Raise _ => 0
    end in
  let interpolate := λ (inputs : nat) (tsize : value), S inputs in
  let tsize := VTuple [VInt 256; VInt 960] in
  ∃ input_size t0 t1 i0 i1 scale_y scale_x,
    attrs Sample.start !! "input_size" = Some input_size ∧
    py_index tsize 0 = Ok t0 ∧ py_index input_size 0 = Ok i0 ∧
    py_index tsize 1 = Ok t1 ∧ py_index input_size 1 = Ok i1 ∧
    py_truediv t0 i0 = Ok (VFloat scale_y) ∧
    py_truediv t1 i1 = Ok (VFloat scale_x) ∧
    (1%nat, [[1; 2; 450; 200; 750; 300; 1050]; [1; 2]]) =
      if py_ne_1 (VFloat scale_x) || py_ne_1 (VFloat scale_y)
      then (interpolate 0%nat tsize,
            scaled_targets times scale_x scale_y [[1; 2; 3; 4; 5; 6; 7]; [1; 2]])
      else (0%nat, [[1; 2; 3; 4; 5; 6; 7]; [1; 2]]).
Proof.
  intros times interpolate tsize.
  apply (preprocess_scales interpolate times 0%nat
           [[1; 2; 3; 4; 5; 6; 7]; [1; 2]] tsize Sample.quiet Sample.start
           (1%nat, [[1; 2; 450; 200; 750; 300; 1050]; [1; 2]])
           (preprocess interpolate times 0%nat [[1; 2; 3; 4; 5; 6; 7]; [1; 2]]
              tsize Sample.quiet Sample.start).2).
  vm_compute. reflexivity.
Defined.

Lemma preprocess_identity_witness :
  preprocess (λ (inputs : nat) (tsize : value), S inputs)
             (λ (x : Z) (c : spec_float), 0) 0%nat [[1; 2; 3; 4; 5]]
             (VTuple [VInt 512; VInt 640]) Sample.quiet Sample.start =
  (Ok (0%nat, [[1; 2; 3; 4; 5]]), Sample.start).
Proof.
  apply (preprocess_identity _ _ 0%nat [[1; 2; 3; 4; 5]]
           (VTuple [VInt 512; VInt 640]) (VTuple [VInt 512; VInt 640])
           (VInt 512) (VInt 640) Sample.quiet Sample.start);
    first [ vm_compute; reflexivity | simpl; lia ].
Defined.

(** ** Operations that return *)

Lemma returns_bind {A B} (m : M A) (f : A → M B) env s Φ :
  returns m env s (λ a s', returns (f a) env s' Φ) → returns (m ≫= f) env s Φ.
Proof.
  intros (a & s1 & Hm & b & s2 & Hf & HΦ).
  exists b, s2. split; [ | done]. by rewrite bind_run, Hm.
Qed.

Lemma returns_ret {A} (a : A) env s (Φ : A → Store → Prop) :
  Φ a s → returns (mret a) env s Φ.
Proof. intros H. by exists a, s. Qed.

Lemma returns_lift {A} (o : outcome A) a env s (Φ : A → Store → Prop) :
  o = Ok a → Φ a s → returns (lift o) env s Φ.
Proof. intros -> H. by exists a, s. Qed.

Lemma returns_ask {A} (f : Env → A) env s (Φ : A → Store → Prop) :
  Φ (f env) s → returns (ask f) env s Φ.
Proof. intros H. by exists (f env), s. Qed.

Lemma returns_getattr k v env s (Φ : value → Store → Prop) :
  attrs s !! k = Some v → Φ v s → returns (getattr k) env s Φ.
Proof. intros Hk H. exists v, s. split; [ | done]. unfold getattr. by rewrite Hk. Qed.

Lemma returns_setattr k v env s (Φ : () → Store → Prop) :
  Φ () (set_attrs (insert k v) s) → returns (setattr k v) env s Φ.
Proof. intros H. by eexists _, _. Qed.

Lemma returns_call name env s (Φ : () → Store → Prop) :
  fault_free env → Φ () (tick s) → returns (call name) env s Φ.
Proof.
  intros Hq H. exists (), (tick s). split; [ | done]. unfold call. by rewrite Hq.
Qed.

Lemma returns_new cls args env s (Φ : value → Store → Prop) :
  fault_free env →
  Φ (VRef (length (heap s)))
    (set_heap (λ h, (h ++ [Instance cls args])%list) (tick s)) →
  returns (new cls args) env s Φ.
Proof.
  intros Hq H. eexists _, _. split; [ | exact H].
  unfold new. rewrite bind_run. unfold call. by rewrite Hq.
Qed.

Lemma returns_getattr_default k d env s (Φ : value → Store → Prop) :
  Φ (default d (attrs s !! k)) s → returns (getattr_default k d) env s Φ.
Proof. intros H. by eexists _, _. Qed.

Lemma returns_hasattr k env s (Φ : bool → Store → Prop) :
  Φ (bool_decide (is_Some (attrs s !! k))) s → returns (hasattr k) env s Φ.
Proof. intros H. by eexists _, _. Qed.

Lemma returns_alloc o env s (Φ : value → Store → Prop) :
  Φ (VRef (length (heap s))) (set_heap (λ h, (h ++ [o])%list) s) →
  returns (alloc o) env s Φ.
Proof. intros H. by eexists _, _. Qed.

Lemma returns_apply_init_yolo r modules env s (Φ : () → Store → Prop) :
  fault_free env → heap s !! r = Some (Model modules) →
  Φ () (set_heap (λ h, <[r := Model (init_yolo modules)]> h) (tick s)) →
  returns (apply_init_yolo (VRef r)) env s Φ.
Proof.
  intros Hq Hr H. eexists _, _. split; [ | exact H].
  unfold apply_init_yolo. rewrite bind_run. unfold deref. rewrite Hr. simpl.
  rewrite bind_run. unfold call. by rewrite Hq.
Qed.

Lemma returns_named_modules_of r modules env s
    (Φ : list (string * nn_module) → Store → Prop) :
  fault_free env → heap s !! r = Some (Model modules) →
  Φ modules (tick s) → returns (named_modules_of (VRef r)) env s Φ.
Proof.
  intros Hq Hr H. eexists _, _. split; [ | exact H].
  unfold named_modules_of. rewrite bind_run. unfold deref. rewrite Hr. simpl.
  rewrite bind_run. unfold call. by rewrite Hq.
Qed.

Lemma returns_add_param_group r gs group env s (Φ : () → Store → Prop) :
  fault_free env → heap s !! r = Some (SGD gs) →
  Φ () (set_heap
          (λ h, <[r := SGD (gs ++ [(group.1,
                                    fill_defaults (defaults_of gs) group.2)])]> h)
          (tick s)) →
  returns (add_param_group (VRef r) group) env s Φ.
Proof.
  intros Hq Hr H. eexists _, _. split; [ | exact H].
  unfold add_param_group. rewrite bind_run. unfold deref. rewrite Hr. simpl.
  rewrite bind_run. unfold call. by rewrite Hq.
Qed.

Lemma py_floordiv_total a b : b ≠ 0 → py_floordiv a b = Ok (a `div` b).
Proof. intros H. unfold py_floordiv. by rewrite (proj2 (Z.eqb_neq b 0) H). Qed.

(** The object at a reference of the heap. *)
Ltac heap_lookup :=
  store_simpl; rewrite ?insert_last;
  first [ apply lookup_last | eassumption ].

(** One step of the proof that a sequence returns. *)
Ltac returns_step :=
  cbv beta iota;
  lazymatch goal with
  | |- returns (_ ≫= _) _ _ _ => apply returns_bind
  | |- returns (mret _) _ _ _ => apply returns_ret
  | |- returns (ask _) _ _ _ => apply returns_ask
  | |- returns (call _) _ _ _ => apply returns_call; [assumption | ]
  | |- returns (new _ _) _ _ _ => apply returns_new; [assumption | ]
  | |- returns (setattr _ _) _ _ _ => apply returns_setattr
  | |- returns (getattr _) _ _ _ =>
      eapply returns_getattr;
      [ store_simpl;
        first [ apply lookup_insert_eq
              | rewrite ?lookup_insert_ne by done; eassumption ] | ]
  | |- returns (lift _) _ _ _ =>
      eapply returns_lift;
      [ first [ eassumption | apply py_floordiv_total; auto ] | ]
  | |- returns (alloc _) _ _ _ => apply returns_alloc
  | |- returns (getattr_default _ _) _ _ _ => apply returns_getattr_default
  | |- returns (hasattr _) _ _ _ => apply returns_hasattr
  | |- returns (apply_init_yolo _) _ _ _ =>
      eapply returns_apply_init_yolo; [assumption | heap_lookup | ]
  | |- returns (named_modules_of _) _ _ _ =>
      eapply returns_named_modules_of; [assumption | heap_lookup | ]
  | |- returns (add_param_group _ _) _ _ _ =>
      eapply returns_add_param_group; [assumption | heap_lookup | ]
  | |- returns (if ?b then _ else _) _ _ _ => destruct b
  end.

(** All attributes of a list exist, each with some value. *)
Ltac name_attrs H :=
  repeat match type of H with
         | Forall _ (_ :: _) =>
             let Hk := fresh "Hk" in
             apply Forall_cons in H as [[? Hk] H]
         end.

Lemma get_data_loader_returns bs d n c env s :
  fault_free env → (d = true → world_size env ≠ 0) →
  Forall (λ k, is_Some (attrs s !! k)) data_loader_attrs →
  returns (get_data_loader bs d n c) env s (λ _ _, True).
Proof.
  intros Hq Hw Ha. unfold data_loader_attrs in Ha. name_attrs Ha.
  unfold get_data_loader, with_, TrainTransform.
  repeat returns_step. all: done.
Qed.

Lemma get_eval_loader_returns bs d t lg env s :
  fault_free env → (d = true → world_size env ≠ 0) →
  Forall (λ k, is_Some (attrs s !! k)) eval_loader_attrs →
  returns (get_eval_loader bs d t lg) env s (λ _ _, True).
Proof.
  intros Hq Hw Ha. unfold eval_loader_attrs in Ha. name_attrs Ha.
  unfold get_eval_loader.
  repeat returns_step. all: done.
Qed.

(** C10.  With [is_distributed] the loader of [get_data_loader] and the
    loader of [get_eval_loader] work with the floor of [batch_size] divided
    by the world size; without it, with [batch_size] itself.  Both loaders
    are built whenever no framework call fails, the world size is at least
    1 and the attributes the operations read exist. *)
Theorem per_process_batch_size env s bs d :
  (∀ n c l s',
     get_data_loader bs d n c env s = (Ok l, s') →
     loader_batch_size (heap s') l =
       Some (VInt (if d then bs `div` world_size env else bs))) ∧
  (∀ t lg l s',
     get_eval_loader bs d t lg env s = (Ok l, s') →
     loader_batch_size (heap s') l =
       Some (VInt (if d then bs `div` world_size env else bs))) ∧
  (fault_free env → 1 ≤ world_size env →
   (Forall (λ k, is_Some (attrs s !! k)) data_loader_attrs →
    ∀ n c, ∃ l s', get_data_loader bs d n c env s = (Ok l, s')) ∧
   (Forall (λ k, is_Some (attrs s !! k)) eval_loader_attrs →
    ∀ t lg, ∃ l s', get_eval_loader bs d t lg env s = (Ok l, s'))).
Proof.
  split; [ | split].
  - intros n c l s' H. by apply get_data_loader_Ok in H as (_ & _ & _ & H).
  - intros t lg l s' H. by apply get_eval_loader_Ok in H.
  - intros Hq Hw. split; intros Ha ? ?.
    + destruct (get_data_loader_returns bs d n c env s) as (l & s' & H & _);
        [done | lia | done | eauto].
    + destruct (get_eval_loader_returns bs d t lg env s) as (l & s' & H & _);
        [done | lia | done | eauto].
Qed.

Lemma per_process_batch_size_witness :
  let r1 := get_data_loader 100 true false false Sample.quiet Sample.start in
  let r2 := get_eval_loader 100 true false false Sample.quiet Sample.start in
  (loader_batch_size (heap r1.2) (VRef 6) = Some (VInt 12) ∧
   loader_batch_size (heap r2.2) (VRef 3) = Some (VInt 12)) ∧
  (∃ l s', get_data_loader 100 true false false Sample.quiet Sample.start = (Ok l, s')) ∧
  (∃ l s', get_eval_loader 100 true false false Sample.quiet Sample.start = (Ok l, s')).
Proof.
  intros r1 r2.
  destruct (per_process_batch_size Sample.quiet Sample.start 100 true)
    as (Hd & He & Ht).
  destruct Ht as [Htd Hte]; [done | vm_compute; discriminate | ].
  split; [split | split].
  - apply (Hd false false (VRef 6) r1.2). vm_compute. reflexivity.
  - apply (He false false (VRef 3) r2.2). vm_compute. reflexivity.
  - apply Htd. apply (bool_decide_unpack _). vm_compute. exact I.
  - apply Hte. apply (bool_decide_unpack _). vm_compute. exact I.
Defined.

Lemma returns_exchange_received t0 src t rest env s (Φ : Z * Z → Store → Prop) :
  dist_rank env ≠ src → inbox s = t :: rest →
  Φ t (set_inbox rest s) → returns (exchange t0 src) env s Φ.
Proof.
  intros Hr Hi H. exists t, (set_inbox rest s). split; [ | done].
  unfold exchange. by rewrite (proj2 (Z.eqb_neq _ _) Hr), Hi.
Qed.

(** A rank other than 0 to which the tensor [t] was delivered returns [t],
    if no framework call of its fails. *)
Lemma random_resize_other_returns dl epoch rank env s t rest :
  rank ≠ 0 → dist_rank env ≠ 0 → fault_free env → inbox s = t :: rest →
  ∃ s', random_resize dl epoch rank true env s =
        (Ok (VTuple [VInt t.1; VInt t.2]), s').
Proof.
  intros Hr Hd Hq Hi.
  assert (H : returns (random_resize dl epoch rank true) env s
                (λ v _, v = VTuple [VInt t.1; VInt t.2])).
  { unfold random_resize, tensor_item, dist_broadcast.
    rewrite (proj2 (Z.eqb_neq rank 0) Hr).
    repeat returns_step.
    eapply returns_exchange_received; [done | store_simpl; eassumption | ].
    repeat returns_step. reflexivity. }
  destruct H as (v & s' & H & ->). eauto.
Qed.

(** The size factor is computed from [input_size] alone. *)
Lemma get_size_factor_run input_size sf env s :
  attrs s !! "input_size" = Some input_size →
  size_factor_of input_size = Ok sf →
  get_size_factor env s = (Ok sf, s).
Proof.
  intros Hi Hsf. unfold get_size_factor, size_factor_of in *.
  rewrite (bind_getattr _ _ _ _ _ Hi).
  destruct (py_index input_size 1) as [w | ]; [ | done].
  rewrite bind_lift_Ok. cbn [obind] in Hsf.
  destruct (py_mul w (VFloat PyFloat.one)) as [w' | ]; [ | done].
  rewrite bind_lift_Ok. cbn [obind] in Hsf.
  rewrite (bind_getattr _ _ _ _ _ Hi).
  destruct (py_index input_size 0) as [h | ]; [ | done].
  rewrite bind_lift_Ok. cbn [obind] in Hsf.
  unfold lift. by rewrite Hsf.
Qed.

(** Where [random_size] is absent, the default range is stored. *)
Lemma default_random_size_stores input_size multiscale_range bounds env s :
  attrs s !! "random_size" = None →
  attrs s !! "input_size" = Some input_size →
  attrs s !! "multiscale_range" = Some multiscale_range →
  default_range input_size multiscale_range = Ok bounds →
  default_random_size env s = (Ok (), set_attrs (insert "random_size" bounds) s).
Proof.
  intros Hno Hi Hm Hb. unfold default_random_size, default_range in *.
  rewrite bind_run. unfold hasattr at 1. cbv beta. rewrite Hno.
  rewrite bool_decide_eq_false_2 by (by intros [? ?]). cbn [negb]. cbv iota.
  destruct (py_index input_size 0) as [h | ] eqn:Eh; [ | done].
  cbn [obind] in Hb.
  destruct (obind (py_truediv h (VInt 32)) py_int) as [q | ] eqn:Eq; [ | done].
  cbn [obind] in Hb.
  destruct (py_sub (VInt q) multiscale_range) as [lo | ] eqn:Elo; [ | done].
  cbn [obind] in Hb.
  destruct (py_add (VInt q) multiscale_range) as [hi | ] eqn:Ehi; [ | done].
  cbn [obind] in Hb. injection Hb as <-.
  rewrite (bind_getattr _ _ _ _ _ Hi). cbv beta. rewrite Eh, bind_lift_Ok.
  cbv beta. rewrite Eq, bind_lift_Ok.
  rewrite (bind_getattr _ _ _ _ _ Hm). cbv beta. rewrite Elo, bind_lift_Ok.
  rewrite (bind_getattr _ _ _ _ _ Hi). cbv beta. rewrite Eh, bind_lift_Ok.
  cbv beta. rewrite Eq, bind_lift_Ok.
  rewrite (bind_getattr _ _ _ _ _ Hm). cbv beta. rewrite Ehi, bind_lift_Ok.
  reflexivity.
Qed.

Lemma returns_run {A} (m : M A) a s' env s (Φ : A → Store → Prop) :
  m env s = (Ok a, s') → Φ a s' → returns m env s Φ.
Proof. intros H HΦ. by exists a, s'. Qed.

Lemma randint_run bounds lo hi env s :
  is_range bounds lo hi → lo ≤ hi →
  randint bounds env s =
  (Ok (lo + entropy env (draws s) `mod` (hi - lo + 1)), drawn s).
Proof.
  intros [-> | ->] Hle; unfold randint;
    by rewrite (proj2 (Z.ltb_ge hi lo)) by lia.
Qed.

(** Where [random_size] is there, it is kept. *)
Lemma default_random_size_kept bounds env s :
  attrs s !! "random_size" = Some bounds →
  default_random_size env s = (Ok (), s).
Proof.
  intros Hb. unfold default_random_size.
  rewrite bind_run. unfold hasattr at 1. cbv beta. rewrite Hb.
  by rewrite bool_decide_eq_true_2 by eauto.
Qed.

(** Rank 0 of a job returns the size it picks and hands it to the others,
    if no framework call of its fails and the size fits the tensor. *)
Lemma random_resize_rank0_returns dl epoch env s s1 t :
  fault_free env → dist_rank env = 0 →
  picked env s s1 t → int64 t.1 = true → int64 t.2 = true →
  ∃ s', random_resize dl epoch 0 true env s =
          (Ok (VTuple [VInt t.1; VInt t.2]), s') ∧
        outbox s' = (outbox s ++ [t])%list.
Proof.
  intros Hq H0 (input_size & sf & bounds & lo & hi & size & k &
                Hi & Hsf & Hb & _ & Hr & Hs & Hsize & Hk & ->) H1 H2.
  cbn [fst snd] in H1, H2.
  assert (H : returns (random_resize dl epoch 0 true) env s (λ v s',
                v = VTuple [VInt (32 * size); VInt (32 * k)] ∧
                outbox s' = (outbox s ++ [(32 * size, 32 * k)])%list)).
  { unfold random_resize, tensor_set, tensor_item, dist_broadcast.
    change (0 =? 0) with true. cbv iota.
    do 6 returns_step.
    do 2 apply returns_bind.
    eapply returns_run; [by eapply get_size_factor_run | ].
    apply returns_bind.
    assert (Hd : ∃ s2, default_random_size env (tick (tick s)) = (Ok (), s2) ∧
                       attrs s2 !! "random_size" = Some bounds ∧
                       draws s2 = draws s ∧ outbox s2 = outbox s).
    { destruct Hb as [Hb | (Hno & mr & Hm & Hd)].
      - eexists. split; [by eapply default_random_size_kept | done].
      - eexists. split; [by eapply default_random_size_stores | ].
        store_simpl. by rewrite lookup_insert_eq. }
    destruct Hd as (s2 & Hd & Hb2 & Hdr & Hout).
    eapply returns_run; [exact Hd | ].
    apply returns_bind. eapply returns_getattr; [exact Hb2 | ].
    apply returns_bind.
    eapply returns_run; [apply (randint_run bounds lo hi); [done | lia] | ].
    rewrite Hdr, <- Hsize.
    apply returns_bind. eapply returns_lift; [reflexivity | ].
    apply returns_bind. eapply returns_lift; [exact Hk | ].
    cbv beta zeta. cbn [fst snd]. rewrite H1, H2.
    repeat returns_step.
    eexists _, _. split.
    { unfold exchange. rewrite H0. reflexivity. }
    repeat returns_step. store_simpl. by rewrite Hout. }
  destruct H as (v & s' & H & -> & Hout). eauto.
Qed.

(** C2.  In a distributed round of [random_resize] all ranks that return,
    return the same pair, and it is the size rank 0 picked; when rank 0
    returns, so does every other rank no framework call of which fails;
    and when no framework call fails on any rank and rank 0 can pick a
    size that fits the tensor, every rank of the job returns that size. *)
Theorem all_ranks_resize_alike dl epoch procs :
  ranked procs →
  (∀ i j vi si vj sj,
     cluster_random_resize dl epoch procs !! i = Some (Ok vi, si) →
     cluster_random_resize dl epoch procs !! j = Some (Ok vj, sj) →
     vi = vj) ∧
  (∀ env0 s0 v s0',
     procs !! 0%nat = Some (env0, s0) →
     cluster_random_resize dl epoch procs !! 0%nat = Some (Ok v, s0') →
     ∃ t, picked env0 s0 s0' t ∧ v = VTuple [VInt t.1; VInt t.2]) ∧
  (∀ i env s v s0',
     procs !! S i = Some (env, s) → fault_free env →
     cluster_random_resize dl epoch procs !! 0%nat = Some (Ok v, s0') →
     ∃ si, cluster_random_resize dl epoch procs !! S i = Some (Ok v, si)) ∧
  (∀ env0 s0 s0' t,
     procs !! 0%nat = Some (env0, s0) →
     (∀ i env s, procs !! i = Some (env, s) → fault_free env) →
     picked env0 s0 s0' t → int64 t.1 = true → int64 t.2 = true →
     ∀ i, (i < length procs)%nat →
          ∃ si, cluster_random_resize dl epoch procs !! i =
                Some (Ok (VTuple [VInt t.1; VInt t.2]), si)).
Proof.
  intros Hranked. destruct procs as [ | [env0 s0] others].
  { repeat split; intros; discriminate. }
  assert (H0 : dist_rank env0 = 0) by (by apply (Hranked 0%nat env0 s0)).
  split; [ | split; [ | split]].
  - intros i j vi si vj sj Hi Hj.
    destruct i as [ | i], j as [ | j].
    + rewrite Hi in Hj. by injection Hj.
    + eapply cluster_rank0 in Hi as (t & Ht & _ & ->); [ | done].
      eapply cluster_other_rank in Hj as (t' & rest & Ht' & ->); [ | done].
      rewrite Ht in Ht'. by injection Ht' as <- _.
    + eapply cluster_rank0 in Hj as (t & Ht & _ & ->); [ | done].
      eapply cluster_other_rank in Hi as (t' & rest & Ht' & ->); [ | done].
      rewrite Ht in Ht'. by injection Ht' as <- _.
    + eapply cluster_other_rank in Hi as (t & rest & Ht & ->); [ | done].
      eapply cluster_other_rank in Hj as (t' & rest' & Ht' & ->); [ | done].
      rewrite Ht in Ht'. by injection Ht' as <- _.
  - intros env0' s0' v s0'' [= <- <-] H.
    eapply cluster_rank0 in H as (t & _ & Hp & ->); eauto.
  - intros i env s v s0' Hi Hq H.
    eapply cluster_rank0 in H as (t & Ht & _ & ->); [ | done].
    assert (Hrank : dist_rank env = Z.of_nat (S i)) by (by apply (Hranked (S i) env s)).
    simpl in Hi. simpl. rewrite list_lookup_imap, Hi. simpl. rewrite Ht.
    destruct (random_resize_other_returns dl epoch (Z.of_nat (S i)) env
                (set_inbox [t] s) t []) as [si Hsi]; [lia | lia | done | done | ].
    exists si. by rewrite Hsi.
  - intros env0' s0' s0'' t [= <- <-] Hq Hp H1 H2 i Hlt.
    destruct (random_resize_rank0_returns dl epoch env0 s0 s0'' t)
      as (s' & Hrun & Hout); try done.
    { by apply (Hq 0%nat env0 s0). }
    destruct i as [ | i].
    + exists s'. simpl. by rewrite Hrun.
    + simpl in Hlt.
      destruct (lookup_lt_is_Some_2 others i) as [[env s] Hi]; [lia | ].
      assert (Hrank : dist_rank env = Z.of_nat (S i)) by (by apply (Hranked (S i) env s)).
      simpl. rewrite list_lookup_imap, Hi. simpl.
      rewrite Hrun. simpl. rewrite Hout, drop_app_length.
      destruct (random_resize_other_returns dl epoch (Z.of_nat (S i)) env
                  (set_inbox [t] s) t []) as [si Hsi]; [lia | lia | | done | ].
      { by apply (Hq (S i) env s). }
      exists si. by rewrite Hsi.
Qed.

Lemma all_ranks_resize_alike_witness :
  (∃ s0, cluster_random_resize VNone 3 Sample.cluster !! 0%nat =
         Some (Ok (VTuple [VInt 576; VInt 704]), s0)) ∧
  (∃ s1, cluster_random_resize VNone 3 Sample.cluster !! 1%nat =
         Some (Ok (VTuple [VInt 576; VInt 704]), s1)) ∧
  (∃ s2, cluster_random_resize VNone 3 Sample.cluster !! 2%nat =
         Some (Ok (VTuple [VInt 576; VInt 704]), s2)).
Proof.
  destruct (all_ranks_resize_alike VNone 3 Sample.cluster) as (_ & _ & _ & Hall).
  { intros i env s H.
    do 3 (destruct i as [ | i]; [by injection H as <- _ | ]).
    discriminate H. }
  assert (Hq : ∀ i env s, Sample.cluster !! i = Some (env, s) → fault_free env).
  { intros i env s H k.
    do 3 (destruct i as [ | i]; [by injection H as <- _ | ]).
    discriminate H. }
  assert (Hp : picked (Sample.worker 0) Sample.start
                 (random_resize VNone 3 0 true (Sample.worker 0) Sample.start).2
                 (576, 704)).
  { exists (VTuple [VInt 512; VInt 640]),
           (VFloat (S754_finite false 5629499534213120 (-52))),
           (VTuple [VInt 11; VInt 21]), 11, 21, 18, 22.
    repeat match goal with |- _ ∧ _ => split end;
      try (vm_compute; reflexivity); try lia; try by left.
    right. split; [vm_compute; reflexivity | ].
    exists (VInt 5). split; vm_compute; reflexivity. }
  pose proof (Hall (Sample.worker 0) Sample.start _ (576, 704)
                eq_refl Hq Hp eq_refl eq_refl) as H.
  repeat split; apply H; simpl; lia.
Defined.

(** The round on the sample cluster: every worker returns 576 by 704,
    whatever its fresh tensor held. *)
Example sample_round :
  (cluster_random_resize VNone 3 Sample.cluster).*1 =
  [ Ok (VTuple [VInt 576; VInt 704]);
    Ok (VTuple [VInt 576; VInt 704]);
    Ok (VTuple [VInt 576; VInt 704]) ].
Proof. vm_compute. reflexivity. Qed.

(** Without the broadcast the other ranks return what their fresh tensor
    held. *)
Example sample_round_undistributed :
  (random_resize VNone 3 1 false (Sample.worker 1) Sample.start).1 =
  Ok (VTuple [VInt 1235; VInt 5678]).
Proof. vm_compute. reflexivity. Qed.


(** ** The handles are built *)

(** On an experiment that has no model yet, [get_model] builds one, if no
    framework call fails and the attributes it reads exist. *)
Lemma get_model_builds env s :
  fault_free env →
  default VNone (attrs s !! "model") = VNone →
  Forall (λ k, is_Some (attrs s !! k))
         ["depth"; "width"; "act"; "num_classes"; "num_colors"] →
  returns get_model env s (λ m s',
    ∃ r, m = VRef r ∧
         attrs s' = <["model" := VRef r]> (attrs s) ∧
         heap s' !! r = Some (Model (init_yolo (yolox_modules env)))).
Proof.
  intros Hq Hm Ha. name_attrs Ha. unfold get_model.
  do 4 returns_step. store_simpl. rewrite Hm. cbn [is_None].
  repeat returns_step.
  eexists. split; [reflexivity | ]. store_simpl. split; [done | ].
  rewrite insert_last. apply lookup_last.
Qed.

(** On an experiment that has a model and no optimizer yet,
    [get_optimizer] builds one, if no framework call fails, the attributes
    it reads exist, the learning rate can be computed, and every module
    that passes the test of line 224 has a weight. *)
Lemma get_optimizer_builds_one env s bs r modules warmup_epochs warm :
  fault_free env →
  attrs s !! "optimizer" = None →
  attrs s !! "warmup_epochs" = Some warmup_epochs →
  py_gt_0 warmup_epochs = Ok warm →
  (if warm then is_Some (attrs s !! "warmup_lr")
   else ∃ b lr, attrs s !! "basic_lr_per_img" = Some b ∧
                py_mul b (VInt bs) = Ok lr) →
  is_Some (attrs s !! "momentum") →
  is_Some (attrs s !! "weight_decay") →
  attrs s !! "model" = Some (VRef r) →
  heap s !! r = Some (Model modules) →
  (∀ kv, kv ∈ modules → bn_like kv = true → weight kv.2 ≠ None) →
  returns (get_optimizer bs) env s (λ _ _, True).
Proof.
  intros Hq Hno Hwe Hwarm Hlr [mo Hmo] [wd Hwd] Hm Hr Hw.
  destruct (group_modules_total modules ([], [], []) Hw) as [[[pg0 pg1] pg2] Hpg].
  unfold get_optimizer.
  apply returns_bind, returns_hasattr. rewrite Hno.
  rewrite bool_decide_eq_false_2 by (by intros [? ?]). cbn [negb].
  destruct warm;
    [ destruct Hlr as [lr Hlr] | destruct Hlr as (b & lr & Hb & Hlr) ];
    repeat returns_step; done.
Qed.

(** An attribute of a new experiment is the last value [__init__] assigns
    to it, or what [BaseExp.__init__] left where [__init__] assigns none. *)
Lemma foldl_insert_lookup (l : list (string * value)) :
  ∀ (base : gmap string value) k,
  foldl (λ d kv, <[kv.1 := kv.2]> d) base l !! k =
  match kwarg k (reverse l) with
  | Some v => Some v
  | None => base !! k
  end.
Proof.
  induction l as [ | [k' v'] l IH] using rev_ind; intros base k; [done | ].
  rewrite foldl_app, reverse_app. simpl.
  destruct (String.eqb_spec k k') as [-> | Hne].
  - apply lookup_insert_eq.
  - rewrite lookup_insert_ne by done. apply IH.
Qed.

Lemma Exp_init_lookup base k :
  Exp_init base !! k =
  match kwarg k (reverse init_attrs) with
  | Some v => Some v
  | None => base !! k
  end.
Proof. apply foldl_insert_lookup. Qed.

Lemma init_yolo_weights modules :
  (∀ kv, kv ∈ modules → bn_like kv = true → weight kv.2 ≠ None) →
  ∀ kv, kv ∈ init_yolo modules → bn_like kv = true → weight kv.2 ≠ None.
Proof.
  intros H kv Hin. unfold init_yolo in Hin.
  apply list_elem_of_fmap in Hin as ([k v] & -> & Hin).
  specialize (H (k, v) Hin). unfold bn_like in *. simpl in *.
  destruct (is_BatchNorm2d v) eqn:E; simpl in *; rewrite ?E; auto.
Qed.

(** C3.  Repeated calls of [get_model] return one and the same model
    object, and repeated calls of [get_optimizer], whatever the batch size,
    one and the same optimizer object: the first call builds the object and
    stores it in the attribute, later calls return the attribute.  On a
    newly constructed experiment both objects are built, if no framework
    call fails and every module of the model that passes the test of line
    224 has a weight. *)
Theorem model_and_optimizer_cached :
  (∀ env s m s1 m' s2,
     get_model env s = (Ok m, s1) →
     get_model env s1 = (Ok m', s2) →
     m' = m ∧ ∃ r modules, m = VRef r ∧ heap s2 !! r = Some (Model modules)) ∧
  (∀ env s bs bs' o s1 o' s2,
     attrs s !! "optimizer" = None →
     get_optimizer bs env s = (Ok o, s1) →
     get_optimizer bs' env s1 = (Ok o', s2) →
     o' = o ∧ ∃ r gs, o = VRef r ∧ heap s2 !! r = Some (SGD gs)) ∧
  (∀ env base s bs,
     fault_free env →
     attrs s = Exp_init base →
     base !! "model" = None → base !! "optimizer" = None →
     (∀ kv, kv ∈ yolox_modules env → bn_like kv = true → weight kv.2 ≠ None) →
     ∃ m s1 o s2,
       get_model env s = (Ok m, s1) ∧ get_optimizer bs env s1 = (Ok o, s2)).
Proof.
  split; [ | split].
  - intros env s m s1 m' s2 H1 H2.
    apply get_model_returns in H1 as (Hm & r & modules & -> & Hr).
    assert (m' = VRef r) as -> by (eapply get_model_cached; eauto).
    split; [done | ].
    apply get_model_returns in H2 as (_ & r' & modules' & [= <-] & Hr').
    eauto.
  - intros env s bs bs' o s1 o' s2 Hno H1 H2.
    pose proof (get_optimizer_returns _ _ _ _ _ H1) as Ho.
    rewrite (get_optimizer_cached _ _ bs' _ Ho) in H2. injection H2 as <- <-.
    split; [done | ].
    apply get_optimizer_builds in H1
      as (r & ms & pg0 & pg1 & pg2 & o0 & o1 & o2 & H1);
      [ | done ].
    destruct H1 as (_ & _ & _ & -> & Hh & _).
    eexists _, _. split; [done | ]. rewrite Hh. apply lookup_last.
  - intros env base s bs Hq Hs Hbm Hbo Hw.
    destruct (get_model_builds env s) as (m & s1 & Hm & r & -> & Hs1 & Hr).
    + done.
    + by rewrite Hs, Exp_init_lookup, Hbm.
    + repeat constructor; rewrite Hs, Exp_init_lookup; by eexists.
    + destruct (get_optimizer_builds_one env s1 bs r
                  (init_yolo (yolox_modules env)) (VInt 15) true)
        as (o & s2 & Ho & _);
        try done;
        try (rewrite Hs1, lookup_insert_ne, Hs, Exp_init_lookup by done;
             first [ done | by eexists ]).
      * by rewrite Hs1, lookup_insert_eq.
      * by apply init_yolo_weights.
      * eauto 10.
Qed.

Lemma model_and_optimizer_cached_witness :
  let s2 := (get_model Sample.quiet (get_model Sample.quiet Sample.start).2).2 in
  let s4 := (get_optimizer 8 Sample.quiet (get_optimizer 64 Sample.quiet s2).2).2 in
  (VRef 2 = VRef 2 ∧
   ∃ r modules, VRef 2 = VRef r ∧ heap s2 !! r = Some (Model modules)) ∧
  (VRef 3 = VRef 3 ∧
   ∃ r gs, VRef 3 = VRef r ∧ heap s4 !! r = Some (SGD gs)) ∧
  (∃ m s1 o s2,
     get_model Sample.quiet Sample.start = (Ok m, s1) ∧
     get_optimizer 64 Sample.quiet s1 = (Ok o, s2)).
Proof.
  intros s2 s4.
  destruct model_and_optimizer_cached as (Hm & Ho & Hb).
  split; [ | split].
  - apply (Hm Sample.quiet Sample.start
             (VRef 2) (get_model Sample.quiet Sample.start).2 (VRef 2) s2);
      vm_compute; reflexivity.
  - apply (Ho Sample.quiet s2 64 8
             (VRef 3) (get_optimizer 64 Sample.quiet s2).2 (VRef 3) s4);
      vm_compute; reflexivity.
  - apply (Hb Sample.quiet Sample.base Sample.start 64).
    + intros k. reflexivity.
    + reflexivity.
    + vm_compute. reflexivity.
    + vm_compute. reflexivity.
    + intros kv Hin.
      repeat (apply elem_of_cons in Hin as [-> | Hin]; [by vm_compute | ]).
      by apply elem_of_nil in Hin.
Defined.


(** * Further properties of the operations *)

(** ** Construction *)

Lemma kwarg_elem_of k v (l : list (string * value)) :
  NoDup l.*1 → (k, v) ∈ l → kwarg k l = Some v.
Proof.
  induction l as [ | [k' v'] l IH]; intros Hl Hkv.
  - by apply elem_of_nil in Hkv.
  - simpl in *. apply NoDup_cons in Hl as [Hk' Hl].
    apply elem_of_cons in Hkv as [[= <- <-] | Hkv].
    + by rewrite String.eqb_refl.
    + destruct (String.eqb_spec k k') as [-> | Hne]; [ | by apply IH].
      destruct Hk'. apply list_elem_of_fmap. by exists (k', v).
Qed.

Lemma kwarg_not_elem_of k (l : list (string * value)) :
  k ∉ l.*1 → kwarg k l = None.
Proof.
  induction l as [ | [k' v'] l IH]; intros Hl; [done | ].
  simpl in *. apply not_elem_of_cons in Hl as [Hne Hl].
  destruct (String.eqb_spec k k') as [-> | _]; [done | by apply IH].
Qed.

(** X1.  [__init__] assigns each of its attributes once; after it, each of
    them has the value of the assignment whatever [BaseExp.__init__] had
    set under that name, and every other attribute is as
    [BaseExp.__init__] left it, so that no handle and no multiscale range
    exists unless the base class made one. *)
Theorem init_sets_defaults (base : gmap string value) :
  NoDup init_names ∧
  (∀ k v, (k, v) ∈ init_attrs → Exp_init base !! k = Some v) ∧
  (∀ k, k ∉ init_names → Exp_init base !! k = base !! k).
Proof.
  split; [ | split].
  - apply (bool_decide_unpack _). vm_compute. exact I.
  - intros k v Hin. rewrite Exp_init_lookup, (kwarg_elem_of k v); [done | | ].
    + apply (bool_decide_unpack _). vm_compute. exact I.
    + by apply elem_of_reverse.
  - intros k Hk. rewrite Exp_init_lookup, kwarg_not_elem_of; [done | ].
    by rewrite fmap_reverse, elem_of_reverse.
Qed.

Lemma init_sets_defaults_witness :
  Exp_init Sample.base !! "print_interval" = Some (VInt 6) ∧
  Exp_init Sample.base !! "seed" = Sample.base !! "seed".
Proof.
  destruct (init_sets_defaults Sample.base) as (_ & Hin & Hout). split.
  - apply Hin. do 33 right. left.
  - apply Hout. apply (bool_decide_unpack _). vm_compute. exact I.
Defined.

(** ** The attributes the other operations write *)

(** X2.  [get_model] writes no attribute but [model], and the scheduler,
    evaluation loader, evaluator and [eval] write no attribute at all,
    whether they return or raise. *)
Theorem other_operations_write_nothing env s k :
  (attrs (get_model env s).2 !! k = attrs s !! k ∨ k = "model") ∧
  (∀ lr n, attrs (get_lr_scheduler lr n env s).2 !! k = attrs s !! k) ∧
  (∀ bs d t lg, attrs (get_eval_loader bs d t lg env s).2 !! k = attrs s !! k) ∧
  (∀ bs d t lg, attrs (get_evaluator bs d t lg env s).2 !! k = attrs s !! k) ∧
  (∀ model evaluator d h,
     attrs (eval model evaluator d h env s).2 !! k = attrs s !! k).
Proof.
  set (W := λ (k : string) (o : option value), False).
  repeat match goal with |- _ ∧ _ => split end; intros.
  - set (Wm := λ (k : string) (o : option value), k = "model").
    assert (H : preserves (changes_only Wm) get_model).
    { apply holds_get_model with (writable := λ s k, Wm k (attrs s !! k));
        first [ changes_only_facts | done ]. }
    apply (H env s k).
  - assert (H : preserves (changes_only W) (get_lr_scheduler lr n)).
    { apply holds_get_lr_scheduler; first [ changes_only_facts | done ]. }
    by destruct (H env s k) as [E | []].
  - assert (H : preserves (changes_only W) (get_eval_loader bs d t lg)).
    { apply holds_get_eval_loader; first [ changes_only_facts | done ]. }
    by destruct (H env s k) as [E | []].
  - assert (H : preserves (changes_only W) (get_evaluator bs d t lg)).
    { apply holds_get_evaluator; first [ changes_only_facts | done ]. }
    by destruct (H env s k) as [E | []].
  - assert (H : preserves (changes_only W) (eval model evaluator d h)).
    { apply holds_eval; first [ changes_only_facts | done ]. }
    by destruct (H env s k) as [E | []].
Qed.

(** ** Slices of step two *)

Lemma alternate_length {A} (l : list A) :
  length (alternate false l) = Nat.div2 (S (length l)) ∧
  length (alternate true l) = Nat.div2 (length l).
Proof.
  induction l as [ | x l [IH0 IH1]]; [done | ].
  split; simpl alternate; simpl length; [by rewrite IH1 | done].
Qed.

(** X3.  The slice [l[start::2]] has half the elements from [start] on,
    rounded up, and none when [start] is past the end; assigning to the
    slice keeps the length of the list, and writing back what was read
    changes nothing. *)
Theorem slice_round_trip {A} (start : nat) (l : list A) (f : A → A) :
  length (get_slice start l) = Nat.div2 (S (length l - start)) ∧
  length (set_slice start l (f <$> get_slice start l)) = length l ∧
  set_slice start l (get_slice start l) = l.
Proof.
  split; [ | split].
  - revert l. induction start as [ | n IH]; intros l.
    + simpl. rewrite Nat.sub_0_r. apply alternate_length.
    + destruct l as [ | x l]; [done | ]. simpl. apply IH.
  - apply Nat.le_antisymm.
    + apply Nat.nlt_ge. intros Hlt.
      destruct (lookup_lt_is_Some_2 _ _ Hlt) as [y Hy].
      rewrite set_get_slice_lookup in Hy.
      by rewrite (lookup_ge_None_2 l (length l)) in Hy.
    + apply Nat.nlt_ge. intros Hlt.
      destruct (lookup_lt_is_Some_2 _ _ Hlt) as [y Hy].
      pose proof (set_get_slice_lookup f start l
                    (length (set_slice start l (f <$> get_slice start l)))) as E.
      rewrite Hy, lookup_ge_None_2 in E by done. discriminate E.
  - apply list_eq. intros i.
    pose proof (set_get_slice_lookup id start l i) as E.
    rewrite list_fmap_id in E. rewrite E.
    destruct (_ && _), (l !! i); done.
Qed.

(** ** The test ["bn" in k] *)

Lemma prefix_spec (sub s : string) :
  String.prefix sub s = true ↔ ∃ post, s = sub +:+ post.
Proof.
  revert s. induction sub as [ | c sub IH]; intros s.
  - simpl. split; [intros _; by exists s | by destruct s].
  - destruct s as [ | c' s]; simpl.
    + split; [done | by intros [post [=]]].
    + destruct (Ascii.ascii_dec c c') as [-> | Hne].
      * rewrite IH. split; intros [post H]; exists post.
        -- by rewrite H.
        -- change (String c' s = String c' (sub +:+ post)) in H.
           by injection H.
      * split; [done | intros [post [= ? ?]]; done].
Qed.

(** X4.  The test of line 224 holds of a name exactly when the name has
    ["bn"], or whatever is searched, somewhere inside it. *)
Theorem contains_spec (sub s : string) :
  contains sub s = true ↔ ∃ pre post, s = pre +:+ sub +:+ post.
Proof.
  induction s as [ | c s IH]; cbn [contains].
  - rewrite orb_false_r, prefix_spec. split.
    + intros [post H]. by exists "", post.
    + intros (pre & post & H). destruct pre; [by exists post | discriminate].
  - rewrite orb_true_iff, prefix_spec, IH. split.
    + intros [[post H] | (pre & post & ->)].
      * by exists "", post.
      * by exists (String c pre), post.
    + intros (pre & post & H). destruct pre as [ | c' pre].
      * left. by exists post.
      * right. exists pre, post.
        change (String c s = String c' (pre +:+ sub +:+ post)) in H.
        by injection H.
Qed.

(** ** The optimizer *)

(** X5.  A newly built optimizer has three groups, and each of them has
    the learning rate, which is [warmup_lr] when [warmup_epochs] is
    positive and [basic_lr_per_img] times the batch size otherwise, the
    momentum of the experiment, no dampening, and Nesterov momentum; the
    weight decay is that of the experiment in the second group, and the
    zero of the optimizer's defaults in the first and in the third. *)
Theorem optimizer_settings env s bs o s' :
  attrs s !! "optimizer" = None →
  get_optimizer bs env s = (Ok o, s') →
  ∃ warmup_epochs warm lr momentum weight_decay opts0 opts1 opts2,
    attrs s !! "warmup_epochs" = Some warmup_epochs ∧
    py_gt_0 warmup_epochs = Ok warm ∧
    (if warm then attrs s !! "warmup_lr" = Some lr
     else ∃ b, attrs s !! "basic_lr_per_img" = Some b ∧
               py_mul b (VInt bs) = Ok lr) ∧
    attrs s !! "momentum" = Some momentum ∧
    attrs s !! "weight_decay" = Some weight_decay ∧
    optimizer_options (heap s') o = Some [opts0; opts1; opts2] ∧
    (∀ opts, opts ∈ [opts0; opts1; opts2] →
       kwarg "lr" opts = Some lr ∧
       kwarg "momentum" opts = Some momentum ∧
       kwarg "dampening" opts = Some (VInt 0) ∧
       kwarg "nesterov" opts = Some (VBool true)) ∧
    kwarg "weight_decay" opts0 = Some (VInt 0) ∧
    kwarg "weight_decay" opts1 = Some weight_decay ∧
    kwarg "weight_decay" opts2 = Some (VInt 0).
Proof.
  unfold get_optimizer. intros Hno H.
  apply bind_Ok in H as (cached & s0 & H0 & H).
  apply hasattr_Ok in H0 as [-> ->]. rewrite Hno in H.
  rewrite bool_decide_eq_false_2 in H by (by intros [? ?]). simpl negb in H.
  inv_run H.
  all: repeat match goal with
         | H : (_ ++ [_])%list !! length _ = Some _ |- _ =>
             rewrite lookup_last in H; simplify_eq
         | H : <[_:=_]> (_ ++ [_])%list !! _ = _ |- _ =>
             rewrite insert_last in H
         | H : <[_:=_]> _ !! _ = Some _ |- _ =>
             rewrite lookup_insert_eq in H; simplify_eq
         end.
  all: eexists _, _, _, _, _, _, _, _.
  all: repeat match goal with
         | |- (∀ _, _) ∧ _ => split
         | |- _ ∧ _ => split
         end; try eassumption.
  all: try (cbv iota; by eauto).
  all: try (rewrite !insert_last; unfold optimizer_options;
            rewrite lookup_last; reflexivity).
  all: try reflexivity.
  all: intros opts Hin;
    repeat (apply elem_of_cons in Hin as [-> | Hin]; [by repeat split | ]);
    by apply elem_of_nil in Hin.
Qed.

Lemma optimizer_settings_witness :
  let s := (get_model Sample.quiet Sample.start).2 in
  let s' := (get_optimizer 64 Sample.quiet s).2 in
  ∃ warmup_epochs warm lr momentum weight_decay opts0 opts1 opts2,
    attrs s !! "warmup_epochs" = Some warmup_epochs ∧
    py_gt_0 warmup_epochs = Ok warm ∧
    (if warm then attrs s !! "warmup_lr" = Some lr
     else ∃ b, attrs s !! "basic_lr_per_img" = Some b ∧
               py_mul b (VInt 64) = Ok lr) ∧
    attrs s !! "momentum" = Some momentum ∧
    attrs s !! "weight_decay" = Some weight_decay ∧
    optimizer_options (heap s') (VRef 3) = Some [opts0; opts1; opts2] ∧
    (∀ opts, opts ∈ [opts0; opts1; opts2] →
       kwarg "lr" opts = Some lr ∧
       kwarg "momentum" opts = Some momentum ∧
       kwarg "dampening" opts = Some (VInt 0) ∧
       kwarg "nesterov" opts = Some (VBool true)) ∧
    kwarg "weight_decay" opts0 = Some (VInt 0) ∧
    kwarg "weight_decay" opts1 = Some weight_decay ∧
    kwarg "weight_decay" opts2 = Some (VInt 0).
Proof.
  intros s s'.
  apply (optimizer_settings Sample.quiet s 64 (VRef 3) s');
    vm_compute; reflexivity.
Defined.

Lemma Forall_is_param_fmap (l : list nat) : Forall is_param (Param <$> l).
Proof. apply Forall_fmap, Forall_true. intros p. by exists p. Qed.

Lemma decay_weights_params modules : Forall is_param (decay_weights modules).
Proof.
  unfold decay_weights. induction modules as [ | kv rest IH]; [constructor | ].
  simpl. apply Forall_app. split; [ | done].
  destruct (bn_like kv); [constructor | apply Forall_is_param_fmap].
Qed.

Lemma biases_params modules : Forall is_param (biases modules).
Proof.
  unfold biases. induction modules as [ | kv rest IH]; [constructor | ].
  simpl. apply Forall_app. split; [apply Forall_is_param_fmap | done].
Qed.

Lemma no_decay_weights_elem_of modules kv w :
  kv ∈ modules → bn_like kv = true → weight kv.2 = Some w →
  w ∈ no_decay_weights modules.
Proof.
  intros Hin Hbn Hw. unfold no_decay_weights.
  apply list_elem_of_In, in_flat_map. exists kv.
  split; [by apply list_elem_of_In | ].
  rewrite Hbn, Hw. by left.
Qed.


(** The loop over the modules returns when every module that passes the
    test of line 224 has a weight, and otherwise raises the
    [AttributeError] of the first that has none. *)
Lemma group_modules_outcome modules : ∀ pg,
  match group_modules pg modules with
  | Ok _ => ∀ kv, kv ∈ modules → bn_like kv = true → weight kv.2 ≠ None
  | Raise e =>
      e = AttributeError "weight" ∧
      ∃ kv, kv ∈ modules ∧ bn_like kv = true ∧ weight kv.2 = None
  end.
Proof.
  induction modules as [ | [k v] rest IH]; intros [[a0 a1] a2].
  - simpl. intros kv Hin. by apply elem_of_nil in Hin.
  - cbn [group_modules group_module].
    destruct (is_BatchNorm2d v || contains "bn" k) eqn:Ebn.
    + destruct (weight v) as [w | ] eqn:Ew; cbn [obind].
      * match goal with |- context [group_modules ?pg ?r] =>
          specialize (IH pg); destruct (group_modules pg r) end.
        -- intros kv Hin. apply elem_of_cons in Hin as [-> | Hin]; [ | by apply IH].
           intros _. simpl. by rewrite Ew.
        -- destruct IH as (-> & kv & Hin & Hkv). split; [done | ].
           exists kv. split; [by right | done].
      * split; [done | ]. exists (k, v). split; [by left | ].
        split; [exact Ebn | exact Ew].
    + assert (Hhead : bn_like (k, v) = false) by exact Ebn.
      destruct (weight v) as [[w | | t] | ]; cbn [obind].
      all: match goal with |- context [group_modules ?pg ?r] =>
             specialize (IH pg); destruct (group_modules pg r) end.
      all: first
        [ intros kv Hin; apply elem_of_cons in Hin as [-> | Hin];
          [ by rewrite Hhead | by apply IH ]
        | destruct IH as (-> & kv & Hin & Hkv); split; [done | ];
          exists kv; split; [by right | done] ].
Qed.

(** X6.  When the loop over the modules returns, the second and the third
    group hold [Parameter]s only, and the first group holds the weight of
    every module with "bn" in its name, be the module a [BatchNorm2d] or
    not and be its weight a [Parameter] or not. *)
Theorem decay_groups_hold_parameters modules pg0 pg1 pg2 :
  group_modules ([], [], []) modules = Ok (pg0, pg1, pg2) →
  Forall is_param pg1 ∧ Forall is_param pg2 ∧
  ∀ k v, (k, v) ∈ modules → contains "bn" k = true →
         ∃ w, weight v = Some w ∧ w ∈ pg0.
Proof.
  intros H.
  pose proof (group_modules_outcome modules ([], [], [])) as Hw.
  rewrite H in Hw.
  apply group_modules_spec in H as (-> & -> & ->). simpl.
  split; [apply decay_weights_params | ].
  split; [apply biases_params | ].
  intros k v Hin Hk.
  assert (Hbn : bn_like (k, v) = true).
  { unfold bn_like. simpl. rewrite Hk. apply orb_true_r. }
  destruct (weight v) as [w | ] eqn:E; [ | by destruct (Hw _ Hin Hbn)].
  exists w. split; [done | ].
  by apply (no_decay_weights_elem_of modules (k, v)).
Qed.

Lemma decay_groups_hold_parameters_witness :
  let pg0 := [Param 1] in
  let pg1 := [Param 0; Param 3] in
  let pg2 := [Param 2; Param 4] in
  Forall is_param pg1 ∧ Forall is_param pg2 ∧
  ∀ k v, (k, v) ∈ Sample.modules → contains "bn" k = true →
         ∃ w, weight v = Some w ∧ w ∈ pg0.
Proof.
  intros pg0 pg1 pg2.
  apply (decay_groups_hold_parameters Sample.modules pg0 pg1 pg2).
  vm_compute. reflexivity.
Defined.

(** X7.  The loop over the modules raises exactly when some module that is
    a [BatchNorm2d] or has "bn" in its name has no attribute [weight], and
    what it raises is the [AttributeError] of that attribute. *)
Theorem grouping_fails_without_weight modules pg e :
  group_modules pg modules = Raise e ↔
  e = AttributeError "weight" ∧
  ∃ kv, kv ∈ modules ∧ bn_like kv = true ∧ weight kv.2 = None.
Proof.
  pose proof (group_modules_outcome modules pg) as H.
  destruct (group_modules pg modules) as [pg' | e'].
  - split; [done | ]. intros (_ & kv & Hin & Hbn & Hw). by destruct (H kv).
  - destruct H as [-> H]. split.
    + by intros [= <-].
    + by intros [-> _].
Qed.

(** ** Failures *)

Lemma bind_Raise {A B} (m : M A) (f : A → M B) env s e s' :
  (m ≫= f) env s = (Raise e, s') →
  m env s = (Raise e, s') ∨
  ∃ a s1, m env s = (Ok a, s1) ∧ f a env s1 = (Raise e, s').
Proof.
  rewrite bind_run. destruct (m env s) as [[a | e1] s1]; intros H.
  - right. eauto.
  - left. by injection H as -> ->.
Qed.

Lemma raises_bind_now {A B} (m : M A) (f : A → M B) env s e Φ :
  raises m env s e Φ → raises (m ≫= f) env s e Φ.
Proof.
  intros (s' & H & HΦ). exists s'. split; [ | done]. by rewrite bind_run, H.
Qed.

Lemma raises_bind_later {A B} (m : M A) (f : A → M B) env s e Φ :
  returns m env s (λ a s1, raises (f a) env s1 e Φ) →
  raises (m ≫= f) env s e Φ.
Proof.
  intros (a & s1 & Hm & s' & Hf & HΦ). exists s'. split; [ | done].
  by rewrite bind_run, Hm.
Qed.

Lemma raises_getattr k env s (Φ : Store → Prop) :
  attrs s !! k = None → Φ s → raises (getattr k) env s (AttributeError k) Φ.
Proof. intros Hk H. exists s. split; [ | done]. unfold getattr. by rewrite Hk. Qed.

Lemma raises_lift {A} (o : outcome A) e env s (Φ : Store → Prop) :
  o = Raise e → Φ s → raises (lift o) env s e Φ.
Proof. intros -> H. by exists s. Qed.

Lemma raises_raise {A} e env s (Φ : Store → Prop) :
  Φ s → raises (raise (A:=A) e) env s e Φ.
Proof. intros H. by exists s. Qed.

(** An operation that has come to its [k]-th step: the steps that return,
    by [returns_step], and the one that raises. *)
Ltac raises_step :=
  cbv beta iota;
  lazymatch goal with
  | |- raises (getattr _ ≫= _) _ _ (AttributeError _) _ =>
      first [ apply raises_bind_now, raises_getattr; [store_simpl; eassumption | ]
            | apply raises_bind_later ]
  | |- raises (lift _ ≫= _) _ _ _ _ =>
      first [ apply raises_bind_now; eapply raises_lift; [eassumption | ]
            | apply raises_bind_later ]
  | |- raises (_ ≫= _) _ _ _ _ => apply raises_bind_later
  | |- raises (getattr _) _ _ _ _ =>
      apply raises_getattr; [store_simpl; eassumption | ]
  | |- raises (lift _) _ _ _ _ => eapply raises_lift; [eassumption | ]
  | |- raises (raise _) _ _ _ _ => apply raises_raise
  | |- raises (if ?b then _ else _) _ _ _ _ => destruct b
  | |- returns _ _ _ _ => returns_step
  end.

(** X8.  [get_optimizer] on an experiment that has neither an optimizer nor
    a model raises the [AttributeError] of [model], once the learning rate
    is computed, and leaves the store as it was. *)
Theorem optimizer_needs_model env s bs warmup_epochs warm :
  attrs s !! "optimizer" = None →
  attrs s !! "model" = None →
  attrs s !! "warmup_epochs" = Some warmup_epochs →
  py_gt_0 warmup_epochs = Ok warm →
  (if warm then is_Some (attrs s !! "warmup_lr")
   else ∃ b lr, attrs s !! "basic_lr_per_img" = Some b ∧
                py_mul b (VInt bs) = Ok lr) →
  get_optimizer bs env s = (Raise (AttributeError "model"), s).
Proof.
  intros Hno Hm Hwe Hwarm Hlr.
  assert (H : raises (get_optimizer bs) env s (AttributeError "model")
                (λ s', s' = s)).
  { unfold get_optimizer.
    apply raises_bind_later, returns_hasattr. rewrite Hno.
    rewrite bool_decide_eq_false_2 by (by intros [? ?]). cbn [negb].
    apply raises_bind_now.
    destruct warm;
      [ destruct Hlr as [lr Hlr] | destruct Hlr as (b & lr & Hb & Hlr) ];
      repeat raises_step; done. }
  destruct H as (s' & H & ->). exact H.
Qed.

Lemma optimizer_needs_model_witness :
  get_optimizer 64 Sample.quiet Sample.start =
  (Raise (AttributeError "model"), Sample.start).
Proof.
  apply (optimizer_needs_model Sample.quiet Sample.start 64 (VInt 15) true).
  - vm_compute. reflexivity.
  - vm_compute. reflexivity.
  - vm_compute. reflexivity.
  - reflexivity.
  - vm_compute. by eexists.
Defined.

(** *** What a failure tells *)

Lemma getattr_Raise k e env s s' :
  getattr k env s = (Raise e, s') →
  attrs s !! k = None ∧ e = AttributeError k ∧ s' = s.
Proof.
  unfold getattr. destruct (attrs s !! k); intros H; by inversion H.
Qed.

Lemma lift_Raise {A} (o : outcome A) e env s s' :
  lift o env s = (Raise e, s') → o = Raise e ∧ s' = s.
Proof. intros H. inversion H; subst; auto. Qed.

Lemma raise_Raise {A} e0 e env s s' :
  raise (A:=A) e0 env s = (Raise e, s') → e = e0 ∧ s' = s.
Proof. intros H. inversion H; subst; auto. Qed.

Lemma call_Raise name e env s s' :
  call name env s = (Raise e, s') → faults env (clock s) = Some e ∧ s' = tick s.
Proof.
  unfold call. destruct (faults env (clock s)); intros H; by inversion H.
Qed.

Lemma new_Raise cls args e env s s' :
  new cls args env s = (Raise e, s') →
  faults env (clock s) = Some e ∧ s' = tick s.
Proof.
  unfold new. intros H. apply bind_Raise in H as [H | (u & s1 & _ & H)].
  - by apply call_Raise in H.
  - discriminate H.
Qed.

Lemma deref_Raise v e env s s' : deref v env s = (Raise e, s') → s' = s.
Proof.
  unfold deref. intros H. repeat case_match; by inversion H.
Qed.

Lemma named_modules_of_Raise model e env s s' :
  named_modules_of model env s = (Raise e, s') → s' = s ∨ s' = tick s.
Proof.
  unfold named_modules_of. intros H.
  apply bind_Raise in H as [H | ([r o] & s1 & H1 & H)].
  - left. by apply deref_Raise in H.
  - apply deref_Ok in H1 as (_ & _ & ->). simpl in H. destruct o.
    + left. by apply raise_Raise in H as [_ ->].
    + right. apply bind_Raise in H as [H | (u & s2 & _ & H)].
      * by apply call_Raise in H as [_ ->].
      * discriminate H.
    + left. by apply raise_Raise in H as [_ ->].
Qed.

Lemma add_param_group_Raise optimizer group e env s s' :
  add_param_group optimizer group env s = (Raise e, s') → s' = s ∨ s' = tick s.
Proof.
  unfold add_param_group. intros H.
  apply bind_Raise in H as [H | ([r o] & s1 & H1 & H)].
  - left. by apply deref_Raise in H.
  - apply deref_Ok in H1 as (_ & _ & ->). simpl in H. destruct o.
    + left. by apply raise_Raise in H as [_ ->].
    + left. by apply raise_Raise in H as [_ ->].
    + right. apply bind_Raise in H as [H | (u & s2 & _ & H)].
      * by apply call_Raise in H as [_ ->].
      * discriminate H.
Qed.

Lemma apply_init_yolo_Raise model e env s s' :
  apply_init_yolo model env s = (Raise e, s') → s' = s ∨ s' = tick s.
Proof.
  unfold apply_init_yolo. intros H.
  apply bind_Raise in H as [H | ([r o] & s1 & H1 & H)].
  - left. by apply deref_Raise in H.
  - apply deref_Ok in H1 as (_ & _ & ->). simpl in H. destruct o.
    + left. by apply raise_Raise in H as [_ ->].
    + right. apply bind_Raise in H as [H | (u & s2 & _ & H)].
      * by apply call_Raise in H as [_ ->].
      * discriminate H.
    + left. by apply raise_Raise in H as [_ ->].
Qed.

Ltac raise_prim H :=
  lazymatch type of H with
  | mret _ _ _ = _ => discriminate H
  | raise _ _ _ = _ => apply raise_Raise in H as [? ?]
  | lift _ _ _ = _ => apply lift_Raise in H as [? ?]
  | ask _ _ _ = _ => discriminate H
  | getattr _ _ _ = _ => apply getattr_Raise in H as (? & ? & ?)
  | getattr_default _ _ _ _ = _ => discriminate H
  | hasattr _ _ _ = _ => discriminate H
  | setattr _ _ _ _ = _ => discriminate H
  | new _ _ _ _ = _ => apply new_Raise in H as [? ?]
  | call _ _ _ = _ => apply call_Raise in H as [? ?]
  | alloc _ _ _ = _ => discriminate H
  | mutate _ _ _ _ = _ => discriminate H
  | deref _ _ _ = _ => apply deref_Raise in H
  | apply_init_yolo _ _ _ = _ => apply apply_init_yolo_Raise in H as [? | ?]
  | named_modules_of _ _ _ = _ => apply named_modules_of_Raise in H as [? | ?]
  | add_param_group _ _ _ _ = _ => apply add_param_group_Raise in H as [? | ?]
  end.

(** Reading a failure of a sequence: the steps before the failing one
    returned, and are read by [inv_run]. *)
Ltac inv_raise H :=
  cbv beta in H;
  lazymatch type of H with
  | (_ ≫= _) _ _ = (Raise _, _) =>
      let H1 := fresh "H" in
      apply bind_Raise in H as [H | (? & ? & H1 & H)];
      [ inv_raise H | inv_run H1; inv_raise H ]
  | (if ?b then _ else _) _ _ = (Raise _, _) =>
      let E := fresh "E" in destruct b eqn:E; inv_raise H
  | (match ?x with _ => _ end) _ _ = (Raise _, _) =>
      let E := fresh "E" in destruct x eqn:E; inv_raise H
  | _ => first [ raise_prim H; simplify_eq; store_simpl | idtac ]
  end.

(** X9.  [get_optimizer] stores the optimizer only when it returns:
    whenever it raises, there was no optimizer and no attribute has
    changed. *)
Theorem optimizer_stored_on_success env s bs e s' :
  get_optimizer bs env s = (Raise e, s') →
  attrs s !! "optimizer" = None ∧ attrs s' = attrs s.
Proof.
  intros H.
  destruct (attrs s !! "optimizer") as [o | ] eqn:Ho.
  { by rewrite (get_optimizer_cached env s bs o Ho) in H. }
  split; [done | ].
  unfold get_optimizer in H.
  apply bind_Raise in H as [H | (cached & s0 & H0 & H)]; [discriminate H | ].
  apply hasattr_Ok in H0 as [-> ->]. rewrite Ho in H.
  rewrite bool_decide_eq_false_2 in H by (by intros [? ?]). simpl negb in H.
  inv_raise H.
  all: try reflexivity.
  all: match goal with
       | H : <[_:=_]> _ !! _ = None |- _ => by rewrite lookup_insert_eq in H
       end.
Qed.

Lemma optimizer_stored_on_success_witness :
  attrs Sample.start !! "optimizer" = None ∧
  attrs Sample.start = attrs Sample.start.
Proof.
  apply (optimizer_stored_on_success Sample.quiet Sample.start 64
           (AttributeError "model") Sample.start).
  vm_compute. reflexivity.
Defined.

(** ** The objects of the loaders *)

Lemma lookup_app_here {A} (l : list A) x rest :
  (l ++ x :: rest)%list !! length l = Some x.
Proof. by apply list_lookup_middle. Qed.

(** Looks an object of the framework up in a heap that is given as the heap
    before the operation followed by the new objects. *)
Ltac graph_lookup :=
  unfold field, class_of, instance_args;
  rewrite ?lookup_app_plus, ?lookup_app_here; reflexivity.

Lemma class_of_lookup h r cls args :
  h !! r = Some (Instance cls args) → class_of h (VRef r) = Some cls.
Proof. intros H. unfold class_of. by rewrite H. Qed.

Lemma field_lookup h r cls args k v :
  h !! r = Some (Instance cls args) → kwarg k args = Some v →
  field h (VRef r) k = Some v.
Proof. intros H Hk. unfold field, instance_args. by rewrite H. Qed.

(** The same in a heap that is given object by object, as the operation
    built it. *)
Ltac heap_peel := repeat first [ apply lookup_last | apply lookup_app_l_Some ].

Ltac object_lookup :=
  first [ eapply class_of_lookup; heap_peel
        | eapply field_lookup; [heap_peel | reflexivity] ].

(** X10.  The loader that [get_data_loader] returns reads the dataset
    stored in [dataset], a [MosaicDetection] around a [COCODataset] that
    caches as [cache_img] says; the dataset and the batch sampler have
    [mosaic] on exactly when [no_aug] is off; and the sampler is an
    [InfiniteSampler] over the length of the dataset, seeded with [seed],
    or with 0 when [seed] is [None], zero or otherwise false. *)
Theorem train_loader_objects bs d n c env s l s' :
  get_data_loader bs d n c env s = (Ok l, s') →
  ∃ ds inner batch_sampler sampler seed,
    attrs s' !! "dataset" = Some ds ∧
    class_of (heap s') l = Some "DataLoader" ∧
    field (heap s') l "dataset" = Some ds ∧
    class_of (heap s') ds = Some "MosaicDetection" ∧
    field (heap s') ds "mosaic" = Some (VBool (negb n)) ∧
    field (heap s') ds "dataset" = Some inner ∧
    class_of (heap s') inner = Some "COCODataset" ∧
    field (heap s') inner "cache" = Some (VBool c) ∧
    field (heap s') l "batch_sampler" = Some batch_sampler ∧
    field (heap s') batch_sampler "mosaic" = Some (VBool (negb n)) ∧
    field (heap s') batch_sampler "sampler" = Some sampler ∧
    class_of (heap s') sampler = Some "InfiniteSampler" ∧
    field (heap s') sampler "size" = Some (VInt (dataset_len env)) ∧
    attrs s !! "seed" = Some seed ∧
    field (heap s') sampler "seed" = Some (if truthy seed then seed else VInt 0).
Proof.
  unfold get_data_loader, with_, TrainTransform. intros H. inv_run H.
  all: repeat match goal with
         | H : <[_:=_]> _ !! _ = Some _ |- _ =>
             first [ rewrite lookup_insert_eq in H
                   | rewrite lookup_insert_ne in H by done ]
         end; simplify_eq.
  all: eexists _, _, _, _, _.
  all: repeat match goal with |- _ ∧ _ => split end.
  all: try apply lookup_insert_eq.
  all: try eassumption.
  all: try match goal with E : truthy _ = _ |- _ => rewrite E end.
  all: object_lookup.
Qed.

Lemma train_loader_objects_witness :
  let s' := (get_data_loader 64 true false false Sample.quiet Sample.start).2 in
  ∃ ds inner batch_sampler sampler seed,
    attrs s' !! "dataset" = Some ds ∧
    class_of (heap s') (VRef 6) = Some "DataLoader" ∧
    field (heap s') (VRef 6) "dataset" = Some ds ∧
    class_of (heap s') ds = Some "MosaicDetection" ∧
    field (heap s') ds "mosaic" = Some (VBool (negb false)) ∧
    field (heap s') ds "dataset" = Some inner ∧
    class_of (heap s') inner = Some "COCODataset" ∧
    field (heap s') inner "cache" = Some (VBool false) ∧
    field (heap s') (VRef 6) "batch_sampler" = Some batch_sampler ∧
    field (heap s') batch_sampler "mosaic" = Some (VBool (negb false)) ∧
    field (heap s') batch_sampler "sampler" = Some sampler ∧
    class_of (heap s') sampler = Some "InfiniteSampler" ∧
    field (heap s') sampler "size" = Some (VInt (dataset_len Sample.quiet)) ∧
    attrs Sample.start !! "seed" = Some seed ∧
    field (heap s') sampler "seed" = Some (if truthy seed then seed else VInt 0).
Proof.
  intros s'.
  apply (train_loader_objects 64 true false false Sample.quiet Sample.start
           (VRef 6) s').
  vm_compute. reflexivity.
Defined.

(** X11.  The loader of [get_eval_loader] reads a [COCODataset] of the
    annotation file [val_ann] under the name val2017, or with [testdev] of
    the file image_info_test-dev2017.json under the name test2017; its
    sampler is a [DistributedSampler] of that dataset without shuffling
    with [is_distributed], and a [SequentialSampler] of it without; and no
    attribute is written. *)
Theorem eval_loader_objects bs d t lg env s l s' :
  get_eval_loader bs d t lg env s = (Ok l, s') →
  attrs s' = attrs s ∧
  ∃ ds sampler,
    class_of (heap s') l = Some "DataLoader" ∧
    field (heap s') l "dataset" = Some ds ∧
    class_of (heap s') ds = Some "COCODataset" ∧
    field (heap s') ds "json_file" =
      (if t then Some (VStr "image_info_test-dev2017.json")
       else attrs s !! "val_ann") ∧
    field (heap s') ds "name" = Some (VStr (if t then "test2017" else "val2017")) ∧
    field (heap s') l "sampler" = Some sampler ∧
    (if d then
       class_of (heap s') sampler = Some "DistributedSampler" ∧
       field (heap s') sampler "dataset" = Some ds ∧
       field (heap s') sampler "shuffle" = Some (VBool false)
     else
       class_of (heap s') sampler = Some "SequentialSampler" ∧
       field (heap s') sampler "data_source" = Some ds).
Proof.
  unfold get_eval_loader. intros H.
  destruct t; cbn [negb] in H; cbv iota in H; inv_run H.
  all: heap_norm.
  all: split; [reflexivity | ].
  all: eexists _, _.
  all: repeat match goal with |- _ ∧ _ => split end.
  all: try graph_lookup.
  all: match goal with H : attrs _ !! "val_ann" = _ |- _ => rewrite H end;
    graph_lookup.
Qed.

Lemma eval_loader_objects_witness :
  let s' := (get_eval_loader 64 true true false Sample.quiet Sample.start).2 in
  attrs s' = attrs Sample.start ∧
  ∃ ds sampler,
    class_of (heap s') (VRef 3) = Some "DataLoader" ∧
    field (heap s') (VRef 3) "dataset" = Some ds ∧
    class_of (heap s') ds = Some "COCODataset" ∧
    field (heap s') ds "json_file" =
      (if true then Some (VStr "image_info_test-dev2017.json")
       else attrs Sample.start !! "val_ann") ∧
    field (heap s') ds "name" = Some (VStr (if true then "test2017" else "val2017")) ∧
    field (heap s') (VRef 3) "sampler" = Some sampler ∧
    (if true then
       class_of (heap s') sampler = Some "DistributedSampler" ∧
       field (heap s') sampler "dataset" = Some ds ∧
       field (heap s') sampler "shuffle" = Some (VBool false)
     else
       class_of (heap s') sampler = Some "SequentialSampler" ∧
       field (heap s') sampler "data_source" = Some ds).
Proof.
  intros s'.
  apply (eval_loader_objects 64 true true false Sample.quiet Sample.start
           (VRef 3) s').
  vm_compute. reflexivity.
Defined.

(** The objects of a heap are those of every heap it is extended to. *)
Lemma instance_args_app h h' v args :
  instance_args h v = Some args → instance_args (h ++ h') v = Some args.
Proof.
  unfold instance_args. destruct v as [ | | | | | | | r]; try done.
  destruct (h !! r) as [o | ] eqn:E; [ | done].
  by rewrite (lookup_app_l_Some h h' r o E).
Qed.

Lemma loader_batch_size_app h h' l b :
  loader_batch_size h l = Some b → loader_batch_size (h ++ h') l = Some b.
Proof.
  unfold loader_batch_size. intros H.
  destruct (instance_args h l) as [args | ] eqn:E; [ | done].
  rewrite (instance_args_app _ h' _ _ E). simpl in *.
  destruct (kwarg "batch_size" args); [done | ].
  destruct (kwarg "batch_sampler" args) as [sampler | ]; [ | done]. simpl in *.
  destruct (instance_args h sampler) as [args' | ] eqn:E'; [ | done].
  by rewrite (instance_args_app _ h' _ _ E').
Qed.

(** X12.  The evaluator of [get_evaluator] is a [COCOEvaluator] on a loader
    that works with the per-process batch size, with the test size, the
    thresholds and the numbers of classes and colors of the experiment and
    with the [testdev] it was called with; no attribute is written. *)
Theorem evaluator_objects bs d t lg env s ev s' :
  get_evaluator bs d t lg env s = (Ok ev, s') →
  attrs s' = attrs s ∧
  class_of (heap s') ev = Some "COCOEvaluator" ∧
  (∃ l, field (heap s') ev "dataloader" = Some l ∧
        loader_batch_size (heap s') l =
          Some (VInt (if d then bs `div` world_size env else bs))) ∧
  field (heap s') ev "img_size" = attrs s !! "test_size" ∧
  field (heap s') ev "confthre" = attrs s !! "test_conf" ∧
  field (heap s') ev "nmsthre" = attrs s !! "nmsthre" ∧
  field (heap s') ev "num_classes" = attrs s !! "num_classes" ∧
  field (heap s') ev "num_colors" = attrs s !! "num_colors" ∧
  field (heap s') ev "testdev" = Some (VBool t).
Proof.
  unfold get_evaluator. intros H.
  apply bind_Ok in H as (u & s0 & H0 & H). apply call_Ok in H0 as [_ ->].
  apply bind_Ok in H as (l & s1 & Hl & H).
  assert (Ha : attrs s1 = attrs s).
  { set (W := λ (k : string) (o : option value), False).
    assert (Hp : preserves (changes_only W) (get_eval_loader bs d t lg)).
    { apply holds_get_eval_loader; first [ changes_only_facts | done ]. }
    apply map_eq. intros k. specialize (Hp env (tick s) k).
    rewrite Hl in Hp. by destruct Hp as [E | []]. }
  apply get_eval_loader_Ok in Hl.
  inv_run H.
  rewrite <- Ha.
  repeat match goal with |- _ ∧ _ => split end.
  all: try (unfold field, class_of, instance_args; rewrite lookup_last;
            simpl; congruence).
  all: try reflexivity.
  eexists. split.
  - unfold field, instance_args. rewrite lookup_last. reflexivity.
  - by apply loader_batch_size_app.
Qed.

Lemma evaluator_objects_witness :
  let s' := (get_evaluator 64 true false false Sample.quiet Sample.start).2 in
  attrs s' = attrs Sample.start ∧
  class_of (heap s') (VRef 4) = Some "COCOEvaluator" ∧
  (∃ l, field (heap s') (VRef 4) "dataloader" = Some l ∧
        loader_batch_size (heap s') l =
          Some (VInt (if true then 64 `div` world_size Sample.quiet else 64))) ∧
  field (heap s') (VRef 4) "img_size" = attrs Sample.start !! "test_size" ∧
  field (heap s') (VRef 4) "confthre" = attrs Sample.start !! "test_conf" ∧
  field (heap s') (VRef 4) "nmsthre" = attrs Sample.start !! "nmsthre" ∧
  field (heap s') (VRef 4) "num_classes" = attrs Sample.start !! "num_classes" ∧
  field (heap s') (VRef 4) "num_colors" = attrs Sample.start !! "num_colors" ∧
  field (heap s') (VRef 4) "testdev" = Some (VBool false).
Proof.
  intros s'.
  apply (evaluator_objects 64 true false false Sample.quiet Sample.start
           (VRef 4) s').
  vm_compute. reflexivity.
Defined.

(** X13.  [get_lr_scheduler] builds a scheduler at every call: two calls
    return two different objects, each with the learning rate and the
    iterations per epoch it was called with and with the schedule settings
    of the experiment, and no attribute is written. *)
Theorem scheduler_built_anew lr n lr' n' env s v1 s1 v2 s2 :
  get_lr_scheduler lr n env s = (Ok v1, s1) →
  get_lr_scheduler lr' n' env s1 = (Ok v2, s2) →
  v1 ≠ v2 ∧ attrs s2 = attrs s ∧
  class_of (heap s2) v1 = Some "LRScheduler" ∧
  class_of (heap s2) v2 = Some "LRScheduler" ∧
  field (heap s2) v1 "lr" = Some lr ∧
  field (heap s2) v2 "lr" = Some lr' ∧
  field (heap s2) v2 "iters_per_epoch" = Some n' ∧
  field (heap s2) v2 "name" = attrs s !! "scheduler" ∧
  field (heap s2) v2 "total_epochs" = attrs s !! "max_epoch" ∧
  field (heap s2) v2 "warmup_epochs" = attrs s !! "warmup_epochs" ∧
  field (heap s2) v2 "warmup_lr_start" = attrs s !! "warmup_lr" ∧
  field (heap s2) v2 "no_aug_epochs" = attrs s !! "no_aug_epochs" ∧
  field (heap s2) v2 "min_lr_ratio" = attrs s !! "min_lr_ratio".
Proof.
  unfold get_lr_scheduler. intros H1 H2. inv_run H1. inv_run H2.
  repeat match goal with |- _ ∧ _ => split end.
  all: try reflexivity.
  { rewrite length_app. simpl. intros [= E]. lia. }
  all: heap_norm.
  all: repeat match goal with
         | H : attrs _ !! _ = Some _ |- _ => rewrite H; clear H
         end.
  all: graph_lookup.
Qed.

Lemma scheduler_built_anew_witness :
  let s1 := (get_lr_scheduler (VInt 1) (VInt 100) Sample.quiet Sample.start).2 in
  let s2 := (get_lr_scheduler (VInt 2) (VInt 50) Sample.quiet s1).2 in
  VRef 0 ≠ VRef 1 ∧ attrs s2 = attrs Sample.start ∧
  class_of (heap s2) (VRef 0) = Some "LRScheduler" ∧
  class_of (heap s2) (VRef 1) = Some "LRScheduler" ∧
  field (heap s2) (VRef 0) "lr" = Some (VInt 1) ∧
  field (heap s2) (VRef 1) "lr" = Some (VInt 2) ∧
  field (heap s2) (VRef 1) "iters_per_epoch" = Some (VInt 50) ∧
  field (heap s2) (VRef 1) "name" = attrs Sample.start !! "scheduler" ∧
  field (heap s2) (VRef 1) "total_epochs" = attrs Sample.start !! "max_epoch" ∧
  field (heap s2) (VRef 1) "warmup_epochs" = attrs Sample.start !! "warmup_epochs" ∧
  field (heap s2) (VRef 1) "warmup_lr_start" = attrs Sample.start !! "warmup_lr" ∧
  field (heap s2) (VRef 1) "no_aug_epochs" = attrs Sample.start !! "no_aug_epochs" ∧
  field (heap s2) (VRef 1) "min_lr_ratio" = attrs Sample.start !! "min_lr_ratio".
Proof.
  intros s1 s2.
  apply (scheduler_built_anew (VInt 1) (VInt 100) (VInt 2) (VInt 50)
           Sample.quiet Sample.start (VRef 0) s1 (VRef 1) s2);
    vm_compute; reflexivity.
Defined.

(** ** The sizes of the other ranks and of later calls *)

(** X14.  At a rank other than 0 and without [is_distributed],
    [random_resize] returns what the new tensor happened to contain:
    nothing is drawn, nothing is broadcast and no attribute is written. *)
Theorem other_rank_undistributed dl epoch rank env s :
  rank ≠ 0 → fault_free env →
  returns (random_resize dl epoch rank false) env s (λ v s',
    v = VTuple [VInt (uninitialised env).1; VInt (uninitialised env).2] ∧
    attrs s' = attrs s ∧ draws s' = draws s ∧ outbox s' = outbox s).
Proof.
  intros Hr Hq. unfold random_resize, tensor_item.
  rewrite (proj2 (Z.eqb_neq rank 0) Hr).
  repeat returns_step. done.
Qed.

Lemma other_rank_undistributed_witness :
  returns (random_resize VNone 0 1 false) (Sample.worker 1) Sample.start (λ v s',
    v = VTuple [VInt (uninitialised (Sample.worker 1)).1;
                VInt (uninitialised (Sample.worker 1)).2] ∧
    attrs s' = attrs Sample.start ∧ draws s' = draws Sample.start ∧
    outbox s' = outbox Sample.start).
Proof.
  apply (other_rank_undistributed VNone 0 1 (Sample.worker 1) Sample.start).
  - lia.
  - intros k. reflexivity.
Defined.

Lemma is_range_inj bounds lo hi lo' hi' :
  is_range bounds lo hi → is_range bounds lo' hi' → lo' = lo ∧ hi' = hi.
Proof. intros [-> | ->] [[= -> ->] | [= -> ->]]; done. Qed.

(** X15.  Once [random_size] exists, the size that rank 0 picks depends
    on [random_size], on [input_size] and on the generator only: two calls
    from stores that agree on these return the same pair, whatever
    [multiscale_range] has become. *)
Theorem range_fixed_by_first_call dl epoch d env s1 v1 s1' s2 v2 s2' :
  d = false ∨ dist_rank env = 0 →
  is_Some (attrs s1 !! "random_size") →
  attrs s2 !! "random_size" = attrs s1 !! "random_size" →
  attrs s2 !! "input_size" = attrs s1 !! "input_size" →
  draws s2 = draws s1 →
  random_resize dl epoch 0 d env s1 = (Ok v1, s1') →
  random_resize dl epoch 0 d env s2 = (Ok v2, s2') →
  v2 = v1.
Proof.
  intros Hd [b Hb] Hrs His Hdr H1 H2.
  apply random_resize_Ok in H1 as (local1 & t1 & -> & Hp1 & Ht1).
  apply random_resize_Ok in H2 as (local2 & t2 & -> & Hp2 & Ht2).
  change (0 =? 0) with true in Hp1, Hp2. cbv iota in Hp1, Hp2.
  assert (t1 = local1) as ->.
  { destruct d; [ | done]. destruct Hd as [? | Hd]; [done | ].
    destruct Ht1 as [(_ & ? & _) | [? _]]; done. }
  assert (t2 = local2) as ->.
  { destruct d; [ | done]. destruct Hd as [? | Hd]; [done | ].
    destruct Ht2 as [(_ & ? & _) | [? _]]; done. }
  destruct Hp1 as (i1 & sf1 & b1 & lo1 & hi1 & z1 & k1 &
                   Hi1 & Hsf1 & Hb1 & _ & Hr1 & _ & Hz1 & Hk1 & ->).
  destruct Hp2 as (i2 & sf2 & b2 & lo2 & hi2 & z2 & k2 &
                   Hi2 & Hsf2 & Hb2 & _ & Hr2 & _ & Hz2 & Hk2 & ->).
  rewrite His, Hi1 in Hi2. injection Hi2 as <-.
  rewrite Hsf1 in Hsf2. injection Hsf2 as <-.
  rewrite Hrs in Hb2. rewrite Hb in Hb1, Hb2.
  destruct Hb1 as [[= <-] | [? _]]; [ | done].
  destruct Hb2 as [[= <-] | [? _]]; [ | done].
  destruct (is_range_inj _ _ _ _ _ Hr1 Hr2) as [-> ->].
  rewrite Hdr in Hz2. rewrite <- Hz1 in Hz2. subst z2.
  rewrite Hk1 in Hk2. injection Hk2 as <-. done.
Qed.

Lemma range_fixed_by_first_call_witness :
  let s1 := (random_resize VNone 0 0 false Sample.quiet Sample.start).2 in
  let s2 := set_attrs (insert "multiscale_range" (VInt 0)) s1 in
  (random_resize VNone 1 0 false Sample.quiet s2).1 =
  (random_resize VNone 1 0 false Sample.quiet s1).1.
Proof.
  intros s1 s2.
  change (Ok (VTuple [VInt 608; VInt 736]) = Ok (VTuple [VInt 608; VInt 736])).
  apply (f_equal (@Ok value)).
  apply (range_fixed_by_first_call VNone 1 false Sample.quiet
           s1 (VTuple [VInt 608; VInt 736])
           (random_resize VNone 1 0 false Sample.quiet s1).2
           s2 (VTuple [VInt 608; VInt 736])
           (random_resize VNone 1 0 false Sample.quiet s2).2).
  - by left.
  - vm_compute. by eexists.
  - vm_compute. reflexivity.
  - vm_compute. reflexivity.
  - reflexivity.
  - vm_compute. reflexivity.
  - vm_compute. reflexivity.
Defined.

(** With an empty range in [random_size], rank 0 ends with the
    [ValueError] of [random.randint], having drawn nothing. *)
Lemma empty_range_raises dl epoch d lo hi input_size sf env s :
  fault_free env →
  attrs s !! "input_size" = Some input_size →
  size_factor_of input_size = Ok sf →
  attrs s !! "random_size" = Some (VTuple [VInt lo; VInt hi]) →
  hi < lo →
  raises (random_resize dl epoch 0 d) env s ValueError
    (λ s', attrs s' = attrs s ∧ draws s' = draws s).
Proof.
  intros Hq Hi Hsf Hrs Hlt. unfold random_resize.
  change (0 =? 0) with true. cbv iota.
  do 3 (apply raises_bind_later; returns_step).
  apply raises_bind_now.
  apply raises_bind_later.
  eapply returns_run; [by eapply get_size_factor_run | ].
  apply raises_bind_later.
  eapply returns_run.
  { unfold default_random_size. rewrite bind_run. unfold hasattr at 1.
    cbv beta. store_simpl. rewrite Hrs.
    rewrite bool_decide_eq_true_2 by eauto. reflexivity. }
  apply raises_bind_later. returns_step.
  apply raises_bind_now.
  exists (tick (tick s)). split; [ | done].
  unfold randint. by rewrite (proj2 (Z.ltb_lt hi lo) Hlt).
Qed.

(** X16.  With a negative [multiscale_range] the first call at rank 0
    raises the [ValueError] of [random.randint], after it has stored the
    empty range in [random_size]; from then on every call at rank 0 raises
    it, whatever [multiscale_range] is set to. *)
Theorem negative_range_sticks dl epoch d h w r q sf env s :
  fault_free env →
  attrs s !! "input_size" = Some (VTuple [VInt h; VInt w]) →
  attrs s !! "random_size" = None →
  attrs s !! "multiscale_range" = Some (VInt r) →
  r < 0 →
  obind (py_truediv (VInt h) (VInt 32)) py_int = Ok q →
  size_factor_of (VTuple [VInt h; VInt w]) = Ok sf →
  raises (random_resize dl epoch 0 d) env s ValueError (λ s',
    attrs s' = <["random_size" := VTuple [VInt (q - r); VInt (q + r)]]> (attrs s) ∧
    ∀ dl' epoch' d' multiscale_range,
      raises (random_resize dl' epoch' 0 d') env
        (set_attrs (insert "multiscale_range" multiscale_range) s') ValueError
        (λ _, True)).
Proof.
  intros Hq Hi Hno Hm Hr Hdiv Hsf.
  pose proof (default_range_int h w r q Hdiv) as Hb.
  assert (H1 : raises (random_resize dl epoch 0 d) env s ValueError (λ s',
                 s' = set_attrs
                        (insert "random_size" (VTuple [VInt (q - r); VInt (q + r)]))
                        (tick (tick s)))).
  { unfold random_resize. change (0 =? 0) with true. cbv iota.
    do 3 (apply raises_bind_later; returns_step).
    apply raises_bind_now.
    apply raises_bind_later.
    eapply returns_run; [by eapply get_size_factor_run | ].
    apply raises_bind_later.
    eapply returns_run; [by eapply default_random_size_stores | ].
    apply raises_bind_later. returns_step.
    apply raises_bind_now.
    eexists. split; [ | reflexivity].
    unfold randint. rewrite (proj2 (Z.ltb_lt (q + r) (q - r))) by lia. reflexivity. }
  destruct H1 as (s' & H1 & ->).
  eexists. split; [exact H1 | ]. split; [reflexivity | ].
  intros dl' epoch' d' mr.
  destruct (empty_range_raises dl' epoch' d' (q - r) (q + r)
              (VTuple [VInt h; VInt w]) sf env
              (set_attrs (insert "multiscale_range" mr)
                 (set_attrs
                    (insert "random_size" (VTuple [VInt (q - r); VInt (q + r)]))
                    (tick (tick s))))) as (s2 & H2 & _); try done.
  - store_simpl. by rewrite !lookup_insert_ne.
  - store_simpl. rewrite lookup_insert_ne by done. apply lookup_insert_eq.
  - lia.
  - by exists s2.
Qed.

Lemma negative_range_sticks_witness :
  let s := set_attrs (insert "multiscale_range" (VInt (-3))) Sample.start in
  raises (random_resize VNone 0 0 false) Sample.quiet s ValueError (λ s',
    attrs s' = <["random_size" := VTuple [VInt (16 - -3); VInt (16 + -3)]]> (attrs s) ∧
    ∀ dl' epoch' d' multiscale_range,
      raises (random_resize dl' epoch' 0 d') Sample.quiet
        (set_attrs (insert "multiscale_range" multiscale_range) s') ValueError
        (λ _, True)).
Proof.
  intros s.
  apply (negative_range_sticks VNone 0 false 512 640 (-3) 16
           (VFloat (S754_finite false 5629499534213120 (-52))) Sample.quiet s).
  - intros k. reflexivity.
  - vm_compute. reflexivity.
  - vm_compute. reflexivity.
  - vm_compute. reflexivity.
  - lia.
  - vm_compute. reflexivity.
  - vm_compute. reflexivity.
Defined.

(** ** A size of zero *)

Lemma truediv_by_zero a n : as_num a = Ok n → py_truediv a (VInt 0) = Raise ZeroDivisionError.
Proof.
  intros Ha. unfold py_truediv. rewrite Ha. cbn [obind as_num].
  destruct n as [i | f]; [done | ].
  cbn [num_float obind]. done.
Qed.

(** X17.  [preprocess] on an experiment whose [input_size] has a zero
    height, or a zero width, raises [ZeroDivisionError] and leaves the
    store as it was: no framework call is made. *)
Theorem preprocess_zero_size {image elt : Type}
    (interpolate : image → value → image) (times : elt → spec_float → elt)
    inputs targets t0 t1 ih iw n0 n1 env s :
  attrs s !! "input_size" = Some (VTuple [ih; iw]) →
  as_num t0 = Ok n0 → as_num t1 = Ok n1 →
  ih = VInt 0 ∨ (iw = VInt 0 ∧ ∃ q, py_truediv t0 ih = Ok q) →
  preprocess interpolate times inputs targets (VTuple [t0; t1]) env s =
  (Raise ZeroDivisionError, s).
Proof.
  intros Hi H0 H1 Hz. unfold preprocess.
  change (py_index (VTuple [t0; t1]) 0) with (Ok t0).
  rewrite bind_lift_Ok, (bind_getattr _ _ _ _ _ Hi). cbv beta.
  change (py_index (VTuple [ih; iw]) 0) with (Ok ih).
  rewrite bind_lift_Ok.
  destruct Hz as [-> | (-> & q & Hq)].
  - by rewrite (truediv_by_zero t0 n0 H0).
  - rewrite Hq, bind_lift_Ok.
    change (py_index (VTuple [t0; t1]) 1) with (Ok t1).
    rewrite bind_lift_Ok, (bind_getattr _ _ _ _ _ Hi). cbv beta.
    change (py_index (VTuple [ih; VInt 0]) 1) with (Ok (VInt 0)).
    rewrite bind_lift_Ok.
    by rewrite (truediv_by_zero t1 n1 H1).
Qed.

Lemma preprocess_zero_size_witness :
  let s := set_attrs (insert "input_size" (VTuple [VInt 512; VInt 0])) Sample.start in
  preprocess (λ (inputs : nat) (tsize : value), S inputs)
             (λ (x : Z) (c : spec_float), 0) 0%nat [[1; 2; 3; 4; 5]]
             (VTuple [VInt 512; VInt 640]) Sample.quiet s =
  (Raise ZeroDivisionError, s).
Proof.
  intros s.
  apply (preprocess_zero_size _ _ 0%nat [[1; 2; 3; 4; 5]] (VInt 512) (VInt 640)
           (VInt 512) (VInt 0) (NInt 512) (NInt 640) Sample.quiet s).
  - vm_compute. reflexivity.
  - reflexivity.
  - reflexivity.
  - right. split; [reflexivity | ]. eexists. vm_compute. reflexivity.
Defined.

(** ** The model, again *)

(** X18.  On an experiment that has a model, [get_model] returns it and
    builds nothing, but it runs [init_yolo] on the modules and
    [initialize_biases] again, in three framework calls. *)
Theorem get_model_again env s r modules :
  fault_free env →
  attrs s !! "model" = Some (VRef r) →
  heap s !! r = Some (Model modules) →
  returns get_model env s (λ m s',
    m = VRef r ∧ attrs s' = attrs s ∧
    heap s' = <[r := Model (init_yolo modules)]> (heap s) ∧
    clock s' = (clock s + 3)%nat).
Proof.
  intros Hq Hm Hr. unfold get_model.
  do 4 returns_step. store_simpl. rewrite Hm.
  change (is_None (default VNone (Some (VRef r)))) with false.
  repeat returns_step.
  store_simpl. repeat split. lia.
Qed.

Lemma get_model_again_witness :
  let s := (get_model Sample.quiet Sample.start).2 in
  returns get_model Sample.quiet s (λ m s',
    m = VRef 2 ∧ attrs s' = attrs s ∧
    heap s' = <[2%nat := Model (init_yolo (init_yolo Sample.modules))]> (heap s) ∧
    clock s' = (clock s + 3)%nat).
Proof.
  intros s.
  apply (get_model_again Sample.quiet s 2 (init_yolo Sample.modules)).
  - intros k. reflexivity.
  - vm_compute. reflexivity.
  - vm_compute. reflexivity.
Defined.

Lemma flat_map_fmap_same {A B} (f : A → list B) (g : A → A) (l : list A) :
  (∀ x, f (g x) = f x) → flat_map f (g <$> l) = flat_map f l.
Proof.
  intros Hf. induction l as [ | x l IH]; [done | ].
  rewrite fmap_cons. simpl flat_map. by rewrite Hf, IH.
Qed.

(** X19.  [init_yolo] can be repeated and touches neither names nor
    parameters: applied twice it gives what it gives applied once; the
    parameters of the model and the three parameter groups of the
    optimizer are those of the model as built; every [BatchNorm2d] module
    ends with [eps] 1e-3 and [momentum] 0.03, and every other module is
    kept as it is. *)
Theorem init_yolo_keeps_groups modules :
  init_yolo (init_yolo modules) = init_yolo modules ∧
  (init_yolo modules).*1 = modules.*1 ∧
  parameters (init_yolo modules) = parameters modules ∧
  no_decay_weights (init_yolo modules) = no_decay_weights modules ∧
  decay_weights (init_yolo modules) = decay_weights modules ∧
  biases (init_yolo modules) = biases modules ∧
  (∀ k v, (k, v) ∈ init_yolo modules → is_BatchNorm2d v = true →
          eps v = VFloat (PyFloat.decimal 1 (-3)) ∧
          momentum v = VFloat (PyFloat.decimal 3 (-2))) ∧
  (∀ k v, (k, v) ∈ modules → is_BatchNorm2d v = false →
          (k, v) ∈ init_yolo modules).
Proof.
  repeat match goal with |- _ ∧ _ => split end.
  - unfold init_yolo. rewrite <- list_fmap_compose.
    apply list_fmap_ext. intros i [k v] _. simpl.
    by destruct (is_BatchNorm2d v) eqn:E; simpl; rewrite ?E.
  - unfold init_yolo. rewrite <- list_fmap_compose.
    apply list_fmap_ext. by intros i [k v] _.
  - apply flat_map_fmap_same. intros [k v]. simpl.
    by destruct (is_BatchNorm2d v).
  - apply flat_map_fmap_same. intros [k v]. unfold bn_like. simpl.
    by destruct (is_BatchNorm2d v) eqn:E; simpl; rewrite ?E.
  - apply flat_map_fmap_same. intros [k v]. unfold bn_like. simpl.
    by destruct (is_BatchNorm2d v) eqn:E; simpl; rewrite ?E.
  - apply flat_map_fmap_same. intros [k v]. simpl.
    by destruct (is_BatchNorm2d v).
  - intros k v Hin Hbn. unfold init_yolo in Hin.
    apply list_elem_of_fmap in Hin as ([k0 v0] & [= -> ->] & _).
    simpl in *. destruct (is_BatchNorm2d v0) eqn:E; [done | congruence].
  - intros k v Hin Hbn. unfold init_yolo.
    apply list_elem_of_fmap. exists (k, v). split; [ | done].
    simpl. by rewrite Hbn.
Qed.

(** ** The stored optimizer *)

(** X20.  [get_optimizer] returns whatever is stored under [optimizer],
    be it [None], without a look at the batch size and without a change
    of the store; so a second call, with any batch size, leaves the
    optimizer of the first as it was built. *)
Theorem stored_optimizer_returned env s bs :
  (∀ v, attrs s !! "optimizer" = Some v → get_optimizer bs env s = (Ok v, s)) ∧
  (∀ o s1 bs',
     get_optimizer bs env s = (Ok o, s1) → get_optimizer bs' env s1 = (Ok o, s1)).
Proof.
  split.
  - intros v Hv. by apply get_optimizer_cached.
  - intros o s1 bs' H. apply get_optimizer_cached.
    by apply get_optimizer_returns in H.
Qed.

Lemma stored_optimizer_returned_witness :
  let s := set_attrs (insert "optimizer" VNone) Sample.start in
  let s0 := (get_model Sample.quiet Sample.start).2 in
  let s1 := (get_optimizer 64 Sample.quiet s0).2 in
  get_optimizer 64 Sample.quiet s = (Ok VNone, s) ∧
  get_optimizer 8 Sample.quiet s1 = (Ok (VRef 3), s1).
Proof.
  intros s s0 s1. split.
  - apply (stored_optimizer_returned Sample.quiet s 64). vm_compute. reflexivity.
  - apply (stored_optimizer_returned Sample.quiet s0 64). vm_compute. reflexivity.
Defined.

(** ** The default range on integers *)

(** A positive number times a power of two, and the number of its binary
    digits. *)
Lemma pos_shift p (k : nat) :
  ∃ q, Z.pos q = Z.pos p * 2 ^ Z.of_nat k ∧
       Zdigits2 (Z.pos q) = Zdigits2 (Z.pos p) + Z.of_nat k.
Proof.
  induction k as [ | k (q & Hq & Hd)].
  - exists p. split; simpl; lia.
  - exists (q~0)%positive. split.
    + rewrite Nat2Z.inj_succ, Z.pow_succ_r by lia. lia.
    + simpl in *. lia.
Qed.

Lemma digits_lower_bound p : 2 ^ (Zdigits2 (Z.pos p) - 1) ≤ Z.pos p.
Proof.
  induction p as [p IH | p IH | ]; simpl Zdigits2 in *; [ | | done].
  - rewrite Pos2Z.inj_succ.
    replace (Z.succ (Z.pos (digits2_pos p)) - 1)
      with (Z.succ (Z.pos (digits2_pos p) - 1)) by lia.
    rewrite Z.pow_succ_r by lia. lia.
  - rewrite Pos2Z.inj_succ.
    replace (Z.succ (Z.pos (digits2_pos p)) - 1)
      with (Z.succ (Z.pos (digits2_pos p) - 1)) by lia.
    rewrite Z.pow_succ_r by lia. lia.
Qed.

Lemma digits_upto_53 p : Z.pos p < 2 ^ 53 → 1 ≤ Zdigits2 (Z.pos p) ≤ 53.
Proof.
  intros Hp. split; [simpl; lia | ].
  destruct (Z.le_gt_cases (Zdigits2 (Z.pos p)) 53) as [ | Hgt]; [done | ].
  pose proof (digits_lower_bound p) as Hlow.
  assert (2 ^ 53 ≤ 2 ^ (Zdigits2 (Z.pos p) - 1)); [ | lia].
  apply Z.pow_le_mono_r; lia.
Qed.

(** An integer below [2^53] divided by 32 as a [float] is the exact
    quotient, whose integer part is the floor of the division. *)
Lemma int_of_quotient_by_32 p :
  Z.pos p < 2 ^ 53 →
  obind (py_truediv (VInt (Z.pos p)) (VInt 32)) py_int = Ok (Z.pos p `div` 32).
Proof.
  intros Hp. pose proof (digits_upto_53 p Hp) as Hd.
  set (d := Zdigits2 (Z.pos p)) in *.
  destruct (pos_shift p (Z.to_nat (53 - d))) as (m & Hm & Hdm).
  rewrite Z2Nat.id in Hm, Hdm by lia. fold d in Hdm.
  assert (Hcore :
    SFdiv_core_binary PyFloat.prec PyFloat.emax (Z.pos p) 0 32 0 =
    (Z.pos m~0, d - 59, loc_Exact)).
  { unfold SFdiv_core_binary. fold d.
    change (Zdigits2 32) with 6.
    unfold fexp, emin, PyFloat.prec, PyFloat.emax.
    rewrite Z.max_l by lia. rewrite Z.min_l by lia.
    replace (0 - 0 - (d + 0 - (6 + 0) - 53)) with (59 - d) by lia.
    replace (d + 0 - (6 + 0) - 53) with (d - 59) by lia.
    destruct (59 - d) as [ | s | s] eqn:Es; [lia | | lia].
    cbv zeta. rewrite Z.shiftl_mul_pow2 by lia. rewrite <- Es.
    replace (Z.pos p * 2 ^ (59 - d)) with (Z.pos m~0 * 32).
    2:{ replace (59 - d) with (53 - d + 6) by lia.
        rewrite Z.pow_add_r by lia. change (2 ^ 6) with 64.
        rewrite Pos2Z.inj_xO, Hm. ring. }
    pose proof (Z.div_mul (Z.pos m~0) 32 ltac:(lia)) as Hq.
    pose proof (Z.mod_mul (Z.pos m~0) 32 ltac:(lia)) as Hr.
    unfold Z.div in Hq. unfold Z.modulo in Hr.
    destruct (Z.div_eucl (Z.pos m~0 * 32) 32) as [q r].
    subst q r. reflexivity. }
  assert (Hround :
    binary_round_aux PyFloat.prec PyFloat.emax false (Z.pos m~0) (d - 59) loc_Exact =
    S754_finite false m (d - 58)).
  { unfold binary_round_aux, shr_fexp.
    assert (Hd1 : Zdigits2 (Z.pos m~0) = 54).
    { simpl Zdigits2 in *. lia. }
    rewrite Hd1.
    unfold fexp, emin, PyFloat.prec, PyFloat.emax.
    rewrite Z.max_l by lia.
    replace (54 + (d - 59) - 53 - (d - 59)) with 1 by lia.
    cbn [shr shr_record_of_loc SpecFloat.iter_pos shr_1 shr_m loc_of_shr_record
         round_nearest_even orb].
    replace (d + (53 - d)) with 53 in Hdm by lia. rewrite Hdm.
    rewrite Z.max_l by lia.
    replace (53 + (d - 59 + 1) - 53 - (d - 59 + 1)) with 0 by lia.
    cbn [shr shr_m].
    rewrite (proj2 (Z.leb_le _ _)) by lia.
    f_equal. lia. }
  unfold py_truediv. cbn [as_num obind]. unfold PyFloat.int_truediv.
  change (32 =? 0) with false. cbv iota.
  unfold PyFloat.fdiv, SFdiv. cbn [PyFloat.exact xorb].
  rewrite Hcore, Hround. cbn [PyFloat.finite obind py_int PyFloat.trunc].
  destruct (d - 58) as [ | e | e] eqn:Ee; [lia | lia | ].
  f_equal. rewrite Z.shiftr_div_pow2 by lia. rewrite <- Ee.
  rewrite Hm.
  replace (- (d - 58)) with (53 - d + 5) by lia.
  rewrite Z.pow_add_r by lia. change (2 ^ 5) with 32.
  rewrite (Z.mul_comm (2 ^ (53 - d)) 32).
  rewrite Z.div_mul_cancel_r; [done | lia | ].
  apply Z.pow_nonzero; lia.
Qed.

(** X21.  For a height [h] from 0 to below [2^53], the float division and
    the truncation of lines 186 and 187 give the floor of [h / 32]: the
    default range runs from [h // 32 - r] to [h // 32 + r]. *)
Theorem default_range_floor h w r :
  0 ≤ h < 2 ^ 53 →
  default_range (VTuple [VInt h; VInt w]) (VInt r) =
  Ok (VTuple [VInt (h `div` 32 - r); VInt (h `div` 32 + r)]).
Proof.
  intros Hh. apply default_range_int.
  destruct h as [ | p | p]; [reflexivity | | lia].
  apply int_of_quotient_by_32. lia.
Qed.

Lemma default_range_floor_witness :
  default_range (VTuple [VInt 500; VInt 640]) (VInt 5) =
  Ok (VTuple [VInt (500 `div` 32 - 5); VInt (500 `div` 32 + 5)]).
Proof. apply (default_range_floor 500 640 5). lia. Defined.

(** ** A stored [None], and a failure after the model is stored *)

(** X22.  [get_model] takes a stored [None] for no model: it builds the
    backbone from [depth], [width] and [act], the head from
    [num_classes], [num_colors], [width] and [act], and the model, on
    whose modules it runs [init_yolo], and stores the model, if no
    framework call fails. *)
Theorem none_model_rebuilt env s :
  fault_free env →
  attrs s !! "model" = None ∨ attrs s !! "model" = Some VNone →
  Forall (λ k, is_Some (attrs s !! k))
         ["depth"; "width"; "act"; "num_classes"; "num_colors"] →
  returns get_model env s (λ m s',
    let n := length (heap s) in
    m = VRef (n + 2) ∧
    attrs s' = <["model" := m]> (attrs s) ∧
    length (heap s') = (n + 3)%nat ∧
    heap s' !! (n + 2)%nat = Some (Model (init_yolo (yolox_modules env))) ∧
    class_of (heap s') (VRef n) = Some "YOLOPAFPN" ∧
    field (heap s') (VRef n) "depth" = attrs s !! "depth" ∧
    field (heap s') (VRef n) "width" = attrs s !! "width" ∧
    field (heap s') (VRef n) "act" = attrs s !! "act" ∧
    class_of (heap s') (VRef (n + 1)) = Some "YOLOXHead" ∧
    field (heap s') (VRef (n + 1)) "num_classes" = attrs s !! "num_classes" ∧
    field (heap s') (VRef (n + 1)) "num_colors" = attrs s !! "num_colors" ∧
    field (heap s') (VRef (n + 1)) "width" = attrs s !! "width" ∧
    field (heap s') (VRef (n + 1)) "act" = attrs s !! "act").
Proof.
  intros Hq Hm Ha. name_attrs Ha. unfold get_model.
  do 4 returns_step. store_simpl.
  assert (is_None (default VNone (attrs s !! "model")) = true) as ->.
  { by destruct Hm as [-> | ->]. }
  repeat returns_step.
  store_simpl. heap_norm. rewrite insert_app_r. cbn [insert list_insert].
  rewrite Hk, Hk0, Hk1, Hk2, Hk3.
  repeat match goal with |- _ ∧ _ => split end.
  all: try graph_lookup.
  rewrite length_app. simpl. lia.
Qed.

Lemma none_model_rebuilt_witness :
  let s := set_attrs (insert "model" VNone) Sample.start in
  returns get_model Sample.quiet s (λ m s',
    let n := length (heap s) in
    m = VRef (n + 2) ∧
    attrs s' = <["model" := m]> (attrs s) ∧
    length (heap s') = (n + 3)%nat ∧
    heap s' !! (n + 2)%nat = Some (Model (init_yolo (yolox_modules Sample.quiet))) ∧
    class_of (heap s') (VRef n) = Some "YOLOPAFPN" ∧
    field (heap s') (VRef n) "depth" = attrs s !! "depth" ∧
    field (heap s') (VRef n) "width" = attrs s !! "width" ∧
    field (heap s') (VRef n) "act" = attrs s !! "act" ∧
    class_of (heap s') (VRef (n + 1)) = Some "YOLOXHead" ∧
    field (heap s') (VRef (n + 1)) "num_classes" = attrs s !! "num_classes" ∧
    field (heap s') (VRef (n + 1)) "num_colors" = attrs s !! "num_colors" ∧
    field (heap s') (VRef (n + 1)) "width" = attrs s !! "width" ∧
    field (heap s') (VRef (n + 1)) "act" = attrs s !! "act").
Proof.
  intros s.
  apply (none_model_rebuilt Sample.quiet s).
  - intros k. reflexivity.
  - right. vm_compute. reflexivity.
  - repeat constructor; vm_compute; by eexists.
Defined.

(** X23.  When [get_model] raises, either no attribute has changed, or
    there was no model and the new model is stored: a failure of [apply]
    or of [initialize_biases] leaves the model in place, with [init_yolo]
    run on it or not. *)
Theorem model_failure env s e s' :
  get_model env s = (Raise e, s') →
  attrs s' = attrs s ∨
  (default VNone (attrs s !! "model") = VNone ∧
   ∃ r modules,
     attrs s' = <["model" := VRef r]> (attrs s) ∧
     heap s' !! r = Some (Model modules) ∧
     (modules = yolox_modules env ∨ modules = init_yolo (yolox_modules env))).
Proof.
  unfold get_model. intros H. inv_raise H.
  all: try (left; reflexivity).
  all: right; split; [by destruct (default VNone (attrs s !! "model")) | ].
  all: repeat match goal with
         | H : (_ ++ [_])%list !! length _ = Some _ |- _ =>
             rewrite lookup_last in H; simplify_eq
         | H : <[_:=_]> _ !! _ = Some _ |- _ =>
             rewrite lookup_insert_eq in H; simplify_eq
         end.
  all: eexists _, _; split; [reflexivity | ].
  all: split;
    [ first [ apply lookup_last | rewrite insert_last; apply lookup_last ]
    | eauto ].
Qed.

Lemma model_failure_witness :
  let env := {| faults := λ k, if (k =? 4)%nat then Some (Fault 1) else None;
                dist_rank := 0; world_size := 8; local_rank := 0;
                entropy := λ n, 7 + Z.of_nat n; uninitialised := (1234, 5678);
                yolox_modules := Sample.modules; dataset_len := 1000 |} in
  let s' := (get_model env Sample.start).2 in
  attrs s' = attrs Sample.start ∨
  (default VNone (attrs Sample.start !! "model") = VNone ∧
   ∃ r modules,
     attrs s' = <["model" := VRef r]> (attrs Sample.start) ∧
     heap s' !! r = Some (Model modules) ∧
     (modules = yolox_modules env ∨ modules = init_yolo (yolox_modules env))).
Proof.
  intros env s'.
  apply (model_failure env Sample.start (Fault 1) s').
  vm_compute. reflexivity.
Defined.

(** ** The sizes of the default configuration *)

(** The width that belongs to a number of the default range: the factor is
    [640 * 1.0 / 512], exactly five fourths. *)
Lemma default_width size sf :
  11 ≤ size ≤ 21 →
  size_factor_of (VTuple [VInt 512; VInt 640]) = Ok sf →
  obind (py_mul (VInt size) sf) py_int = Ok ((5 * size) `div` 4).
Proof.
  intros Hs Hsf. vm_compute in Hsf. injection Hsf as <-.
  assert (size = 11 ∨ size = 12 ∨ size = 13 ∨ size = 14 ∨ size = 15 ∨
          size = 16 ∨ size = 17 ∨ size = 18 ∨ size = 19 ∨ size = 20 ∨
          size = 21) as Hcases by lia.
  repeat destruct Hcases as [-> | Hcases]; try subst size; vm_compute; reflexivity.
Qed.

Lemma returns_randint lo hi env s (Φ : Z → Store → Prop) :
  lo ≤ hi →
  Φ (lo + entropy env (draws s) `mod` (hi - lo + 1)) (drawn s) →
  returns (randint (VTuple [VInt lo; VInt hi])) env s Φ.
Proof.
  intros Hle H. eexists _, _. split; [ | exact H].
  unfold randint. by rewrite (proj2 (Z.ltb_ge hi lo)) by lia.
Qed.

Lemma returns_tensor_set z env s (Φ : Z → Store → Prop) :
  fault_free env → - 2 ^ 63 ≤ z < 2 ^ 63 →
  Φ z (tick s) → returns (tensor_set z) env s Φ.
Proof.
  intros Hq Hz H. unfold tensor_set.
  apply returns_bind, returns_call; [done | ].
  unfold int64.
  rewrite (proj2 (Z.leb_le _ _)), (proj2 (Z.ltb_lt _ _)) by lia.
  by apply returns_ret.
Qed.

(** X24.  On an experiment as [__init__] leaves it, [random_resize] at
    rank 0 without distribution returns, if no framework call fails: the
    height is 32 times a number from 11 to 21, the width is 32 times the
    floor of five fourths of that number, the range 11 to 21 is stored in
    [random_size], and one random number is drawn. *)
Theorem default_sizes dl epoch env base s :
  fault_free env →
  attrs s = Exp_init base →
  base !! "random_size" = None →
  returns (random_resize dl epoch 0 false) env s (λ v s',
    ∃ size,
      size = 11 + entropy env (draws s) `mod` 11 ∧ 11 ≤ size ≤ 21 ∧
      v = VTuple [VInt (32 * size); VInt (32 * ((5 * size) `div` 4))] ∧
      attrs s' = <["random_size" := VTuple [VInt 11; VInt 21]]> (attrs s) ∧
      draws s' = S (draws s)).
Proof.
  intros Hq Hs Hno.
  assert (Hi : attrs s !! "input_size" = Some (VTuple [VInt 512; VInt 640])).
  { by rewrite Hs, Exp_init_lookup. }
  assert (Hm : attrs s !! "multiscale_range" = Some (VInt 5)).
  { by rewrite Hs, Exp_init_lookup. }
  destruct (size_factor_of (VTuple [VInt 512; VInt 640])) as [sf | ] eqn:Hsf;
    [ | by vm_compute in Hsf].
  pose proof (mod_in_range 11 21 (entropy env (draws s)) ltac:(lia)) as Hsize.
  change (21 - 11 + 1) with 11 in Hsize.
  unfold random_resize, tensor_item. change (0 =? 0) with true. cbv iota.
  do 6 returns_step.
  do 2 apply returns_bind.
  eapply returns_run; [by eapply get_size_factor_run | ].
  apply returns_bind.
  eapply returns_run.
  { apply (default_random_size_stores (VTuple [VInt 512; VInt 640]) (VInt 5)
             (VTuple [VInt 11; VInt 21])); try done.
    store_simpl. by rewrite Hs, Exp_init_lookup. }
  apply returns_bind. returns_step.
  apply returns_bind, returns_randint; [lia | ].
  change (21 - 11 + 1) with 11. store_simpl.
  set (size := 11 + entropy env (draws s) `mod` 11) in *.
  apply returns_bind. eapply returns_lift; [reflexivity | ].
  apply returns_bind.
  eapply returns_lift; [by apply default_width | ].
  cbv beta zeta. cbn [fst snd].
  assert (0 ≤ (5 * size) `div` 4 ≤ 105).
  { split; [apply Z.div_pos; lia | ].
    apply Z.div_le_upper_bound; lia. }
  apply returns_bind, returns_tensor_set; [done | lia | ].
  apply returns_bind, returns_tensor_set; [done | lia | ].
  repeat returns_step.
  exists size. store_simpl. repeat split; try done; lia.
Qed.

Lemma default_sizes_witness :
  returns (random_resize VNone 0 0 false) Sample.quiet Sample.start (λ v s',
    ∃ size,
      size = 11 + entropy Sample.quiet (draws Sample.start) `mod` 11 ∧
      11 ≤ size ≤ 21 ∧
      v = VTuple [VInt (32 * size); VInt (32 * ((5 * size) `div` 4))] ∧
      attrs s' = <["random_size" := VTuple [VInt 11; VInt 21]]> (attrs Sample.start) ∧
      draws s' = S (draws Sample.start)).
Proof.
  apply (default_sizes VNone 0 Sample.quiet Sample.base Sample.start).
  - intros k. reflexivity.
  - reflexivity.
  - vm_compute. reflexivity.
Defined.

(** ** A failure at rank 0 *)

Lemma exchange_Raise t src e env s s' :
  exchange t src env s = (Raise e, s') →
  dist_rank env ≠ src ∧ inbox s = [] ∧ e = Blocked ∧ s' = s.
Proof.
  unfold exchange. intros H.
  destruct (dist_rank env =? src) eqn:E; [discriminate | ].
  destruct (inbox s) as [ | t0 rest]; [ | discriminate].
  injection H as <- <-. split; [lia | done].
Qed.

Lemma randint_Raise bounds e env s s' :
  randint bounds env s = (Raise e, s') → s' = s.
Proof.
  unfold randint. intros H.
  repeat case_match; try discriminate; by injection H as _ <-.
Qed.

Lemma get_size_factor_same env s : (get_size_factor env s).2 = s.
Proof.
  unfold get_size_factor.
  repeat (rewrite bind_run;
          match goal with
          | |- context [getattr ?k env s] =>
              unfold getattr at 1; cbv beta;
              destruct (attrs s !! k); [ | reflexivity ]
          | |- context [lift ?o env s] =>
              unfold lift at 1; cbv beta;
              destruct o; [ | reflexivity ]
          end).
  reflexivity.
Qed.

(** Rank 0 of a job, when none of its framework calls fails, raises only
    before it broadcasts. *)
Lemma rank0_raises_before_broadcast dl epoch env s e s' :
  fault_free env → dist_rank env = 0 →
  random_resize dl epoch 0 true env s = (Raise e, s') →
  outbox s' = outbox s.
Proof.
  intros Hq H0. unfold random_resize, tensor_set, tensor_item, dist_broadcast.
  change (0 =? 0) with true. cbv iota. intros H.
  inv_raise H.
  all: repeat match goal with
         | H : faults _ _ = Some _ |- _ => by rewrite Hq in H
         | H : get_size_factor ?en ?s = (_, ?s1) |- _ =>
             let E := fresh in
             pose proof (get_size_factor_same en s) as E;
             rewrite H in E; simpl in E; subst s1; clear H
         | H : default_random_size _ _ = _ |- _ =>
             apply default_random_size_run in H as [-> | (_ & _ & ? & ->)]
         | H : randint _ _ _ = (Raise _, _) |- _ => apply randint_Raise in H as ->
         | H : exchange _ _ _ _ = (Raise _, _) |- _ =>
             apply exchange_Raise in H as (? & _); contradiction
         | H : exchange _ _ _ _ = (Ok _, _) |- _ =>
             apply exchange_Ok in H as [(_ & -> & ->) | (? & _)]; [ | contradiction]
         end.
  all: store_simpl; reflexivity.
Qed.

(** A rank other than 0 to which nothing is delivered waits in the
    broadcast. *)
Lemma other_rank_blocks dl epoch rank env s :
  rank ≠ 0 → dist_rank env ≠ 0 → fault_free env → inbox s = [] →
  raises (random_resize dl epoch rank true) env s Blocked (λ _, True).
Proof.
  intros Hr Hd Hq Hi. unfold random_resize, dist_broadcast.
  rewrite (proj2 (Z.eqb_neq rank 0) Hr).
  do 3 (apply raises_bind_later; returns_step).
  apply raises_bind_later. returns_step.
  apply raises_bind_now.
  apply raises_bind_later. returns_step.
  apply raises_bind_later. returns_step.
  eexists. split; [ | done].
  unfold exchange. rewrite (proj2 (Z.eqb_neq _ _) Hd). store_simpl.
  by rewrite Hi.
Qed.

(** X25.  When rank 0 of a distributed round raises, and not because a
    framework call of its failed, no other rank returns: every other rank
    none of whose framework calls fails stays blocked in the collectives
    of lines 195 and 196, for the tensor is never sent. *)
Theorem rank0_failure_blocks dl epoch env0 s0 others e s0' i env s :
  ranked ((env0, s0) :: others) →
  fault_free env0 →
  random_resize dl epoch 0 true env0 s0 = (Raise e, s0') →
  others !! i = Some (env, s) → fault_free env →
  ∃ si, cluster_random_resize dl epoch ((env0, s0) :: others) !! S i =
        Some (Raise Blocked, si).
Proof.
  intros Hranked Hq0 H0 Hi Hq.
  assert (Hr0 : dist_rank env0 = 0) by (by apply (Hranked 0%nat env0 s0)).
  assert (Hri : dist_rank env = Z.of_nat (S i)) by (by apply (Hranked (S i) env s)).
  pose proof (rank0_raises_before_broadcast _ _ _ _ _ _ Hq0 Hr0 H0) as Hout.
  simpl. rewrite list_lookup_imap, Hi. simpl.
  rewrite H0. simpl. rewrite Hout, drop_all.
  destruct (other_rank_blocks dl epoch (Z.of_nat (S i)) env (set_inbox [] s))
    as (si & Hsi & _); [lia | lia | done | done | ].
  exists si. by rewrite Hsi.
Qed.

Lemma rank0_failure_blocks_witness :
  let s0 := set_attrs (insert "multiscale_range" (VInt (-3))) Sample.start in
  ∃ si, cluster_random_resize VNone 0
          [(Sample.worker 0, s0); (Sample.worker 1, Sample.start);
           (Sample.worker 2, Sample.start)] !! 2%nat =
        Some (Raise Blocked, si).
Proof.
  intros s0.
  apply (rank0_failure_blocks VNone 0 (Sample.worker 0) s0
           [(Sample.worker 1, Sample.start); (Sample.worker 2, Sample.start)]
           ValueError (random_resize VNone 0 0 true (Sample.worker 0) s0).2
           1%nat (Sample.worker 2) Sample.start).
  - intros i env s H.
    do 3 (destruct i as [ | i]; [by injection H as <- _ | ]).
    discriminate H.
  - intros k. reflexivity.
  - vm_compute. reflexivity.
  - reflexivity.
  - intros k. reflexivity.
Defined.

(** ** A failure after the dataset is stored *)

(** X26.  When [get_data_loader] raises, either no attribute has changed,
    or [dataset] already holds the new [MosaicDetection]: a failure after
    line 156 leaves the new dataset in place of the old. *)
Theorem data_loader_failure bs d n c env s e s' :
  get_data_loader bs d n c env s = (Raise e, s') →
  attrs s' = attrs s ∨
  ∃ ds,
    attrs s' = <["dataset" := ds]> (attrs s) ∧
    class_of (heap s') ds = Some "MosaicDetection" ∧
    field (heap s') ds "mosaic" = Some (VBool (negb n)).
Proof.
  unfold get_data_loader, with_, TrainTransform. intros H.
  inv_raise H.
  all: try (left; reflexivity).
  all: right; eexists; split; [reflexivity | ].
  all: split; object_lookup.
Qed.

Lemma data_loader_failure_witness :
  let env := {| faults := λ k, if (k =? 9)%nat then Some (Fault 1) else None;
                dist_rank := 0; world_size := 8; local_rank := 0;
                entropy := λ n, 7 + Z.of_nat n; uninitialised := (1234, 5678);
                yolox_modules := Sample.modules; dataset_len := 1000 |} in
  let s' := (get_data_loader 64 false false false env Sample.start).2 in
  attrs s' = attrs Sample.start ∨
  ∃ ds,
    attrs s' = <["dataset" := ds]> (attrs Sample.start) ∧
    class_of (heap s') ds = Some "MosaicDetection" ∧
    field (heap s') ds "mosaic" = Some (VBool (negb false)).
Proof.
  intros env s'.
  apply (data_loader_failure 64 false false false env Sample.start (Fault 1) s').
  vm_compute. reflexivity.
Defined.
